(** * Studanky Strapi back end: report authentication and status propagation

    A shallow embedding of the custom logic of the Studanky Strapi application:

    - [src/utils/geo.ts]                                (module [Geo])
    - [src/api/report/policies/is-authentic-report.ts]  (module [Policy])
    - [src/api/report/content-types/report/lifecycles.ts] (module [Lifecycle])
    - [src/api/spring/content-types/spring/lifecycles.ts] (module [SpringLifecycle])
    - [src/index.ts]                                    (module [Register])

    together with the parts of the platform these files call: Node's [crypto]
    (SHA-256 and HMAC, module [Crypto]), [Buffer.from(_, "hex")], [parseInt],
    UTF-8 encoding, and the Strapi document store (module [Store]).

    Conventions.  A JavaScript string is represented by the Rocq [string]
    that is its UTF-8 encoding ([JS.code_units] gives its 16-bit code
    units).  A byte is a [Z] in [0, 256).  A 32-bit word is a [Z] kept
    in range by masking.  Integral JavaScript numbers (epoch seconds and
    milliseconds) are [Z]; coordinates and distances are binary64 [float]s.
    [async] code is sequential code in the monad [Store.M]: state passing
    over the store, with exceptions. *)

From Stdlib Require Import ZArith List String Ascii Lia Bool.
From Stdlib Require Import PrimFloat.
From stdpp Require Import base option gmap strings list.

Set Warnings "-inexact-float".

(* ===================================================================== *)
(** * JavaScript primitives used by the sources                           *)
(* ===================================================================== *)

Module JS.
Local Open Scope Z_scope.

(** Truthiness of a [string | undefined] value: [undefined] and the empty
    string are falsy. *)
Definition truthy (o : option string) : bool :=
  match o with
  | Some (String _ _) => true
  | _ => false
  end.

Definition code (c : ascii) : Z := Z.of_N (N_of_ascii c).

(** ** Strings and their code units

    A JavaScript string is a sequence of 16-bit code units.  A Rocq
    [string] stands for the JavaScript string of which it is the UTF-8
    encoding, as a string literal of this file does; an unpaired surrogate
    is written as the three bytes its code would take (generalised UTF-8).
    [code_units] reads the JavaScript string off its representation.  Bytes
    that start no such encoding represent nothing; so that the functions
    are total, each reads as U+FFFD. *)

Definition utf8_bytes (s : string) : list Z := map code (list_ascii_of_string s).

Definition is_continuation (b : Z) : bool := (0x80 <=? b) && (b <=? 0xBF).

Definition U_FFFD : Z := 0xFFFD.

(** The code point of a two-, three- and four-byte sequence. *)
Definition code_point2 (b0 b1 : Z) : Z :=
  Z.land b0 0x1F * 64 + Z.land b1 0x3F.
Definition code_point3 (b0 b1 b2 : Z) : Z :=
  Z.land b0 0x0F * 4096 + Z.land b1 0x3F * 64 + Z.land b2 0x3F.
Definition code_point4 (b0 b1 b2 b3 : Z) : Z :=
  Z.land b0 0x07 * 262144 + Z.land b1 0x3F * 4096 + Z.land b2 0x3F * 64 + Z.land b3 0x3F.

Fixpoint utf8_decode (bs : list Z) : list Z :=
  match bs with
  | [] => []
  | b0 :: r0 =>
      if b0 <? 0x80 then b0 :: utf8_decode r0
      else
        match r0 with
        | [] => [U_FFFD]
        | b1 :: r1 =>
            if (0xC2 <=? b0) && (b0 <=? 0xDF) && is_continuation b1
            then code_point2 b0 b1 :: utf8_decode r1
            else
              match r1 with
              | [] => U_FFFD :: utf8_decode r0
              | b2 :: r2 =>
                  if (0xE0 <=? b0) && (b0 <=? 0xEF) && is_continuation b1
                     && is_continuation b2 && (0x800 <=? code_point3 b0 b1 b2)
                  then code_point3 b0 b1 b2 :: utf8_decode r2
                  else
                    match r2 with
                    | [] => U_FFFD :: utf8_decode r0
                    | b3 :: r3 =>
                        let cp := code_point4 b0 b1 b2 b3 in
                        if (0xF0 <=? b0) && (b0 <=? 0xF4) && is_continuation b1
                           && is_continuation b2 && is_continuation b3
                           && (0x10000 <=? cp) && (cp <=? 0x10FFFF)
                        then (0xD800 + (cp - 0x10000) / 1024)
                             :: (0xDC00 + (cp - 0x10000) mod 1024)
                             :: utf8_decode r3
                        else U_FFFD :: utf8_decode r0
                    end
              end
        end
  end.

(** The code units of a string: [s.charCodeAt(0)], [s.charCodeAt(1)], ... *)
Definition code_units (s : string) : list Z := utf8_decode (utf8_bytes s).

Definition is_high_surrogate (u : Z) : bool := (0xD800 <=? u) && (u <=? 0xDBFF).
Definition is_low_surrogate (u : Z) : bool := (0xDC00 <=? u) && (u <=? 0xDFFF).

Definition utf8_of_code_point (cp : Z) : list Z :=
  if cp <? 0x80 then [cp]
  else if cp <? 0x800 then [0xC0 + cp / 64; 0x80 + cp mod 64]
  else if cp <? 0x10000 then
    [0xE0 + cp / 4096; 0x80 + cp / 64 mod 64; 0x80 + cp mod 64]
  else
    [0xF0 + cp / 262144; 0x80 + cp / 4096 mod 64; 0x80 + cp / 64 mod 64;
     0x80 + cp mod 64].

(** The UTF-8 encoding Node makes of a string ([Buffer.from(s, "utf8")],
    [hmac.update(s)], a string key of [createHmac]): a surrogate pair is one
    code point of four bytes, an unpaired surrogate is replaced by U+FFFD. *)
Fixpoint utf8_encode (us : list Z) : list Z :=
  match us with
  | [] => []
  | u :: r =>
      if is_high_surrogate u then
        match r with
        | l :: r' =>
            if is_low_surrogate l
            then utf8_of_code_point (0x10000 + (u - 0xD800) * 1024 + (l - 0xDC00))
                 ++ utf8_encode r'
            else utf8_of_code_point U_FFFD ++ utf8_encode r
        | [] => utf8_of_code_point U_FFFD
        end
      else if is_low_surrogate u then utf8_of_code_point U_FFFD ++ utf8_encode r
      else utf8_of_code_point u ++ utf8_encode r
  end.

(** The UTF-8 bytes of a string. *)
Definition bytes_of_string (s : string) : list Z := utf8_encode (code_units s).

Definition is_digit (u : Z) : bool := (48 <=? u) && (u <=? 57).

(** [StrWhiteSpaceChar] (ECMA-262, 7.1.4.1): the white space TAB, VT, FF,
    SPACE, NBSP, ZWNBSP and the code points of category Zs, and the line
    terminators LF, CR, LS and PS. *)
Definition is_space (u : Z) : bool :=
  ((9 <=? u) && (u <=? 13)) || (u =? 0x20) || (u =? 0xA0) || (u =? 0x1680)
  || ((0x2000 <=? u) && (u <=? 0x200A)) || (u =? 0x2028) || (u =? 0x2029)
  || (u =? 0x202F) || (u =? 0x205F) || (u =? 0x3000) || (u =? 0xFEFF).

Fixpoint skip_spaces (us : list Z) : list Z :=
  match us with
  | u :: r => if is_space u then skip_spaces r else us
  | [] => us
  end.

(** The value of the longest prefix of decimal digits, most significant
    first; [None] when the prefix is empty. *)
Fixpoint digits_prefix (acc : option Z) (us : list Z) : option Z :=
  match us with
  | u :: r =>
      if is_digit u
      then digits_prefix (Some (10 * default 0 acc + (u - 48))) r
      else acc
  | [] => acc
  end.

(** [parseInt(s, 10)] (ECMA-262, 19.2.5): leading white space is skipped, one
    sign is read, then the longest prefix of decimal digits is the value;
    whatever follows the digits is ignored.  [None] stands for [NaN].  The
    mathematical value is kept exact (a Number rounds it beyond 2^53). *)
Definition parseInt10 (s : string) : option Z :=
  match skip_spaces (code_units s) with
  | u :: r =>
      if u =? 45 then Z.opp <$> digits_prefix None r
      else if u =? 43 then digits_prefix None r
      else digits_prefix None (u :: r)
  | [] => None
  end.

(** A string is a decimal integer representation when it is an optional
    minus sign followed by one or more decimal digits, and nothing else. *)
Fixpoint all_digits (s : string) : bool :=
  match s with
  | String c r => is_digit (code c) && all_digits r
  | EmptyString => true
  end.

Definition is_decimal_integer (s : string) : bool :=
  match s with
  | String c r =>
      if Ascii.eqb c "-"
      then match r with String _ _ => all_digits r | EmptyString => false end
      else all_digits s
  | EmptyString => false
  end.

(** ** Hexadecimal buffers *)

Definition hex_digit (n : Z) : ascii :=
  ascii_of_N (Z.to_N (if n <? 10 then 48 + n else 87 + n)).

(** The value of a hexadecimal digit given by its character code. *)
Definition hex_val (n : Z) : option Z :=
  if (48 <=? n) && (n <=? 57) then Some (n - 48)
  else if (97 <=? n) && (n <=? 102) then Some (n - 87)
  else if (65 <=? n) && (n <=? 70) then Some (n - 55)
  else None.

(** [buf.toString("hex")] / [digest("hex")]: two lower-case digits a byte. *)
Fixpoint hex_of_bytes (bs : list Z) : string :=
  match bs with
  | [] => EmptyString
  | b :: r => String (hex_digit (b / 16)) (String (hex_digit (b mod 16)) (hex_of_bytes r))
  end.

(** Node's hexadecimal decoder: it reads the code units two by two, keeps
    the low byte of each, and stops at the first pair that is not a pair of
    hexadecimal digits; a trailing single unit is dropped. *)
Fixpoint hex_decode (us : list Z) : list Z :=
  match us with
  | u1 :: u2 :: r =>
      match hex_val (Z.land u1 0xFF), hex_val (Z.land u2 0xFF) with
      | Some h, Some l => (16 * h + l) :: hex_decode r
      | _, _ => []
      end
  | _ => []
  end.

(** [Buffer.from(s, "hex")] *)
Definition Buffer_from_hex (s : string) : list Z := hex_decode (code_units s).

Definition is_byte (b : Z) : Prop := 0 <= b < 256.

End JS.

(* ===================================================================== *)
(** * Node's [crypto]: SHA-256 (FIPS 180-4) and HMAC (RFC 2104)           *)
(* ===================================================================== *)

Module Crypto.
Local Open Scope Z_scope.

Definition w32 (x : Z) : Z := x mod 2 ^ 32.
Definition add32 (a b : Z) : Z := w32 (a + b).
Definition not32 (x : Z) : Z := Z.lxor x 0xFFFFFFFF.
Definition rotr (n x : Z) : Z := Z.lor (Z.shiftr x n) (w32 (Z.shiftl x (32 - n))).
Definition shr (n x : Z) : Z := Z.shiftr x n.

Definition Ch (x y z : Z) : Z := Z.lxor (Z.land x y) (Z.land (not32 x) z).
Definition Maj (x y z : Z) : Z :=
  Z.lxor (Z.lxor (Z.land x y) (Z.land x z)) (Z.land y z).
Definition Sigma0 (x : Z) : Z := Z.lxor (Z.lxor (rotr 2 x) (rotr 13 x)) (rotr 22 x).
Definition Sigma1 (x : Z) : Z := Z.lxor (Z.lxor (rotr 6 x) (rotr 11 x)) (rotr 25 x).
Definition sigma0 (x : Z) : Z := Z.lxor (Z.lxor (rotr 7 x) (rotr 18 x)) (shr 3 x).
Definition sigma1 (x : Z) : Z := Z.lxor (Z.lxor (rotr 17 x) (rotr 19 x)) (shr 10 x).

(** [p] is prime, by trial division. *)
Definition is_prime (p : Z) : bool :=
  (1 <? p) && forallb (fun d => negb (p mod d =? 0))
                      (map Z.of_nat (seq 2 (Z.to_nat p - 2))).

(** The primes below [n], in increasing order. *)
Definition primes_below (n : nat) : list Z :=
  List.filter is_prime (map Z.of_nat (seq 0 n)).

(** The integer [k]-th root of [n], built from bit [bits - 1] down: the
    largest [x] below [2 ^ bits] with [x ^ k <= n]. *)
Fixpoint iroot (k : Z) (bits : nat) (n x : Z) : Z :=
  match bits with
  | O => x
  | S b =>
      let y := x + 2 ^ Z.of_nat b in
      iroot k b n (if y ^ k <=? n then y else x)
  end.

(** The first 32 bits of the fractional part of the [k]-th root of [p]. *)
Definition frac_root (k p : Z) : Z := iroot k 40 (p * 2 ^ (32 * k)) 0 mod 2 ^ 32.

(** The round constants: from the cube roots of the first 64 primes. *)
Definition K256 : list Z :=
  Eval vm_compute in map (frac_root 3) (firstn 64 (primes_below 312)).

(** The initial hash value: from the square roots of the first 8 primes. *)
Definition H256 : list Z :=
  Eval vm_compute in map (frac_root 2) (firstn 8 (primes_below 20)).

(** Big-endian bytes of [x], [n] of them. *)
Fixpoint be_bytes (n : nat) (x : Z) : list Z :=
  match n with
  | O => []
  | S n' => (x / 256 ^ Z.of_nat n') mod 256 :: be_bytes n' x
  end.

(** Padding: a one bit, zero bits up to 56 modulo 64 bytes, and the length
    of the message in bits as a 64-bit big-endian number. *)
Definition pad (msg : list Z) : list Z :=
  let len := Z.of_nat (length msg) in
  msg ++ [0x80] ++ repeat 0 (Z.to_nat ((55 - len) mod 64)) ++ be_bytes 8 (8 * len).

Fixpoint words_of_bytes (bs : list Z) : list Z :=
  match bs with
  | b0 :: b1 :: b2 :: b3 :: r =>
      (((b0 * 256 + b1) * 256 + b2) * 256 + b3) :: words_of_bytes r
  | _ => []
  end.

Fixpoint blocks (n : nat) (ws : list Z) : list (list Z) :=
  match n with
  | O => []
  | S n' => firstn 16 ws :: blocks n' (skipn 16 ws)
  end.

(** Message schedule: [n] more words after the ones in [w]. *)
Fixpoint schedule (n : nat) (w : list Z) : list Z :=
  match n with
  | O => w
  | S n' =>
      let t := length w in
      let at_ (k : nat) := nth (t - k) w 0 in
      schedule n'
        (w ++ [add32 (add32 (sigma1 (at_ 2%nat)) (at_ 7%nat))
                     (add32 (sigma0 (at_ 15%nat)) (at_ 16%nat))])
  end.

Record regs := Regs { ra : Z; rb : Z; rc : Z; rd : Z; re : Z; rf : Z; rg : Z; rh : Z }.

Definition round (s : regs) (kw : Z * Z) : regs :=
  let t1 := add32 (add32 (add32 (rh s) (Sigma1 (re s))) (Ch (re s) (rf s) (rg s)))
                  (add32 (fst kw) (snd kw)) in
  let t2 := add32 (Sigma0 (ra s)) (Maj (ra s) (rb s) (rc s)) in
  Regs (add32 t1 t2) (ra s) (rb s) (rc s) (add32 (rd s) t1) (re s) (rf s) (rg s).

Definition regs_of (h : list Z) : regs :=
  Regs (nth 0 h 0) (nth 1 h 0) (nth 2 h 0) (nth 3 h 0)
       (nth 4 h 0) (nth 5 h 0) (nth 6 h 0) (nth 7 h 0).

Definition list_of (s : regs) : list Z :=
  [ra s; rb s; rc s; rd s; re s; rf s; rg s; rh s].

Definition compress (h : list Z) (block : list Z) : list Z :=
  let s := fold_left round (combine K256 (schedule 48 block)) (regs_of h) in
  map (fun p => add32 (fst p) (snd p)) (combine h (list_of s)).

Definition sha256 (msg : list Z) : list Z :=
  let ws := words_of_bytes (pad msg) in
  let h := fold_left compress (blocks (length ws / 16) ws) H256 in
  flat_map (be_bytes 4) h.

(** HMAC with SHA-256: block size 64; a longer key is hashed first, a
    shorter one is extended with zero bytes. *)
Definition block_key (key : list Z) : list Z :=
  let k := if (64 <? Z.of_nat (length key)) then sha256 key else key in
  k ++ repeat 0 (64 - length k)%nat.

Definition hmac_sha256 (key msg : list Z) : list Z :=
  let k := block_key key in
  let ipad := map (fun b => Z.lxor b 0x36) k in
  let opad := map (fun b => Z.lxor b 0x5c) k in
  sha256 (opad ++ sha256 (ipad ++ msg)).

(** [crypto.timingSafeEqual(a, b)]: a [RangeError] when the byte lengths
    differ ([None] here), otherwise whether the buffers are equal. *)
Definition timingSafeEqual (a b : list Z) : option bool :=
  if (length a =? length b)%nat then Some (bool_decide (a = b)) else None.

End Crypto.

(* ===================================================================== *)
(** * The JavaScript run time the sources rely on                          *)
(* ===================================================================== *)

(** What the engine provides and the sources take as given: the [Date]
    constructor on a string ([Date_parse]: the time value in milliseconds,
    [None] for an Invalid Date), [Date.prototype.toISOString], and the
    transcendental functions of [Math] (implementation-approximated, so
    they are left open). *)
Class Runtime := {
  Date_parse : string -> option Z;
  Date_parse_empty : Date_parse "" = None;
  Date_toISOString : Z -> string;
  Math_sin : float -> float;
  Math_cos : float -> float;
  Math_atan2 : float -> float -> float;
}.

(* ===================================================================== *)
(** * src/utils/geo.ts                                                     *)
(* ===================================================================== *)

Module Geo.
Section WithRuntime.
Context {RT : Runtime}.
Local Open Scope float_scope.

Definition EARTH_RADIUS_METERS : float := 6371000.
Definition Math_PI : float := 3.141592653589793.

Definition toRadians (degrees : float) : float := degrees * (Math_PI / 180).

Definition haversineDistance (lat1 lng1 lat2 lng2 : float) : float :=
  let dLat := toRadians (lat2 - lat1) in
  let dLng := toRadians (lng2 - lng1) in
  let a :=
    Math_sin (dLat / 2) * Math_sin (dLat / 2) +
    Math_cos (toRadians lat1) *
    Math_cos (toRadians lat2) *
    Math_sin (dLng / 2) *
    Math_sin (dLng / 2) in
  let c := 2 * Math_atan2 (PrimFloat.sqrt a) (PrimFloat.sqrt (1 - a)) in
  EARTH_RADIUS_METERS * c.

End WithRuntime.
End Geo.

(* ===================================================================== *)
(** * The Strapi store, the logger and the monad of [async] code           *)
(* ===================================================================== *)

Module Store.

(** [type SpringStatus = 'is_flowing' | 'is_not_flowing' | 'unknown'] *)
Inductive SpringStatus := is_flowing | is_not_flowing | unknown.

(** One stored representation (database row) of a spring.  [fields] holds
    every attribute the sources never name (name, description, ...). *)
Record SpringRow := mkRow {
  lat : float;
  lng : float;
  current_status : SpringStatus;
  status_updated_at : option string;
  updatedAt : string;
  fields : gmap string string;
}.

(** A spring document: its draft, and its published copy when there is one. *)
Record SpringDoc := mkDoc {
  draft : SpringRow;
  published : option SpringRow;
}.

Inductive Status := Draft | Published.

(** The [data] of an update: the keys it carries. *)
Record UpdateData := mkData {
  d_current_status : SpringStatus;
  d_status_updated_at : string;
  d_updatedAt : option string;
}.

Inductive StoreOp :=
| FindSpring (documentId : string) (status : Status)
| FindReport (documentId : string)
| UpdateSpring (status : Status) (documentId : string) (data : UpdateData).

Inductive Error := StoreError | RangeError.

Inductive Level := lvl_debug | lvl_info | lvl_warn | lvl_error.

Inductive Message :=
(* is-authentic-report *)
| MissingSignatureHeader
| MissingTimestampHeader
| InvalidTimestampFormat
| TimestampExpired (age : Z)
| MissingSpringDocumentId
| SecretNotConfigured
| InvalidSignature (springDocumentId : string)
| SpringNotFound (springDocumentId : string)
| TooFar (distance : float)
| GeoValidationPassed (distance : float) (springDocumentId : string)
| GeoValidationSkipped (springDocumentId : string)
| Authenticated (springDocumentId : string)
(* report lifecycles *)
| NoSpringLinked (reportDocId : string)
| Propagating (reportDocId springDocumentId : string)
| DraftNotFound (reportDocId springDocumentId : string)
| NotNewer (reportDocId reported_at : string) (reference : option string)
| UpdatedDraftOnly (reportDocId springDocumentId : string) (newStatus : SpringStatus)
| UpdatedPublished (reportDocId springDocumentId : string) (newStatus : SpringStatus)
| UpdatedDraft (reportDocId springDocumentId : string) (newStatus : SpringStatus)
| PropagationFailed (reportDocId springDocumentId : string) (err : Error).

(** The world an invocation runs in.  [reports] maps a report to the spring
    its relation points at.  [faults] is the schedule of store failures: each
    store call takes the next entry and throws when it is [true] (an
    exhausted schedule means no failure).  [trace] records the store calls
    made, [log] the log entries written, [now] is [Date.now()]. *)
Record World := mkWorld {
  springs : gmap string SpringDoc;
  reports : gmap string (option string);
  HMAC_SECRET : option string;
  now : Z;
  faults : list bool;
  trace : list StoreOp;
  log : list (Level * Message);
}.

Definition with_springs (s : gmap string SpringDoc) (w : World) : World :=
  mkWorld s (reports w) (HMAC_SECRET w) (now w) (faults w) (trace w) (log w).
Definition with_faults (f : list bool) (w : World) : World :=
  mkWorld (springs w) (reports w) (HMAC_SECRET w) (now w) f (trace w) (log w).
Definition with_trace (t : list StoreOp) (w : World) : World :=
  mkWorld (springs w) (reports w) (HMAC_SECRET w) (now w) (faults w) t (log w).
Definition with_log (l : list (Level * Message)) (w : World) : World :=
  mkWorld (springs w) (reports w) (HMAC_SECRET w) (now w) (faults w) (trace w) l.

(** ** The monad: state passing with exceptions *)

Inductive Res (A : Type) := Ok (a : A) | Throw (e : Error).
Arguments Ok {A} a.
Arguments Throw {A} e.

Definition M (A : Type) : Type := World -> Res A * World.

#[export] Instance M_ret : MRet M := fun A a w => (Ok a, w).
#[export] Instance M_bind : MBind M := fun A B f m w =>
  match m w with
  | (Ok a, w') => f a w'
  | (Throw e, w') => (Throw e, w')
  end.

(** [try { body } catch (error) { handler }] *)
Definition try_catch {A} (body : M A) (handler : Error -> M A) : M A := fun w =>
  match body w with
  | (Ok a, w') => (Ok a, w')
  | (Throw e, w') => handler e w'
  end.

Definition throw {A} (e : Error) : M A := fun w => (Throw e, w).
Definition gets {A} (f : World -> A) : M A := fun w => (Ok (f w), w).
Definition modify (f : World -> World) : M unit := fun w => (Ok (), f w).

Definition strapi_log (l : Level) (m : Message) : M unit :=
  modify (fun w => with_log (log w ++ [(l, m)]) w).

Definition Date_now : M Z := gets now.
Definition process_env_HMAC_SECRET : M (option string) := gets HMAC_SECRET.

(** A store call: it is recorded, then it fails or not as scheduled. *)
Definition store_call (op : StoreOp) : M unit := fun w =>
  let w' := with_faults (tl (faults w)) (with_trace (trace w ++ [op]) w) in
  if hd false (faults w) then (Throw StoreError, w') else (Ok (), w').

Definition row_of (st : Status) (d : SpringDoc) : option SpringRow :=
  match st with
  | Draft => Some (draft d)
  | Published => published d
  end.

(** [strapi.documents('api::spring.spring').findOne({documentId, status})] *)
Definition documents_spring_findOne (documentId : string) (st : Status)
  : M (option SpringRow) :=
  store_call (FindSpring documentId st);;
  gets (fun w => springs w !! documentId ≫= row_of st).

(** [strapi.documents('api::report.report').findOne({documentId,
    populate: ['spring']})]: the [documentId] of the populated spring, when
    the report exists and its relation is set. *)
Definition documents_report_findOne (documentId : string) : M (option string) :=
  store_call (FindReport documentId);;
  gets (fun w => mjoin (reports w !! documentId)).

(** The row after an update: the keys of [data] replace the row's. *)
Definition apply_update (data : UpdateData) (r : SpringRow) : SpringRow :=
  mkRow (lat r) (lng r)
        (d_current_status data)
        (Some (d_status_updated_at data))
        (default (updatedAt r) (d_updatedAt data))
        (fields r).

(** [strapi.documents('api::spring.spring').update({documentId, data})]:
    the Document Service writes the draft. *)
Definition documents_spring_update (documentId : string) (data : UpdateData) : M unit :=
  store_call (UpdateSpring Draft documentId data);;
  modify (fun w =>
    with_springs
      (alter (fun d => mkDoc (apply_update data (draft d)) (published d))
             documentId (springs w)) w).

(** [strapi.db.query('api::spring.spring').update({where: {documentId,
    publishedAt: {$notNull: true}}, data})]: the query engine writes the
    row that has a publication date, and nothing when there is none. *)
Definition db_query_spring_update (documentId : string) (data : UpdateData) : M unit :=
  store_call (UpdateSpring Published documentId data);;
  modify (fun w =>
    with_springs
      (alter (fun d => mkDoc (draft d) (apply_update data <$> published d))
             documentId (springs w)) w).

End Store.

(* ===================================================================== *)
(** * src/api/report/policies/is-authentic-report.ts                       *)
(* ===================================================================== *)

Module Policy.
Import JS Store.
Section WithRuntime.
Context {RT : Runtime}.

Definition TIMESTAMP_MAX_AGE_SECONDS : Z := 5 * 60.
Definition MAX_DISTANCE_METERS : float := 500%float.

(** [ReportRequestBody.data]: the keys the policy reads, with the types
    the interface declares for them ([spring: string], [user_lat?: number],
    [user_lng?: number]).  [None] is an absent key ([undefined]).  A body
    whose values have other types than the declared ones is outside this
    model. *)
Record ReportData := mkReportData {
  spring : option string;
  user_lat : option float;
  user_lng : option float;
}.

(** [ctx.request]: the headers by lower-case name, and [body.data] when
    both [body] and [body.data] are there. *)
Record Request := mkRequest {
  header : gmap string string;
  body_data : option ReportData;
}.

(** Signature payload format: "{timestamp}:{springDocumentId}" *)
Definition payload (timestamp springDocumentId : string) : string :=
  (timestamp ++ ":" ++ springDocumentId)%string.

(** The digest [createHmac("sha256", secret).update(payload).digest()]. *)
Definition digest (timestamp springDocumentId secret : string) : list Z :=
  Crypto.hmac_sha256 (bytes_of_string secret)
                     (bytes_of_string (payload timestamp springDocumentId)).

Definition generateExpectedSignature (timestamp springDocumentId secret : string)
  : string :=
  hex_of_bytes (digest timestamp springDocumentId secret).

(** [isTimestampValid(timestamp)], with [Date.now()] as [now_ms]. *)
Definition isTimestampValid (now_ms timestamp : Z) : bool :=
  let now := (now_ms / 1000)%Z in
  let age := (now - timestamp)%Z in
  (0 <=? age)%Z && (age <=? TIMESTAMP_MAX_AGE_SECONDS)%Z.

(** The condition of lines 141-144:
    [signatureBuffer.length !== expectedBuffer.length ||
     !crypto.timingSafeEqual(signatureBuffer, expectedBuffer)],
    where [||] evaluates its right operand only when the left one is false. *)
Definition signatureMismatch (signature expectedSignature : string) : Res bool :=
  let signatureBuffer := Buffer_from_hex signature in
  let expectedBuffer := Buffer_from_hex expectedSignature in
  if negb (length signatureBuffer =? length expectedBuffer)%nat then Ok true
  else match Crypto.timingSafeEqual signatureBuffer expectedBuffer with
       | Some eq => Ok (negb eq)
       | None => Throw RangeError
       end.

Definition lift_res {A} (r : Res A) : M A := fun w => (r, w).

(** Section 5 of the policy (lines 155-201): the geo-fence, and the final
    acceptance. *)
Definition geoFence (body : option ReportData) (springDocumentId : string) : M bool :=
  let userLat := body ≫= user_lat in
  let userLng := body ≫= user_lng in
  match userLat, userLng with
  | Some userLat, Some userLng =>
      spring ← documents_spring_findOne springDocumentId Published;
      match spring with
      | None =>
          strapi_log lvl_warn (SpringNotFound springDocumentId);;
          mret false
      | Some spring =>
          let distance :=
            Geo.haversineDistance userLat userLng (lat spring) (lng spring) in
          if PrimFloat.ltb MAX_DISTANCE_METERS distance then
            strapi_log lvl_warn (TooFar distance);;
            mret false
          else
            strapi_log lvl_debug (GeoValidationPassed distance springDocumentId);;
            strapi_log lvl_info (Authenticated springDocumentId);;
            mret true
      end
  | _, _ =>
      strapi_log lvl_debug (GeoValidationSkipped springDocumentId);;
      strapi_log lvl_info (Authenticated springDocumentId);;
      mret true
  end.

(** The policy: [true] lets the request through to [report.create],
    [false] answers 403. *)
Definition policy (req : Request) : M bool :=
  let signature := header req !! "x-app-signature" in
  let timestampHeader := header req !! "x-timestamp" in
  if negb (truthy signature) then
    strapi_log lvl_warn MissingSignatureHeader;; mret false
  else if negb (truthy timestampHeader) then
    strapi_log lvl_warn MissingTimestampHeader;; mret false
  else
  let signature := default EmptyString signature in
  let timestampHeader := default EmptyString timestampHeader in
  match parseInt10 timestampHeader with
  | None => strapi_log lvl_warn InvalidTimestampFormat;; mret false
  | Some timestamp =>
  now_ms ← Date_now;
  if negb (isTimestampValid now_ms timestamp) then
    now_ms ← Date_now;
    strapi_log lvl_warn (TimestampExpired (now_ms / 1000 - timestamp));; mret false
  else
  let body := body_data req in
  let springDocumentId := body ≫= spring in
  if negb (truthy springDocumentId) then
    strapi_log lvl_warn MissingSpringDocumentId;; mret false
  else
  let springDocumentId := default EmptyString springDocumentId in
  hmacSecret ← process_env_HMAC_SECRET;
  if negb (truthy hmacSecret) then
    strapi_log lvl_error SecretNotConfigured;; mret false
  else
  let hmacSecret := default EmptyString hmacSecret in
  let expectedSignature :=
    generateExpectedSignature timestampHeader springDocumentId hmacSecret in
  mismatch ← lift_res (signatureMismatch signature expectedSignature);
  if (mismatch : bool) then
    strapi_log lvl_warn (InvalidSignature springDocumentId);; mret false
  else
  geoFence body springDocumentId
  end.

(** The request passes every check before the geo-fence, for the spring
    [springDocumentId], in the world [w]. *)
Definition reaches_geofence (req : Request) (w : World) (springDocumentId : string)
  : Prop :=
  exists signature timestampHeader timestamp hmacSecret,
    header req !! "x-app-signature" = Some signature /\
    header req !! "x-timestamp" = Some timestampHeader /\
    truthy (Some signature) = true /\
    truthy (Some timestampHeader) = true /\
    parseInt10 timestampHeader = Some timestamp /\
    isTimestampValid (now w) timestamp = true /\
    body_data req ≫= spring = Some springDocumentId /\
    truthy (Some springDocumentId) = true /\
    HMAC_SECRET w = Some hmacSecret /\
    truthy (Some hmacSecret) = true /\
    signatureMismatch signature
      (generateExpectedSignature timestampHeader springDocumentId hmacSecret)
    = Ok false.

End WithRuntime.
End Policy.

(* ===================================================================== *)
(** * src/api/report/content-types/report/lifecycles.ts                    *)
(* ===================================================================== *)

Module Lifecycle.
Import JS Store.
Section WithRuntime.
Context {RT : Runtime}.

(** [event.result.spring]: [{ count }] or [{ id, documentId }]. *)
Inductive ResultSpring :=
| SpringCount (count : Z)
| SpringRef (id : Z) (documentId : string).

Record Result := mkResult {
  id : Z;
  documentId : string;
  is_flowing : bool;
  reported_at : string;
  spring : option ResultSpring;
}.

(** An entry of a [connect] or [set] array. *)
Record RelationItem := mkItem {
  item_documentId : option string;
  item_id : option Z;
}.

(** [params.data.spring] read as
    [{ documentId?, connect?, set? }].  A value that is no object (the
    request of the mobile client carries the spring as a plain string) has
    none of the three keys. *)
Record SpringData := mkSpringData {
  sd_documentId : option string;
  connect : option (list RelationItem);
  set : option (list RelationItem);
}.

(** [ReportAfterCreateEvent]; [params_data_spring] is [params.data?.spring]
    when it is truthy. *)
Record ReportAfterCreateEvent := mkEvent {
  result : Result;
  params_data_spring : option SpringData;
}.

(** [items?.[0]?.documentId] *)
Definition first_documentId (items : option (list RelationItem)) : option string :=
  match items with
  | Some (item :: _) => item_documentId item
  | _ => None
  end.

(** Lines 59-84: what the event itself says about the spring. *)
Definition springFromEvent (event : ReportAfterCreateEvent) : option string :=
  let springDocumentId :=
    match spring (result event) with
    | Some (SpringRef _ documentId) => Some documentId
    | _ => None
    end in
  if negb (truthy springDocumentId) then
    match params_data_spring event with
    | Some springData =>
        if truthy (sd_documentId springData) then sd_documentId springData
        else if truthy (first_documentId (connect springData))
        then first_documentId (connect springData)
        else if truthy (first_documentId (set springData))
        then first_documentId (set springData)
        else springDocumentId
    | None => springDocumentId
    end
  else springDocumentId.

(** Lines 59-96: the event, then as a last resort the stored report. *)
Definition resolveSpring (event : ReportAfterCreateEvent) : M (option string) :=
  let springDocumentId := springFromEvent event in
  if negb (truthy springDocumentId) then
    fullReport_spring ← documents_report_findOne (documentId (result event));
    if truthy fullReport_spring then mret fullReport_spring
    else mret springDocumentId
  else mret springDocumentId.

(** [a <= b] on two [Date]s: on their time values, and false when either
    is an Invalid Date (NaN). *)
Definition date_le (a b : option Z) : bool :=
  match a, b with
  | Some x, Some y => (x <=? y)%Z
  | _, _ => false
  end.

(** Lines 147-152: [statusUpdatedAtDate && reportedAtDate <= statusUpdatedAtDate]
    with [statusUpdatedAtDate = ref ? new Date(ref) : null]. *)
Definition notNewer (reported_at : string) (reference : option string) : bool :=
  if truthy reference
  then date_le (Date_parse reported_at) (Date_parse (default EmptyString reference))
  else false.

Definition newStatus (is_flowing : bool) : SpringStatus :=
  if is_flowing then Store.is_flowing else Store.is_not_flowing.

(** The body of the [try] block (lines 109-221). *)
Definition propagate (reportDocId springDocumentId : string)
  (is_flowing : bool) (reported_at : string) : M unit :=
  strapi_log lvl_info (Propagating reportDocId springDocumentId);;
  springDraft ← documents_spring_findOne springDocumentId Draft;
  match springDraft with
  | None =>
      strapi_log lvl_warn (DraftNotFound reportDocId springDocumentId)
  | Some springDraft =>
  springPublished ← documents_spring_findOne springDocumentId Published;
  let referenceDoc := default springDraft springPublished in
  if notNewer reported_at (status_updated_at referenceDoc) then
    strapi_log lvl_info
      (NotNewer reportDocId reported_at (status_updated_at referenceDoc))
  else
  let newStatus := newStatus is_flowing in
  let updateData := mkData newStatus reported_at None in
  match springPublished with
  | None =>
      documents_spring_update springDocumentId updateData;;
      strapi_log lvl_info (UpdatedDraftOnly reportDocId springDocumentId newStatus)
  | Some _ =>
      updatedAt ← gets (fun w => Date_toISOString (now w));
      db_query_spring_update springDocumentId
        (mkData newStatus reported_at (Some updatedAt));;
      strapi_log lvl_info (UpdatedPublished reportDocId springDocumentId newStatus);;
      documents_spring_update springDocumentId updateData;;
      strapi_log lvl_info (UpdatedDraft reportDocId springDocumentId newStatus)
  end
  end.

Definition afterCreate (event : ReportAfterCreateEvent) : M unit :=
  let reportDocId := documentId (result event) in
  springDocumentId ← resolveSpring event;
  if negb (truthy springDocumentId) then
    strapi_log lvl_debug (NoSpringLinked reportDocId)
  else
  let springDocumentId := default EmptyString springDocumentId in
  try_catch
    (propagate reportDocId springDocumentId
       (is_flowing (result event)) (reported_at (result event)))
    (fun error =>
       strapi_log lvl_error (PropagationFailed reportDocId springDocumentId error)).

End WithRuntime.
End Lifecycle.

(* ===================================================================== *)
(** * A reference run time, to execute the model on concrete inputs        *)
(* ===================================================================== *)

(** The theorems below hold for every [Runtime].  This instance makes the
    model executable: ISO 8601 UTC date-times as [toISOString] prints them
    (with or without milliseconds), and series approximations of the
    transcendental functions on the argument ranges the haversine formula
    uses. *)
Module RefRuntime.
Import JS.
Local Open Scope Z_scope.

(** Days since 1970-01-01 of a proleptic Gregorian date. *)
Definition days_from_civil (y m d : Z) : Z :=
  let y' := if m <=? 2 then y - 1 else y in
  let era := y' / 400 in
  let yoe := y' - era * 400 in
  let doy := (153 * (if 2 <? m then m - 3 else m + 9) + 2) / 5 + d - 1 in
  let doe := yoe * 365 + yoe / 4 - yoe / 100 + doy in
  era * 146097 + doe - 719468.

(** The date [(year, month, day)] of a day number. *)
Definition civil_from_days (z : Z) : Z * Z * Z :=
  let z := z + 719468 in
  let era := z / 146097 in
  let doe := z - era * 146097 in
  let yoe := (doe - doe / 1460 + doe / 36524 - doe / 146096) / 365 in
  let doy := doe - (365 * yoe + yoe / 4 - yoe / 100) in
  let mp := (5 * doy + 2) / 153 in
  let d := doy - (153 * mp + 2) / 5 + 1 in
  let m := if mp <? 10 then mp + 3 else mp - 9 in
  (if m <=? 2 then yoe + era * 400 + 1 else yoe + era * 400, m, d).

(** The number written at [pos], [len] decimal digits long. *)
Definition field (s : string) (pos len : nat) : option Z :=
  let t := substring pos len s in
  if (String.length t =? len)%nat && all_digits t
  then digits_prefix None (utf8_bytes t) else None.

Definition sep (s : string) (pos : nat) (c : string) : bool :=
  String.eqb (substring pos 1 s) c.

Definition in_range (lo hi : Z) (x : option Z) : bool :=
  match x with
  | Some v => (lo <=? v) && (v <=? hi)
  | None => false
  end.

Definition iso_parse (s : string) : option Z :=
  let n := String.length s in
  let ms := if (n =? 24)%nat then field s 20 3 else Some 0 in
  if ((n =? 20)%nat && sep s 19 "Z" || (n =? 24)%nat && sep s 19 "." && sep s 23 "Z")
     && sep s 4 "-" && sep s 7 "-" && sep s 10 "T" && sep s 13 ":" && sep s 16 ":"
     && in_range 0 9999 (field s 0 4) && in_range 1 12 (field s 5 2)
     && in_range 1 31 (field s 8 2) && in_range 0 23 (field s 11 2)
     && in_range 0 59 (field s 14 2) && in_range 0 59 (field s 17 2)
     && in_range 0 999 ms
  then
    y ← field s 0 4; m ← field s 5 2; d ← field s 8 2;
    hh ← field s 11 2; mm ← field s 14 2; ss ← field s 17 2; ms ← ms;
    Some ((((days_from_civil y m d * 24 + hh) * 60 + mm) * 60 + ss) * 1000 + ms)
  else None.

(** [x] in decimal, [width] digits, zero-padded. *)
Fixpoint decimal (width : nat) (x : Z) : string :=
  match width with
  | O => EmptyString
  | S w => (decimal w (x / 10) ++ String (ascii_of_N (Z.to_N (48 + x mod 10))) EmptyString)%string
  end.

Definition iso_print (t : Z) : string :=
  let '(y, m, d) := civil_from_days (t / 86400000) in
  let r := t mod 86400000 in
  (decimal 4 y ++ "-" ++ decimal 2 m ++ "-" ++ decimal 2 d ++ "T"
   ++ decimal 2 (r / 3600000) ++ ":" ++ decimal 2 (r / 60000 mod 60) ++ ":"
   ++ decimal 2 (r / 1000 mod 60) ++ "." ++ decimal 3 (r mod 1000) ++ "Z")%string.

Local Open Scope float_scope.

(** [n] further terms of an alternating power series: [term] is the last
    term added, [k] its degree, [x2] the square of the argument. *)
Fixpoint trig_series (n : nat) (k term x2 acc : float) : float :=
  match n with
  | O => acc
  | S n' =>
      let term' := - term * x2 / ((k + 1) * (k + 2)) in
      trig_series n' (k + 2) term' x2 (acc + term')
  end.

Definition sin (x : float) : float := trig_series 12 1 x (x * x) x.
Definition cos (x : float) : float := trig_series 12 0 1 (x * x) 1.

Fixpoint atan_series (n : nat) (k power x2 acc : float) : float :=
  match n with
  | O => acc
  | S n' =>
      let power' := - power * x2 in
      atan_series n' (k + 2) power' x2 (acc + power' / (k + 2))
  end.

(** The arc tangent, by three angle halvings and the series at the origin. *)
Definition atan (z : float) : float :=
  let half (z : float) := z / (1 + PrimFloat.sqrt (1 + z * z)) in
  let z' := half (half (half z)) in
  8 * atan_series 16 1 z' (z' * z') z'.

Definition pi : float := 3.141592653589793.

Definition atan2 (y x : float) : float :=
  if PrimFloat.ltb 0 x then atan (y / x)
  else if PrimFloat.ltb x 0 then
    (if PrimFloat.ltb y 0 then atan (y / x) - pi else atan (y / x) + pi)
  else if PrimFloat.ltb 0 y then pi / 2
  else if PrimFloat.ltb y 0 then - (pi / 2)
  else 0.

#[export] Instance runtime : Runtime := {|
  Date_parse := iso_parse;
  Date_parse_empty := eq_refl;
  Date_toISOString := iso_print;
  Math_sin := sin;
  Math_cos := cos;
  Math_atan2 := atan2;
|}.

End RefRuntime.


(* ===================================================================== *)
(** * Vocabulary of the statements, and concrete inputs                    *)
(* ===================================================================== *)

Module Spec.
Import JS Store.

(** The request with its coordinates taken out of the body. *)
Definition without_coordinates (req : Policy.Request) : Policy.Request :=
  Policy.mkRequest (Policy.header req)
    ((fun b => Policy.mkReportData (Policy.spring b) None None) <$> Policy.body_data req).

(** The status a representation of a spring shows. *)
Definition status_in (w : World) (sid : string) (st : Status) : option SpringStatus :=
  current_status <$> (springs w !! sid ≫= row_of st).

(** The store never fails: no failure is scheduled. *)
Definition reliable (w : World) : Prop := Forall (fun b => b = false) (faults w).

Definition is_write (op : StoreOp) : bool :=
  match op with
  | UpdateSpring _ _ _ => true
  | _ => false
  end.

(** The store calls made between [w] and [w'], and the writes among them. *)
Definition calls_since (w w' : World) : list StoreOp :=
  drop (length (trace w)) (trace w').
Definition writes_since (w w' : World) : list StoreOp :=
  List.filter is_write (calls_since w w').

(** The comparison reference: the published representation's
    [status_updated_at] when there is a published representation, the
    draft's otherwise. *)
Definition comparison_reference (d : SpringDoc) : option string :=
  match published d with
  | Some p => status_updated_at p
  | None => status_updated_at (draft d)
  end.

Section WithRuntime.
Context {RT : Runtime}.

(** A reference is well formed when it is [null] or a date the engine reads. *)
Definition valid_reference (reference : option string) : Prop :=
  match reference with
  | Some s => is_Some (Date_parse s)
  | None => True
  end.

(** The report of [event] is linked to the spring [springDocumentId]: the
    resolution of lines 59-96 finds that identifier. *)
Definition linked (event : Lifecycle.ReportAfterCreateEvent) (w : World)
  (springDocumentId : string) : Prop :=
  (Lifecycle.resolveSpring event w).1 = Ok (Some springDocumentId)
  /\ truthy (Some springDocumentId) = true.

(** What the resolution of lines 59-96 finds when the store answers: the
    spring named by the event, or else the one of the stored report. *)
Definition resolution (event : Lifecycle.ReportAfterCreateEvent)
  (reports : gmap string (option string)) : option string :=
  let fromEvent := Lifecycle.springFromEvent event in
  let stored := mjoin (reports !! Lifecycle.documentId (Lifecycle.result event)) in
  if truthy fromEvent then fromEvent
  else if truthy stored then stored else fromEvent.

(** The document after both representations took the report's status: the
    published copy also takes the time of the write as [updatedAt]. *)
Definition propagated (d : SpringDoc) (is_flowing : bool) (reported_at : string)
  (now : Z) : SpringDoc :=
  let st := Lifecycle.newStatus is_flowing in
  mkDoc (apply_update (mkData st reported_at None) (draft d))
        (apply_update (mkData st reported_at (Some (Date_toISOString now)))
           <$> published d).

(** The writes of an applied propagation, in order. *)
Definition propagation_writes (sid : string) (d : SpringDoc) (is_flowing : bool)
  (reported_at : string) (now : Z) : list StoreOp :=
  let st := Lifecycle.newStatus is_flowing in
  match published d with
  | None => [UpdateSpring Draft sid (mkData st reported_at None)]
  | Some _ =>
      [UpdateSpring Published sid
         (mkData st reported_at (Some (Date_toISOString now)));
       UpdateSpring Draft sid (mkData st reported_at None)]
  end.

End WithRuntime.
End Spec.

Module Examples.
Import JS Store.

Definition secret : string := "s3cr3t-32-chars-minimum-xxxxxxx".
Definition springId : string := "abc123xyz456".
Definition draftOnlyId : string := "g39qdkl2c0ptrpl081d8kcvd".

(** The one-character string holding the code point 0. *)
Definition NUL : string := String (ascii_of_nat 0) EmptyString.

(** U+00A0, the no-break space. *)
Definition NBSP : string :=
  String (ascii_of_nat 194) (String (ascii_of_nat 160) EmptyString).

(** The one-unit strings holding the unpaired surrogates U+D800 and U+D801
    (the JSON texts "\ud800" and "\ud801"). *)
Definition U_D800 : string :=
  String (ascii_of_nat 237) (String (ascii_of_nat 160) (String (ascii_of_nat 128) EmptyString)).
Definition U_D801 : string :=
  String (ascii_of_nat 237) (String (ascii_of_nat 160) (String (ascii_of_nat 129) EmptyString)).

Definition publishedRow : SpringRow :=
  mkRow 50.0875 14.4213 unknown None "2024-01-01T00:00:00.000Z"
        {[ "name" := "Studanka U Buku" ]}.

(** A draft with an edit that was never published. *)
Definition draftRow : SpringRow :=
  mkRow 50.0875 14.4213 unknown None "2024-01-02T00:00:00.000Z"
        {[ "name" := "Studanka U Buku (renamed)" ]}.

(** A store with one published spring and one that is only a draft, at
    100 seconds after the epoch second 1736622000. *)
Definition world : World :=
  mkWorld {[ springId := mkDoc draftRow (Some publishedRow);
             draftOnlyId := mkDoc draftRow None ]}
          ∅ (Some secret) 1736622100000 [] [] [].

Definition request (timestamp signature spring : string)
  (coordinates : option (float * float)) : Policy.Request :=
  Policy.mkRequest
    {[ "x-timestamp" := timestamp; "x-app-signature" := signature ]}
    (Some (Policy.mkReportData (Some spring) (fst <$> coordinates) (snd <$> coordinates))).

(** The signatures a client holding [secret] computes: for [springId] at
    "1736622000", for [draftOnlyId] at "1736622000", and for [springId] at
    the header value "1736622000abc". *)
Definition signature : string :=
  "63cbde8649a05c9e30d39ca6204ff56fa747ea292a7af2d406daccb3f127004d".
Definition signature_draftOnly : string :=
  "9aeb6eeb5f12d53183930a5a28ef68bd4a3834962b0af1a73d796f2b9cb37c57".
Definition signature_lenient : string :=
  "77683ed5efda0c9c4b3474a8c1ad6606948b7501a9a598049fea23607481b537".

(** The [afterCreate] event of a report created by the mobile client: the
    relation is not populated in [result], and [params.data.spring] is the
    plain identifier string (no object). *)
Definition event (reportDocId : string) (is_flowing : bool) (reported_at : string)
  : Lifecycle.ReportAfterCreateEvent :=
  Lifecycle.mkEvent
    (Lifecycle.mkResult 1 reportDocId is_flowing reported_at None)
    (Some (Lifecycle.mkSpringData None None None)).

(** The same event with the relation populated in [result]. *)
Definition event_populated (reportDocId springDocumentId : string)
  (is_flowing : bool) (reported_at : string) : Lifecycle.ReportAfterCreateEvent :=
  Lifecycle.mkEvent
    (Lifecycle.mkResult 1 reportDocId is_flowing reported_at
       (Some (Lifecycle.SpringRef 7 springDocumentId)))
    None.

(** [world] with a stored report "r1" on the published spring, and one
    "r2" on the spring that is only a draft. *)
Definition world_with_reports : World :=
  mkWorld (springs world)
          {[ "r1" := Some springId; "r2" := Some draftOnlyId ]}
          (HMAC_SECRET world) (now world) [] [] [].

(** A spring whose status was last set by a measurement taken on
    2024-01-16 at 08:00 UTC, with the report "r1" linked to it. *)
Definition reportedRow : SpringRow :=
  mkRow 50.0875 14.4213 is_flowing (Some "2024-01-16T08:00:00Z")
        "2024-01-16T08:00:05.000Z" {[ "name" := "Studanka U Buku" ]}.

Definition world_reported : World :=
  mkWorld {[ springId := mkDoc reportedRow (Some reportedRow) ]}
          {[ "r1" := Some springId ]}
          (Some secret) 1736622100000 [] [] [].

End Examples.

(* ===================================================================== *)
(** * src/api/spring/content-types/spring/lifecycles.ts                    *)
(* ===================================================================== *)

(** The hook that makes the QR code of a new spring.  The services it calls
    are modelled by what the hook can see of them: [QRCode.toBuffer] gives
    the PNG bytes of a text or throws, [fs] is a map from paths to
    contents, the upload service records what it is given or throws.  Each
    service has its own schedule of failures (the next entry says whether
    the next call throws; an exhausted schedule means no failure). *)
Module SpringLifecycle.
Import JS.

Inductive Failure := QrError | FsError | UploadError.

Inductive Res (A : Type) := Ok (a : A) | Throw (e : Failure).
Arguments Ok {A} a.
Arguments Throw {A} e.

(** The argument of [upload]: [data] and [files]. *)
Record UploadArgs := mkUpload {
  refId : Z;
  ref : string;
  field : string;
  filepath : string;
  originalFilename : string;
  mimetype : string;
  size : nat;
}.

Inductive Message :=
| QrAlreadyExists (documentId : string)
| Generating (documentId : string)
| Uploaded (documentId : string) (fileId : option Z)
| QrFailed (documentId : string) (error : Failure).

(** [files] is the file system; [media] the uploads accepted so far, each
    with the content the service found at [filepath]; [tmpdir] is
    [os.tmpdir()]; [tempFilePath] is the hook's mutable local of that
    name. *)
Record State := mkState {
  files : gmap string (list Z);
  media : list (UploadArgs * option (list Z));
  tmpdir : string;
  qr_faults : list bool;
  write_faults : list bool;
  upload_faults : list bool;
  unlink_faults : list bool;
  log : list (Store.Level * Message);
  tempFilePath : option string;
}.

Definition M (A : Type) : Type := State -> Res A * State.

#[export] Instance M_ret : MRet M := fun A a w => (Ok a, w).
#[export] Instance M_bind : MBind M := fun A B f m w =>
  match m w with
  | (Ok a, w') => f a w'
  | (Throw e, w') => (Throw e, w')
  end.

Definition gets {A} (f : State -> A) : M A := fun w => (Ok (f w), w).
Definition modify (f : State -> State) : M unit := fun w => (Ok (), f w).

(** [try { body } catch (error) { handler } finally { finalizer }]: the
    finalizer runs last on every path; an exception of the handler or of
    the finalizer goes out. *)
Definition try_catch_finally (body : M unit) (handler : Failure -> M unit)
  (finalizer : M unit) : M unit := fun w =>
  let (r, w1) :=
    match body w with
    | (Ok a, w') => (Ok a, w')
    | (Throw e, w') => handler e w'
    end in
  match finalizer w1 with
  | (Ok _, w2) => (r, w2)
  | (Throw e, w2) => (Throw e, w2)
  end.

(** [try { body } catch { }] *)
Definition try_ignore (body : M unit) : M unit := fun w =>
  match body w with
  | (Ok a, w') => (Ok a, w')
  | (Throw _, w') => (Ok (), w')
  end.

Definition strapi_log (l : Store.Level) (m : Message) : M unit :=
  modify (fun w =>
    mkState (files w) (media w) (tmpdir w) (qr_faults w) (write_faults w)
      (upload_faults w) (unlink_faults w) (log w ++ [(l, m)]) (tempFilePath w)).

Definition set_tempFilePath (v : option string) : M unit :=
  modify (fun w =>
    mkState (files w) (media w) (tmpdir w) (qr_faults w) (write_faults w)
      (upload_faults w) (unlink_faults w) (log w) v).

Section WithEncoder.
(** The PNG image [QRCode.toBuffer] makes of a text. *)
Variable qr_png : string -> list Z.

(** [path.join(dir, name)]: the normalised path Node makes of the two
    segments on the platform it runs on. *)
Variable path_join : string -> string -> string.

(** [QRCode.toBuffer(text, options)] *)
Definition QRCode_toBuffer (text : string) : M (list Z) := fun w =>
  let w' := mkState (files w) (media w) (tmpdir w) (tl (qr_faults w)) (write_faults w)
              (upload_faults w) (unlink_faults w) (log w) (tempFilePath w) in
  if hd false (qr_faults w) then (Throw QrError, w') else (Ok (qr_png text), w').

(** [fs.writeFileSync(path, data)] *)
Definition fs_writeFileSync (path : string) (data : list Z) : M unit := fun w =>
  if hd false (write_faults w)
  then (Throw FsError,
        mkState (files w) (media w) (tmpdir w) (qr_faults w) (tl (write_faults w))
          (upload_faults w) (unlink_faults w) (log w) (tempFilePath w))
  else (Ok (),
        mkState (<[path := data]> (files w)) (media w) (tmpdir w) (qr_faults w)
          (tl (write_faults w)) (upload_faults w) (unlink_faults w) (log w)
          (tempFilePath w)).

(** [fs.existsSync(path)] *)
Definition fs_existsSync (path : string) : M bool :=
  gets (fun w => bool_decide (is_Some (files w !! path))).

(** [fs.unlinkSync(path)] *)
Definition fs_unlinkSync (path : string) : M unit := fun w =>
  if hd false (unlink_faults w)
  then (Throw FsError,
        mkState (files w) (media w) (tmpdir w) (qr_faults w) (write_faults w)
          (upload_faults w) (tl (unlink_faults w)) (log w) (tempFilePath w))
  else (Ok (),
        mkState (delete path (files w)) (media w) (tmpdir w) (qr_faults w)
          (write_faults w) (upload_faults w) (tl (unlink_faults w)) (log w)
          (tempFilePath w)).

(** [strapi.plugin("upload").service("upload").upload({data, files})]: the
    identifiers of the files it stored.  The service reads the file at
    [filepath] as it is when called. *)
Definition upload (u : UploadArgs) : M (list Z) := fun w =>
  if hd false (upload_faults w)
  then (Throw UploadError,
        mkState (files w) (media w) (tmpdir w) (qr_faults w) (write_faults w)
          (tl (upload_faults w)) (unlink_faults w) (log w) (tempFilePath w))
  else (Ok [Z.of_nat (length (media w))],
        mkState (files w) (media w ++ [(u, files w !! filepath u)])
          (tmpdir w) (qr_faults w) (write_faults w)
          (tl (upload_faults w)) (unlink_faults w) (log w) (tempFilePath w)).

(** [event.result]; [qr_code] is the truthiness of the field. *)
Record Result := mkResult {
  id : Z;
  documentId : string;
  qr_code : bool;
}.

(** [`spring-qr-${documentId}.png`] *)
Definition fileName (documentId : string) : string :=
  "spring-qr-" +:+ documentId +:+ ".png".

Definition afterCreate (result : Result) : M unit :=
  let documentId := documentId result in
  if qr_code result then
    strapi_log Store.lvl_debug (QrAlreadyExists documentId)
  else
    set_tempFilePath None;;
    try_catch_finally
      (strapi_log Store.lvl_info (Generating documentId);;
       qrBuffer ← QRCode_toBuffer documentId;
       tempDir ← gets tmpdir;
       let fileName := fileName documentId in
       set_tempFilePath (Some (path_join tempDir fileName));;
       let tempFilePath := path_join tempDir fileName in
       fs_writeFileSync tempFilePath qrBuffer;;
       let fileData :=
         mkUpload (id result) "api::spring.spring" "qr_code"
                  tempFilePath fileName "image/png" (length qrBuffer) in
       uploadedFiles ← upload fileData;
       strapi_log Store.lvl_info
         (Uploaded documentId (head uploadedFiles)))
      (fun error => strapi_log Store.lvl_error (QrFailed documentId error))
      (tempFilePath ← gets tempFilePath;
       found ← (if truthy tempFilePath
                then fs_existsSync (default EmptyString tempFilePath)
                else mret false);
       if (found : bool)
       then try_ignore (fs_unlinkSync (default EmptyString tempFilePath))
       else mret ()).

(** The path of the temporary file of a spring. *)
Definition temp_path (w : State) (documentId : string) : string :=
  path_join (tmpdir w) (fileName documentId).

End WithEncoder.

End SpringLifecycle.

(* ===================================================================== *)
(** * src/index.ts: the Document Service middleware                        *)
(* ===================================================================== *)

(** Every Document Service call on a spring (those of the policy and of the
    report hook included) goes through this middleware before it reaches
    the store. *)
Module Register.

Definition SPRING_UID : string := "api::spring.spring".
Definition SUPER_ADMIN_ROLE_CODE : string := "strapi-super-admin".

Record AdminRole := mkRole {
  role_id : Z;
  name : string;
  code : string;
}.

(** [roles] is read with [?.]: [None] is a user object without the key. *)
Record AdminUser := mkUser {
  id : Z;
  roles : option (list AdminRole);
}.

(** A value of the [filters] object: the condition the middleware writes,
    [{ id: { $eq: userId } }], or any other value. *)
Inductive FilterValue :=
| IdEq (userId : Z)
| Other (value : string).

(** The middleware's [context]: the content type, the action, and
    [params.filters] ([None] when the key is absent). *)
Record Context := mkContext {
  uid : string;
  action : string;
  filters : option (gmap string FilterValue);
}.

Definition restrictedActions : list string :=
  ["findMany"; "findOne"; "update"; "delete"].

(** [array.includes(x)] *)
Definition includes (l : list string) (x : string) : bool :=
  existsb (String.eqb x) l.

(** [user.roles?.some((role) => role.code === SUPER_ADMIN_ROLE_CODE)];
    [undefined] (no [roles]) is falsy. *)
Definition isSuperAdmin (user : AdminUser) : bool :=
  match roles user with
  | Some rs => existsb (fun role => String.eqb (code role) SUPER_ADMIN_ROLE_CODE) rs
  | None => false
  end.

(** The middleware, with [user] what [strapi.requestContext.get()] gives
    for [ctx?.state?.user] and [next] the rest of the chain, which sees
    the context as the middleware leaves it.  The result is the debug log
    entries written (the user and the action) and what [next] returns. *)
Definition middleware {A} (user : option AdminUser) (context : Context)
  (next : Context -> A) : list (Z * string) * A :=
  if negb (String.eqb (uid context) SPRING_UID) then ([], next context)
  else if negb (includes restrictedActions (action context)) then ([], next context)
  else match user with
  | None => ([], next context)
  | Some user =>
      if isSuperAdmin user then ([], next context)
      else
        let filters' := <["managers" := IdEq (id user)]> (default ∅ (filters context)) in
        ([(id user, action context)],
         next (mkContext (uid context) (action context) (Some filters')))
  end.

(** The call is one the middleware restricts for this user. *)
Definition restricts (user : AdminUser) (context : Context) : Prop :=
  uid context = SPRING_UID
  /\ In (action context) restrictedActions
  /\ isSuperAdmin user = false.

End Register.

(** The reference run time with an arc tangent that, like [Math.atan2],
    answers NaN when an argument is NaN. *)
Module NanRuntime.

Definition atan2 (y x : float) : float :=
  if PrimFloat.is_nan y || PrimFloat.is_nan x then PrimFloat.nan
  else RefRuntime.atan2 y x.

Definition runtime : Runtime := {|
  Date_parse := RefRuntime.iso_parse;
  Date_parse_empty := eq_refl;
  Date_toISOString := RefRuntime.iso_print;
  Math_sin := RefRuntime.sin;
  Math_cos := RefRuntime.cos;
  Math_atan2 := atan2;
|}.

End NanRuntime.

(** The run time of [NanRuntime], with the sine and the cosine answering at
    the arguments [pi/2] and [-0.874191790837989] as an IEEE-754 [libm]
    does (the series above are one unit in the last place off there). *)
Module LibmRuntime.
Local Open Scope float_scope.

Definition sin (x : float) : float :=
  if PrimFloat.eqb x 1.5707963267948966 then 1 else RefRuntime.sin x.

Definition cos (x : float) : float :=
  if PrimFloat.eqb x (-0.874191790837989) then 0.6416169844363209
  else RefRuntime.cos x.

Definition runtime : Runtime := {|
  Date_parse := RefRuntime.iso_parse;
  Date_parse_empty := eq_refl;
  Date_toISOString := RefRuntime.iso_print;
  Math_sin := sin;
  Math_cos := cos;
  Math_atan2 := NanRuntime.atan2;
|}.

End LibmRuntime.

Module MoreExamples.
Import JS Store.

(** [Examples.world] with [HMAC_SECRET] unset. *)
Definition world_no_secret : World :=
  mkWorld (springs Examples.world) ∅ None 1736622100000 [] [] [].

(** A store in which the report "r3" points at a spring that is not
    there. *)
Definition world_dangling : World :=
  mkWorld (springs Examples.world) {[ "r3" := Some "gone" ]}
          (Some Examples.secret) 1736622100000 [] [] [].

(** Two reports on the published spring, the second measured a day before
    the first. *)
Definition event_a : Lifecycle.ReportAfterCreateEvent :=
  Examples.event_populated "ra" Examples.springId true "2024-01-15T10:00:00.000Z".
Definition event_b : Lifecycle.ReportAfterCreateEvent :=
  Examples.event_populated "rb" Examples.springId false "2024-01-14T10:00:00.000Z".

(** A stand-in for the QR encoder: the PNG signature followed by the text. *)
Definition fake_png (text : string) : list Z :=
  [137; 80; 78; 71]%Z ++ bytes_of_string text.

(** [path.join] on a directory and a file name that need no normalising,
    on a POSIX platform. *)
Definition join_plain (dir name : string) : string := dir +:+ "/" +:+ name.

(** The string whose code units are those of an ASCII string, each plus
    0x100: the two digits of a pair keep their low bytes. *)
Fixpoint widen (s : string) : string :=
  match s with
  | String c r =>
      let n := (256 + code c)%Z in
      String (ascii_of_N (Z.to_N (192 + n / 64)))
        (String (ascii_of_N (Z.to_N (128 + n mod 64))) (widen r))
  | EmptyString => EmptyString
  end.

(** The signature a client holding [Examples.secret] computes for
    [Examples.springId] at the header value NBSP "1736622000". *)
Definition signature_nbsp : string :=
  "18c210f909d9203c25de7f9534da4e41d11402c494d146d0e641c24dbb57562c".

(** Services in which the upload fails. *)
Definition upload_down : SpringLifecycle.State :=
  SpringLifecycle.mkState ∅ [] "/tmp" [] [] [true] [] [] None.

(** Services that all answer. *)
Definition services_up : SpringLifecycle.State :=
  SpringLifecycle.mkState ∅ [] "/tmp" [] [] [] [] [] None.

(** An editor who is no super admin, and a call of [findMany] on springs
    that asks for the springs of manager 1. *)
Definition editor : Register.AdminUser :=
  Register.mkUser 42 (Some [Register.mkRole 2 "Editor" "strapi-editor"]).

Definition findMany_of_manager_1 : Register.Context :=
  Register.mkContext "api::spring.spring" "findMany"
    (Some {[ "managers" := Register.IdEq 1; "locale" := Register.Other "cs" ]}).

End MoreExamples.

(** Further vocabulary, for the behaviour of the propagator when store
    calls fail and when reports arrive in different orders. *)
Module Cover.
Import JS Store.
Section WithRuntime.
Context {RT : Runtime}.

(** The document after the published write alone: the state in which a
    failure of the draft write leaves it. *)
Definition published_only (d : SpringDoc) (is_flowing : bool) (reported_at : string)
  (now : Z) : SpringDoc :=
  mkDoc (draft d)
        (apply_update
           (mkData (Lifecycle.newStatus is_flowing) reported_at
                   (Some (Date_toISOString now)))
           <$> published d).

(** What a propagation that runs to its end makes of a document. *)
Definition apply_report (d : SpringDoc) (is_flowing : bool) (reported_at : string)
  (now : Z) : SpringDoc :=
  if Lifecycle.notNewer reported_at (Spec.comparison_reference d) then d
  else Spec.propagated d is_flowing reported_at now.

(** The world when the clock shows [t]. *)
Definition with_now (t : Z) (w : World) : World :=
  mkWorld (springs w) (reports w) (HMAC_SECRET w) t (faults w) (trace w) (log w).

(** A document without its [updatedAt] stamps. *)
Definition forget_updatedAt (d : SpringDoc) : SpringDoc :=
  let forget (r : SpringRow) :=
    mkRow (lat r) (lng r) (current_status r) (status_updated_at r) EmptyString
          (fields r) in
  mkDoc (forget (draft d)) (forget <$> published d).

(** Two rows that differ at most in [current_status], [status_updated_at]
    and [updatedAt]. *)
Definition same_row (r r' : SpringRow) : Prop :=
  lat r' = lat r /\ lng r' = lng r /\ fields r' = fields r.

(** Two documents whose drafts differ at most in the two status fields,
    and whose published copies are both absent or differ at most in the
    status fields and [updatedAt]. *)
Definition same_frame (d d' : SpringDoc) : Prop :=
  same_row (draft d) (draft d')
  /\ updatedAt (draft d') = updatedAt (draft d)
  /\ match published d, published d' with
     | Some p, Some p' => same_row p p'
     | None, None => True
     | _, _ => False
     end.

(** The time a document's comparison reference stands at, when it has one
    that the engine reads. *)
Definition reference_time (d : SpringDoc) : option Z :=
  Spec.comparison_reference d ≫= Date_parse.

End WithRuntime.
End Cover.

(** One step of a run: unfold the monad and the effect primitives (and
    nothing of the cryptography or the geometry). *)
Ltac msimpl :=
  unfold mbind, mret, Store.M_bind, Store.M_ret, Store.try_catch, Store.throw,
    Store.strapi_log, Store.Date_now, Store.process_env_HMAC_SECRET,
    Store.gets, Store.modify, Policy.lift_res;
  cbn [negb from_option Datatypes.id fst snd].

(** The same, with the store calls and the projections of the world. *)
Ltac wsimpl :=
  unfold Store.documents_spring_findOne, Store.documents_report_findOne,
    Store.documents_spring_update, Store.db_query_spring_update, Store.store_call;
  msimpl;
  cbn [Store.springs Store.reports Store.HMAC_SECRET Store.now Store.faults
       Store.trace Store.log Store.with_springs Store.with_faults
       Store.with_trace Store.with_log Store.row_of option_bind].

(* ===================================================================== *)
(** * Facts about the platform model                                       *)
(* ===================================================================== *)

Example sha256_constants :
  length Crypto.K256 = 64%nat
  /\ nth 0 Crypto.K256 0%Z = 0x428a2f98%Z /\ nth 63 Crypto.K256 0%Z = 0xc67178f2%Z
  /\ length Crypto.H256 = 8%nat
  /\ nth 0 Crypto.H256 0%Z = 0x6a09e667%Z /\ nth 7 Crypto.H256 0%Z = 0x5be0cd19%Z.
Proof. repeat split. Qed.

Example sha256_abc :
  JS.hex_of_bytes (Crypto.sha256 (JS.bytes_of_string "abc"))
  = "ba7816bf8f01cfea414140de5dae2223b00361a396177a9cb410ff61f20015ad"%string.
Proof. vm_compute. reflexivity. Qed.

Example sha256_two_blocks :
  JS.hex_of_bytes (Crypto.sha256 (JS.bytes_of_string
     "abcdbcdecdefdefgefghfghighijhijkijkljklmklmnlmnomnopnopq"))
  = "248d6a61d20638b8e5c026930c3e6039a33ce45964ff2167f6ecedd419db06c1"%string.
Proof. vm_compute. reflexivity. Qed.

Example hmac_rfc4231_case2 :
  JS.hex_of_bytes (Crypto.hmac_sha256 (JS.bytes_of_string "Jefe")
     (JS.bytes_of_string "what do ya want for nothing?"))
  = "5bdcc146bf60754e6a042426089575c75a003f089d2739839dec58b964ec3843"%string.
Proof. vm_compute. reflexivity. Qed.

Example hmac_rfc4231_case6 :
  JS.hex_of_bytes (Crypto.hmac_sha256 (repeat 0xaa%Z 131)
     (JS.bytes_of_string "Test Using Larger Than Block-Size Key - Hash Key First"))
  = "60e431591ee0b67f0d8a26aacbf5b77f8e0bc6213728c5140546040f0ee37f54"%string.
Proof. vm_compute. reflexivity. Qed.

Section JSFacts.
Import JS.
Local Open Scope Z_scope.

(** A byte below 128 is the code unit it encodes. *)
Lemma utf8_decode_ascii (b : Z) (r : list Z) :
  b < 0x80 -> utf8_decode (b :: r) = b :: utf8_decode r.
Proof. intros Hb. cbn [utf8_decode]. by rewrite (proj2 (Z.ltb_lt _ _) Hb). Qed.

Lemma code_units_ascii (c : ascii) (r : string) :
  code c < 0x80 -> code_units (String c r) = code c :: code_units r.
Proof. intros Hc. unfold code_units, utf8_bytes. cbn [list_ascii_of_string map]. by apply utf8_decode_ascii. Qed.

Lemma is_continuation_ascii (c : Z) : c < 0x80 -> is_continuation c = false.
Proof.
  intros Hc. unfold is_continuation. apply andb_false_iff. left. apply Z.leb_gt. lia.
Qed.

(** One step of the decoder. *)
Lemma utf8_decode_step (b0 : Z) (r0 : list Z) :
  utf8_decode (b0 :: r0) =
  if b0 <? 0x80 then b0 :: utf8_decode r0
  else
    match r0 with
    | [] => [U_FFFD]
    | b1 :: r1 =>
        if (0xC2 <=? b0) && (b0 <=? 0xDF) && is_continuation b1
        then code_point2 b0 b1 :: utf8_decode r1
        else
          match r1 with
          | [] => U_FFFD :: utf8_decode r0
          | b2 :: r2 =>
              if (0xE0 <=? b0) && (b0 <=? 0xEF) && is_continuation b1
                 && is_continuation b2 && (0x800 <=? code_point3 b0 b1 b2)
              then code_point3 b0 b1 b2 :: utf8_decode r2
              else
                match r2 with
                | [] => U_FFFD :: utf8_decode r0
                | b3 :: r3 =>
                    if (0xF0 <=? b0) && (b0 <=? 0xF4) && is_continuation b1
                       && is_continuation b2 && is_continuation b3
                       && (0x10000 <=? code_point4 b0 b1 b2 b3)
                       && (code_point4 b0 b1 b2 b3 <=? 0x10FFFF)
                    then (0xD800 + (code_point4 b0 b1 b2 b3 - 0x10000) / 1024)
                         :: (0xDC00 + (code_point4 b0 b1 b2 b3 - 0x10000) mod 1024)
                         :: utf8_decode r3
                    else U_FFFD :: utf8_decode r0
                end
          end
    end.
Proof. destruct r0 as [| b1 [| b2 [| b3 r3]]]; reflexivity. Qed.

(** No encoding runs across a byte below 128: what stands before it and
    what stands after it are read separately. *)
Lemma utf8_decode_app_ascii (bs : list Z) (c : Z) (r : list Z) :
  c < 0x80 -> utf8_decode (bs ++ c :: r) = utf8_decode bs ++ c :: utf8_decode r.
Proof.
  intros Hc. pose proof (is_continuation_ascii c Hc) as Hcont.
  pose proof (utf8_decode_ascii c r Hc) as Hcr.
  remember (length bs) as n eqn:Hn. revert bs Hn.
  induction n as [n IH] using lt_wf_ind. intros bs Hn.
  assert (Hrec : forall bs', (length bs' < n)%nat ->
            utf8_decode (bs' ++ c :: r) = utf8_decode bs' ++ c :: utf8_decode r)
    by (intros bs' Hlt; by apply (IH (length bs'))).
  clear IH. subst n.
  destruct bs as [| b0 bs]; [exact Hcr |].
  cbn [app]. rewrite !utf8_decode_step.
  destruct (b0 <? 0x80) eqn:E0.
  { cbn [app]. f_equal. apply Hrec. cbn. lia. }
  destruct bs as [| b1 bs]; cbn [app].
  { rewrite Hcont, !andb_false_r.
    destruct r as [| b2 r]; [by rewrite Hcr |].
    rewrite ?andb_false_r. cbn [andb].
    destruct r as [| b3 r]; [by rewrite Hcr |].
    rewrite ?andb_false_r. cbn [andb]. by rewrite Hcr. }
  destruct ((0xC2 <=? b0) && (b0 <=? 0xDF) && is_continuation b1) eqn:E2.
  { cbn [app]. f_equal. apply Hrec. cbn. lia. }
  destruct bs as [| b2 bs]; cbn [app].
  { rewrite Hcont, ?andb_false_r. cbn [andb].
    destruct r as [| b3 r].
    - cbn [app]. f_equal. apply (Hrec [b1]). cbn. lia.
    - rewrite ?andb_false_r. cbn [andb app]. f_equal. apply (Hrec [b1]). cbn. lia. }
  match goal with
  | |- context [if ?b then code_point3 _ _ _ :: _ else _] => destruct b eqn:E3
  end.
  { cbn [app]. f_equal. apply Hrec. cbn. lia. }
  destruct bs as [| b3 bs]; cbn [app].
  { rewrite Hcont, ?andb_false_r. cbn [andb app]. f_equal.
    apply (Hrec [b1; b2]). cbn. lia. }
  match goal with
  | |- context [if ?b then _ :: _ :: _ else _] => destruct b eqn:E4
  end.
  { cbn [app]. do 2 f_equal. apply Hrec. cbn. lia. }
  cbn [app]. f_equal. apply (Hrec (b1 :: b2 :: b3 :: bs)). cbn. lia.
Qed.

Lemma utf8_bytes_app (a b : string) :
  utf8_bytes (a +:+ b) = utf8_bytes a ++ utf8_bytes b.
Proof.
  induction a as [| c a IH]; [reflexivity |].
  change (utf8_bytes (String c (a +:+ b)) = (code c :: utf8_bytes a) ++ utf8_bytes b).
  unfold utf8_bytes in *. cbn [list_ascii_of_string map app]. by rewrite IH.
Qed.

(** Concatenation with an ASCII character in between, as in a template
    literal, is concatenation of the code units. *)
Lemma code_units_app_ascii (a : string) (c : ascii) (b : string) :
  code c < 0x80 ->
  code_units (a +:+ String c b) = code_units a ++ code c :: code_units b.
Proof.
  intros Hc. unfold code_units. rewrite utf8_bytes_app.
  change (utf8_bytes (String c b)) with (code c :: utf8_bytes b).
  by apply utf8_decode_app_ascii.
Qed.

Lemma hex_digit_nat (k : nat) :
  (k < 16)%nat ->
  code (hex_digit (Z.of_nat k)) < 0x80
  /\ hex_val (Z.land (code (hex_digit (Z.of_nat k))) 0xFF) = Some (Z.of_nat k).
Proof. intros Hk. do 16 (destruct k as [| k]; [by split |]). lia. Qed.

Lemma hex_digit_ascii (n : Z) : 0 <= n < 16 -> code (hex_digit n) < 0x80.
Proof.
  intros Hn. rewrite <- (Z2Nat.id n) by lia. apply hex_digit_nat. lia.
Qed.

Lemma hex_val_digit (n : Z) :
  0 <= n < 16 -> hex_val (Z.land (code (hex_digit n)) 0xFF) = Some n.
Proof.
  intros Hn. rewrite <- (Z2Nat.id n) by lia. apply hex_digit_nat. lia.
Qed.

Lemma code_units_hex_of_bytes_cons (b : Z) (bs : list Z) (tail : string) :
  is_byte b ->
  code_units (hex_of_bytes (b :: bs) +:+ tail)
  = code (hex_digit (b / 16)) :: code (hex_digit (b mod 16))
    :: code_units (hex_of_bytes bs +:+ tail).
Proof.
  unfold is_byte. intros Hb.
  change (hex_of_bytes (b :: bs) +:+ tail)
    with (String (hex_digit (b / 16))
            (String (hex_digit (b mod 16)) (hex_of_bytes bs +:+ tail))).
  rewrite !code_units_ascii; [reflexivity | |]; apply hex_digit_ascii.
  - apply Z.mod_pos_bound. lia.
  - split; [apply Z.div_pos; lia | apply Z.div_lt_upper_bound; lia].
Qed.

(** Decoding the hexadecimal text of bytes, whatever follows it. *)
Lemma Buffer_from_hex_app (bs : list Z) (tail : string) :
  Forall is_byte bs ->
  Buffer_from_hex (hex_of_bytes bs +:+ tail) = bs ++ Buffer_from_hex tail.
Proof.
  induction 1 as [| b bs Hb _ IH]; [reflexivity |].
  unfold Buffer_from_hex in *. rewrite code_units_hex_of_bytes_cons by exact Hb.
  unfold is_byte in Hb. cbn [hex_decode].
  rewrite !hex_val_digit.
  - rewrite IH. cbn [app]. f_equal. pose proof (Z.div_mod b 16). lia.
  - apply Z.mod_pos_bound. lia.
  - split; [apply Z.div_pos; lia | apply Z.div_lt_upper_bound; lia].
Qed.

Lemma string_app_empty (s : string) : s +:+ "" = s.
Proof.
  induction s as [| c s IH]; [reflexivity |].
  change (String c (s +:+ "") = String c s). by rewrite IH.
Qed.

Lemma Buffer_from_hex_of_bytes (bs : list Z) :
  Forall is_byte bs -> Buffer_from_hex (hex_of_bytes bs) = bs.
Proof.
  intros Hbs. rewrite <- (string_app_empty (hex_of_bytes bs)).
  rewrite Buffer_from_hex_app by exact Hbs. apply app_nil_r.
Qed.

Lemma be_bytes_are_bytes (n : nat) (x : Z) : Forall is_byte (Crypto.be_bytes n x).
Proof.
  induction n as [| n IH]; constructor; [| exact IH].
  apply Z.mod_pos_bound. lia.
Qed.

Lemma sha256_bytes (msg : list Z) : Forall is_byte (Crypto.sha256 msg).
Proof.
  unfold Crypto.sha256.
  generalize (fold_left Crypto.compress
    (Crypto.blocks (length (Crypto.words_of_bytes (Crypto.pad msg)) / 16)
       (Crypto.words_of_bytes (Crypto.pad msg))) Crypto.H256).
  intros h. induction h as [| x h IH]; [constructor |].
  cbn [flat_map]. apply Forall_app. split; [apply be_bytes_are_bytes | exact IH].
Qed.

Lemma hmac_bytes (key msg : list Z) : Forall is_byte (Crypto.hmac_sha256 key msg).
Proof. apply sha256_bytes. Qed.

Lemma digits_prefix_Some (x : Z) (us : list Z) :
  exists v, digits_prefix (Some x) us = Some v.
Proof.
  revert x. induction us as [| u us IH]; intros x; cbn [digits_prefix].
  - by exists x.
  - destruct (is_digit u); [apply IH | by exists x].
Qed.

Lemma digits_prefix_digit (u : Z) (us : list Z) :
  is_digit u = true -> exists v, digits_prefix None (u :: us) = Some v.
Proof. intros Hu. cbn [digits_prefix]. rewrite Hu. apply digits_prefix_Some. Qed.

Lemma is_digit_bounds (u : Z) : is_digit u = true -> 48 <= u <= 57.
Proof. unfold is_digit. intros [H1 H2]%andb_prop. by apply Z.leb_le in H1, H2. Qed.

Lemma is_digit_not_space (u : Z) : is_digit u = true -> is_space u = false.
Proof.
  intros Hu%is_digit_bounds. unfold is_space.
  repeat (apply orb_false_iff; split); try (apply Z.eqb_neq; lia);
    apply andb_false_iff; first [left; apply Z.leb_gt; lia | right; apply Z.leb_gt; lia].
Qed.

(** Every decimal integer representation is read by [parseInt]. *)
Lemma parseInt10_decimal_integer (s : string) :
  is_decimal_integer s = true -> exists v, parseInt10 s = Some v.
Proof.
  destruct s as [| c r]; [discriminate |]. unfold is_decimal_integer, parseInt10.
  destruct (Ascii.eqb_spec c "-") as [-> | Hminus].
  - destruct r as [| c' r']; [discriminate |].
    cbn [all_digits]. intros [Hc' _]%andb_prop.
    pose proof (is_digit_bounds _ Hc') as Hb.
    rewrite (code_units_ascii "-") by (vm_compute; reflexivity).
    rewrite code_units_ascii by lia.
    change (code "-") with 45. cbn [skip_spaces].
    change (is_space 45) with false. cbn [Z.eqb Pos.eqb].
    destruct (digits_prefix_digit (code c') (code_units r') Hc') as [v ->].
    by exists (- v).
  - cbn [all_digits]. intros [Hc _]%andb_prop.
    pose proof (is_digit_bounds _ Hc) as Hb.
    rewrite code_units_ascii by lia.
    cbn [skip_spaces]. rewrite (is_digit_not_space _ Hc).
    destruct (Z.eqb_spec (code c) 45) as [? | _]; [lia |].
    destruct (Z.eqb_spec (code c) 43) as [? | _]; [lia |].
    by apply digits_prefix_digit.
Qed.

Lemma timingSafeEqual_spec (a b : list Z) :
  Crypto.timingSafeEqual a b =
  if decide (length a = length b) then Some (bool_decide (a = b)) else None.
Proof.
  unfold Crypto.timingSafeEqual.
  destruct (Nat.eqb_spec (length a) (length b)); case_decide; done.
Qed.

End JSFacts.

(* ===================================================================== *)
(** * The report authenticator                                             *)
(* ===================================================================== *)

Section PolicyFacts.
Import JS Store Policy.
Context {RT : Runtime}.
Local Open Scope Z_scope.

(** C4.  The timestamp check accepts exactly the ages from 0 to 300 seconds:
    for every [Date.now()] value and every integer timestamp, with
    [age = floor(now_ms / 1000) - timestamp], the check holds if and only
    if [0 <= age <= 300]; ages 0 and 300 are accepted, ages -1 (a timestamp
    in the future) and 301 are rejected. *)
Theorem isTimestampValid_window (now_ms timestamp : Z) :
  let now := now_ms / 1000 in
  (isTimestampValid now_ms timestamp = true <-> 0 <= now - timestamp <= 300)
  /\ isTimestampValid now_ms now = true
  /\ isTimestampValid now_ms (now - 300) = true
  /\ isTimestampValid now_ms (now + 1) = false
  /\ isTimestampValid now_ms (now - 301) = false.
Proof.
  unfold isTimestampValid, TIMESTAMP_MAX_AGE_SECONDS. cbv zeta.
  split; [| repeat split].
  - rewrite andb_true_iff, !Z.leb_le. lia.
  - apply andb_true_intro. split; apply Z.leb_le; lia.
  - apply andb_true_intro. split; apply Z.leb_le; lia.
  - apply andb_false_iff. left. apply Z.leb_gt. lia.
  - apply andb_false_iff. right. apply Z.leb_gt. lia.
Qed.

Lemma signatureMismatch_digests (d d' : list Z) :
  Forall is_byte d -> Forall is_byte d' ->
  signatureMismatch (hex_of_bytes d') (hex_of_bytes d)
  = Ok (negb (bool_decide (d' = d))).
Proof.
  intros Hd Hd'. unfold signatureMismatch.
  rewrite !Buffer_from_hex_of_bytes by assumption.
  rewrite timingSafeEqual_spec.
  destruct (Nat.eqb_spec (length d') (length d)) as [Hl | Hl]; cbn [negb].
  - rewrite decide_True by assumption. reflexivity.
  - rewrite bool_decide_eq_false_2; [reflexivity | by intros ->].
Qed.

(** The comparison of lines 138-144 never throws: it is a mismatch exactly
    when the decoded buffers differ. *)
Lemma signatureMismatch_total (signature expected : string) :
  signatureMismatch signature expected
  = Ok (negb (bool_decide (Buffer_from_hex signature = Buffer_from_hex expected))).
Proof.
  unfold signatureMismatch. rewrite timingSafeEqual_spec.
  destruct (Nat.eqb_spec (length (Buffer_from_hex signature))
                         (length (Buffer_from_hex expected))) as [Hl | Hl]; cbn [negb].
  - rewrite decide_True by assumption. reflexivity.
  - rewrite bool_decide_eq_false_2; [reflexivity |]. intros Heq. by rewrite Heq in Hl.
Qed.

Lemma expected_signature_decodes (t sid k : string) :
  Buffer_from_hex (generateExpectedSignature t sid k) = digest t sid k.
Proof. apply Buffer_from_hex_of_bytes, hmac_bytes. Qed.

(** The signed payload is, code unit by code unit, the timestamp header, a
    colon and the spring identifier. *)
Lemma payload_code_units (t sid : string) :
  code_units (payload t sid) = code_units t ++ 58 :: code_units sid.
Proof. unfold payload. by apply (code_units_app_ascii t ":" sid). Qed.

(** Once every earlier check has passed, the policy is its geo-fence. *)
Lemma policy_reaches_geofence (req : Request) (w : World) (sid : string) :
  reaches_geofence req w sid ->
  policy req w = geoFence (body_data req) sid w.
Proof.
  intros (sg & th & ts & sec & Hsg & Hth & Tsg & Tth & Hts & Hval & Hsid & Tsid
          & Hsec & Tsec & Hmm).
  unfold policy. rewrite Hsg, Hth, Tsg, Tth. cbn [negb from_option id].
  rewrite Hts, Hsid, Tsid. msimpl.
  rewrite Hval. msimpl. rewrite Hsec, Tsec. msimpl. rewrite Hmm. reflexivity.
Qed.

Lemma reaches_geofence_without_coordinates (req : Request) (w : World) (sid : string) :
  reaches_geofence req w sid ->
  reaches_geofence (Spec.without_coordinates req) w sid.
Proof.
  intros (sg & th & ts & sec & Hsg & Hth & Tsg & Tth & Hts & Hval & Hsid & Tsid
          & Hsec & Tsec & Hmm).
  exists sg, th, ts, sec. repeat split; try assumption.
  unfold Spec.without_coordinates. cbn [body_data].
  destruct (body_data req) as [b |]; [exact Hsid | discriminate Hsid].
Qed.

(** C5 (as amended).  A signature verifies against itself.  The comparison
    never throws: a candidate is accepted exactly when it decodes to the
    HMAC-SHA256 digest, under the UTF-8 bytes of the secret, of the UTF-8
    bytes of "timestamp:spring".  So a signature made from other inputs is
    rejected exactly when their digest differs from the expected one, as it
    does when the timestamp, the spring or the secret of the example
    request is changed.  A candidate whose decoded length differs from the
    expected buffer's is a mismatch, decided before [timingSafeEqual]
    (which would throw on it) is called. *)
Theorem signature_verification :
  (forall t sid k,
      signatureMismatch (generateExpectedSignature t sid k)
                        (generateExpectedSignature t sid k) = Ok false)
  /\ (forall candidate t sid k,
      signatureMismatch candidate (generateExpectedSignature t sid k)
      = Ok (negb (bool_decide
                    (Buffer_from_hex candidate
                     = Crypto.hmac_sha256 (bytes_of_string k)
                         (bytes_of_string (t +:+ ":" +:+ sid))))))
  /\ (forall t sid k t' sid' k',
      signatureMismatch (generateExpectedSignature t' sid' k')
                        (generateExpectedSignature t sid k) = Ok true
      <-> Crypto.hmac_sha256 (bytes_of_string k') (bytes_of_string (t' +:+ ":" +:+ sid'))
          <> Crypto.hmac_sha256 (bytes_of_string k) (bytes_of_string (t +:+ ":" +:+ sid)))
  /\ (generateExpectedSignature "1736622000" "abc123xyz456"
        "s3cr3t-32-chars-minimum-xxxxxxx"
      = "63cbde8649a05c9e30d39ca6204ff56fa747ea292a7af2d406daccb3f127004d"
      /\ signatureMismatch
           (generateExpectedSignature "1736622001" "abc123xyz456"
              "s3cr3t-32-chars-minimum-xxxxxxx")
           (generateExpectedSignature "1736622000" "abc123xyz456"
              "s3cr3t-32-chars-minimum-xxxxxxx") = Ok true
      /\ signatureMismatch
           (generateExpectedSignature "1736622000" "abc123xyz457"
              "s3cr3t-32-chars-minimum-xxxxxxx")
           (generateExpectedSignature "1736622000" "abc123xyz456"
              "s3cr3t-32-chars-minimum-xxxxxxx") = Ok true
      /\ signatureMismatch
           (generateExpectedSignature "1736622000" "abc123xyz456"
              "s3cr3t-32-chars-minimum-xxxxxxxx")
           (generateExpectedSignature "1736622000" "abc123xyz456"
              "s3cr3t-32-chars-minimum-xxxxxxx") = Ok true)
  /\ (forall signature expected,
      length (Buffer_from_hex signature) <> length (Buffer_from_hex expected) ->
      Crypto.timingSafeEqual (Buffer_from_hex signature) (Buffer_from_hex expected) = None
      /\ signatureMismatch signature expected = Ok true).
Proof.
  assert (Hcand : forall candidate t sid k,
      signatureMismatch candidate (generateExpectedSignature t sid k)
      = Ok (negb (bool_decide
                    (Buffer_from_hex candidate
                     = Crypto.hmac_sha256 (bytes_of_string k)
                         (bytes_of_string (t +:+ ":" +:+ sid)))))).
  { intros. rewrite signatureMismatch_total, expected_signature_decodes. reflexivity. }
  split; [| split; [exact Hcand | split; [| split]]].
  - intros t sid k. rewrite Hcand, expected_signature_decodes.
    by rewrite bool_decide_eq_true_2.
  - intros t sid k t' sid' k'. rewrite Hcand, expected_signature_decodes.
    unfold digest, payload. case_bool_decide as Hd; cbn [negb]; split; done.
  - repeat split; vm_compute; reflexivity.
  - intros signature expected Hlen. split.
    + rewrite timingSafeEqual_spec. by rewrite decide_False.
    + unfold signatureMismatch.
      destruct (Nat.eqb_spec (length (Buffer_from_hex signature))
                             (length (Buffer_from_hex expected))); done.
Qed.

(** C5, the claim as stated fails for each of the three inputs.  The hash
    sees the UTF-8 bytes of the strings: two timestamps, or two spring
    identifiers, that differ in an unpaired surrogate have the same bytes
    (each unpaired surrogate is encoded as U+FFFD), and a secret and the
    same secret followed by a NUL character have the same HMAC key block.
    The signature made with one verifies against the other. *)
Lemma changed_input_still_verifies :
  ~ (forall t t' sid k, code_units t <> code_units t' ->
       signatureMismatch (generateExpectedSignature t' sid k)
                         (generateExpectedSignature t sid k) = Ok true)
  /\ ~ (forall t sid sid' k, code_units sid <> code_units sid' ->
       signatureMismatch (generateExpectedSignature t sid' k)
                         (generateExpectedSignature t sid k) = Ok true)
  /\ ~ (forall t sid k k', code_units k <> code_units k' ->
       signatureMismatch (generateExpectedSignature t sid k')
                         (generateExpectedSignature t sid k) = Ok true).
Proof.
  split; [| split]; intros H.
  - specialize (H ("1736622000" +:+ Examples.U_D800) ("1736622000" +:+ Examples.U_D801)
                  Examples.springId Examples.secret).
    assert (Hne : code_units ("1736622000" +:+ Examples.U_D800)
                  <> code_units ("1736622000" +:+ Examples.U_D801))
      by (vm_compute; discriminate).
    specialize (H Hne). vm_compute in H. discriminate H.
  - specialize (H "1736622000" Examples.U_D800 Examples.U_D801 Examples.secret).
    assert (Hne : code_units Examples.U_D800 <> code_units Examples.U_D801)
      by (vm_compute; discriminate).
    specialize (H Hne). vm_compute in H. discriminate H.
  - specialize (H "1736622000" Examples.springId "k" ("k" +:+ Examples.NUL)).
    assert (Hne : code_units "k" <> code_units ("k" +:+ Examples.NUL))
      by (vm_compute; discriminate).
    specialize (H Hne). vm_compute in H. discriminate H.
Qed.

(** C7 (as amended).  A request whose [X-Timestamp] header has no leading
    decimal integer ([parseInt(header, 10)] is [NaN]) is rejected, with no
    store access; such a header is never a decimal integer representation
    (every decimal integer representation passes the format check). *)
Theorem unparseable_timestamp_rejected (req : Request) (w : World) (h : string) :
  header req !! "x-timestamp" = Some h ->
  parseInt10 h = None ->
  (policy req w).1 = Ok false
  /\ trace (policy req w).2 = trace w
  /\ is_decimal_integer h = false.
Proof.
  intros Hh Hnan. split; [| split].
  - unfold policy. rewrite Hh.
    destruct (truthy (header req !! "x-app-signature")); [| reflexivity].
    destruct (truthy (Some h)); [| reflexivity].
    cbn [negb from_option id]. rewrite Hnan. reflexivity.
  - unfold policy. rewrite Hh.
    destruct (truthy (header req !! "x-app-signature")); [| reflexivity].
    destruct (truthy (Some h)); [| reflexivity].
    cbn [negb from_option id]. rewrite Hnan. reflexivity.
  - destruct (is_decimal_integer h) eqn:Hdec; [| reflexivity].
    apply parseInt10_decimal_integer in Hdec as [v Hv]. congruence.
Qed.

(** C7, the claim as stated fails: "1736622000abc" is no decimal integer
    representation, yet [parseInt] reads 1736622000 from it, and the
    request, signed over that header value, is accepted. *)
Lemma lenient_timestamp_accepted :
  ~ (forall (RT : Runtime) (req : Request) (w : World) (h : string),
       header req !! "x-timestamp" = Some h ->
       is_decimal_integer h = false ->
       (policy req w).1 = Ok false).
Proof.
  intros H.
  specialize (H RefRuntime.runtime
                (Examples.request "1736622000abc" Examples.signature_lenient
                                  Examples.springId None)
                Examples.world "1736622000abc" eq_refl eq_refl).
  vm_compute in H. discriminate H.
Qed.

(** The geo-fence on a request that carries both coordinates, when the
    store answers the lookup. *)
Lemma geoFence_with_coordinates (b : ReportData) (sid : string) (w : World)
  (userLat userLng : float) :
  user_lat b = Some userLat -> user_lng b = Some userLng ->
  hd false (faults w) = false ->
  let w1 := with_faults (tl (faults w))
              (with_trace (trace w ++ [FindSpring sid Published]) w) in
  geoFence (Some b) sid w =
  match springs w !! sid ≫= published with
  | None =>
      (Ok false, with_log (log w ++ [(lvl_warn, SpringNotFound sid)]) w1)
  | Some s =>
      let distance := Geo.haversineDistance userLat userLng (lat s) (lng s) in
      if PrimFloat.ltb MAX_DISTANCE_METERS distance
      then (Ok false, with_log (log w ++ [(lvl_warn, TooFar distance)]) w1)
      else (Ok true,
            with_log ((log w ++ [(lvl_debug, GeoValidationPassed distance sid)])
                      ++ [(lvl_info, Authenticated sid)]) w1)
  end.
Proof.
  intros Hlat Hlng Hok. unfold geoFence. cbn [mbind option_bind].
  rewrite Hlat, Hlng.
  unfold documents_spring_findOne, store_call. msimpl. rewrite Hok.
  cbn [row_of springs with_faults with_trace].
  destruct (springs w !! sid) as [d |]; cbn [option_bind row_of]; [| reflexivity].
  destruct (published d) as [s |]; [| reflexivity].
  cbv zeta. destruct (PrimFloat.ltb _ _); reflexivity.
Qed.

(** The geo-fence step as the code computes it.  For a request that has
    passed every check before the geo-fence:
    with both coordinates in the body, the policy fetches the published
    spring (one store lookup), rejects when there is none or when the
    haversine distance from the user to the spring exceeds 500 metres, and
    accepts otherwise; with either coordinate absent, it accepts without
    any store access. *)
Theorem geofence_step (req : Request) (w : World) (sid : string) :
  reaches_geofence req w sid ->
  (forall userLat userLng,
      body_data req ≫= user_lat = Some userLat ->
      body_data req ≫= user_lng = Some userLng ->
      hd false (faults w) = false ->
      trace (policy req w).2 = trace w ++ [FindSpring sid Published]
      /\ (policy req w).1 =
         Ok (match springs w !! sid ≫= published with
             | None => false
             | Some s =>
                 negb (PrimFloat.ltb MAX_DISTANCE_METERS
                         (Geo.haversineDistance userLat userLng (lat s) (lng s)))
             end))
  /\ (body_data req ≫= user_lat = None \/ body_data req ≫= user_lng = None ->
      (policy req w).1 = Ok true /\ trace (policy req w).2 = trace w).
Proof.
  intros Hreach. rewrite (policy_reaches_geofence req w sid Hreach). split.
  - intros userLat userLng Hlat Hlng Hok.
    destruct (body_data req) as [b |]; [| discriminate Hlat].
    cbn [mbind option_bind] in Hlat, Hlng.
    rewrite (geoFence_with_coordinates b sid w userLat userLng Hlat Hlng Hok).
    cbv zeta.
    destruct (springs w !! sid ≫= published) as [s |]; [| done].
    destruct (PrimFloat.ltb _ _); done.
  - intros Hnone. unfold geoFence.
    destruct (body_data req ≫= user_lat) as [la |],
             (body_data req ≫= user_lng) as [lo |];
      try (destruct Hnone; discriminate); done.
Qed.

(** C10.  The geo-fence reads only the published representation: a request
    that has passed the signature and timestamp checks, carries both
    coordinates and names a spring that exists as a draft only, is rejected
    as "spring not found"; the same request without its coordinates is
    accepted. *)
Theorem geofence_reads_published_only
  (req : Request) (w : World) (sid : string) (d : SpringDoc) (userLat userLng : float) :
  reaches_geofence req w sid ->
  body_data req ≫= user_lat = Some userLat ->
  body_data req ≫= user_lng = Some userLng ->
  springs w !! sid = Some d ->
  published d = None ->
  hd false (faults w) = false ->
  (policy req w).1 = Ok false
  /\ log (policy req w).2 = log w ++ [(lvl_warn, SpringNotFound sid)]
  /\ (policy (Spec.without_coordinates req) w).1 = Ok true.
Proof.
  intros Hreach Hlat Hlng Hd Hpub Hok.
  rewrite (policy_reaches_geofence req w sid Hreach).
  rewrite (policy_reaches_geofence _ w sid
             (reaches_geofence_without_coordinates req w sid Hreach)).
  destruct (body_data req) as [b |] eqn:Hb; [| discriminate Hlat].
  cbn [mbind option_bind] in Hlat, Hlng.
  rewrite (geoFence_with_coordinates b sid w userLat userLng Hlat Hlng Hok).
  rewrite Hd. cbn [mbind option_bind]. rewrite Hpub. cbv zeta.
  repeat split.
  unfold Spec.without_coordinates. rewrite Hb. reflexivity.
Qed.

End PolicyFacts.

(* ===================================================================== *)
(** * The status propagator                                                *)
(* ===================================================================== *)

Section LifecycleFacts.
Import JS Store Lifecycle Spec.
Context {RT : Runtime}.

Lemma writes_since_app (w w' : World) (ops : list StoreOp) :
  trace w' = trace w ++ ops -> writes_since w w' = List.filter is_write ops.
Proof.
  intros Ht. unfold writes_since, calls_since. by rewrite Ht, drop_app_length.
Qed.

(** The resolution of the spring: from the event alone, or by one lookup of
    the stored report. *)
Lemma resolveSpring_run (event : ReportAfterCreateEvent) (w : World) :
  resolveSpring event w =
  if truthy (springFromEvent event) then (Ok (springFromEvent event), w)
  else
    let w1 := with_faults (tl (faults w))
                (with_trace (trace w ++ [FindReport (documentId (result event))]) w) in
    if hd false (faults w) then (Throw StoreError, w1)
    else
      let stored := mjoin (reports w !! documentId (result event)) in
      (Ok (if truthy stored then stored else springFromEvent event), w1).
Proof.
  unfold resolveSpring.
  destruct (truthy (springFromEvent event)); [reflexivity |].
  cbn [negb]. unfold documents_report_findOne, store_call. msimpl.
  destruct (hd false (faults w)); [reflexivity |].
  cbn [reports with_faults with_trace].
  destruct (truthy (mjoin _)); reflexivity.
Qed.

Lemma all_false_hd (fl : list bool) :
  Forall (fun b => b = false) fl ->
  hd false fl = false /\ Forall (fun b => b = false) (tl fl).
Proof. destruct 1; done. Qed.

Lemma reliable_hd (w : World) : reliable w -> hd false (faults w) = false.
Proof. unfold reliable. destruct 1; done. Qed.

Lemma reliable_tl (w w' : World) :
  faults w' = tl (faults w) -> reliable w -> reliable w'.
Proof. unfold reliable. intros ->. destruct 1; [constructor | assumption]. Qed.

(** What resolving the spring leaves behind when the store does not fail:
    the same springs, reports and clock, a reliable store, no log entry,
    and no write. *)
Lemma resolveSpring_reliable (event : ReportAfterCreateEvent) (w : World) :
  reliable w ->
  exists r w1 ops,
    resolveSpring event w = (Ok r, w1)
    /\ springs w1 = springs w /\ reports w1 = reports w /\ now w1 = now w
    /\ log w1 = log w /\ reliable w1
    /\ trace w1 = trace w ++ ops /\ List.filter is_write ops = [].
Proof.
  intros Hrel. rewrite resolveSpring_run.
  destruct (truthy (springFromEvent event)).
  - exists (springFromEvent event), w, []. rewrite app_nil_r. done.
  - cbv zeta. rewrite (reliable_hd w Hrel).
    eexists _, _, [FindReport _]. repeat split. by apply (reliable_tl w).
Qed.

Lemma referenceDoc_reference (d : SpringDoc) :
  status_updated_at (default (draft d) (published d)) = comparison_reference d.
Proof. unfold comparison_reference. by destruct (published d). Qed.

Lemma alter_draft_only (sp : gmap string SpringDoc) (sid : string) (d : SpringDoc)
  (flowing : bool) (rep : string) (nw : Z) :
  sp !! sid = Some d -> published d = None ->
  alter (fun d0 => mkDoc (apply_update (mkData (newStatus flowing) rep None) (draft d0))
                         (published d0)) sid sp
  = <[sid := propagated d flowing rep nw]> sp.
Proof.
  intros Hd Hp. apply map_eq. intros k. destruct (decide (k = sid)) as [-> | Hne].
  - rewrite lookup_alter_eq, lookup_insert_eq, Hd. unfold propagated.
    cbn [fmap option_fmap option_map]. by rewrite Hp.
  - by rewrite lookup_alter_ne, lookup_insert_ne.
Qed.

Lemma alter_published_then_draft (sp : gmap string SpringDoc) (sid : string)
  (d : SpringDoc) (flowing : bool) (rep : string) (nw : Z) :
  sp !! sid = Some d ->
  alter (fun d0 => mkDoc (apply_update (mkData (newStatus flowing) rep None) (draft d0))
                         (published d0)) sid
    (alter (fun d0 => mkDoc (draft d0)
                        (apply_update
                           (mkData (newStatus flowing) rep (Some (Date_toISOString nw)))
                           <$> published d0)) sid sp)
  = <[sid := propagated d flowing rep nw]> sp.
Proof.
  intros Hd. apply map_eq. intros k. destruct (decide (k = sid)) as [-> | Hne].
  - by rewrite !lookup_alter_eq, lookup_insert_eq, Hd.
  - by rewrite !lookup_alter_ne, lookup_insert_ne.
Qed.

(** The [try] block when the store does not fail, on an existing spring. *)
Lemma propagate_reliable (rid sid : string) (flowing : bool) (rep : string)
  (w : World) (d : SpringDoc) :
  reliable w ->
  springs w !! sid = Some d ->
  let r := propagate rid sid flowing rep w in
  let lookups := [FindSpring sid Draft; FindSpring sid Published] in
  r.1 = Ok ()
  /\ reports r.2 = reports w /\ now r.2 = now w
  /\ if notNewer rep (comparison_reference d)
     then springs r.2 = springs w
          /\ trace r.2 = trace w ++ lookups
          /\ log r.2 = log w ++ [(lvl_info, Propagating rid sid);
                                 (lvl_info, NotNewer rid rep (comparison_reference d))]
     else springs r.2 = <[sid := propagated d flowing rep (now w)]> (springs w)
          /\ trace r.2 = trace w ++ lookups
                           ++ propagation_writes sid d flowing rep (now w).
Proof.
  intros Hrel Hd. destruct w as [sp rp sec nw fl tr lg].
  unfold reliable in Hrel. cbn [faults springs] in Hrel, Hd.
  destruct (all_false_hd _ Hrel) as [H0 Hrel1].
  destruct (all_false_hd _ Hrel1) as [H1 Hrel2].
  destruct (all_false_hd _ Hrel2) as [H2 Hrel3].
  destruct (all_false_hd _ Hrel3) as [H3 _].
  cbv zeta. unfold propagate. wsimpl. rewrite H0. wsimpl. rewrite Hd. wsimpl.
  rewrite H1. wsimpl. rewrite Hd. wsimpl. rewrite referenceDoc_reference.
  destruct (notNewer rep (comparison_reference d)).
  { wsimpl. rewrite <- !app_assoc. done. }
  unfold propagation_writes. destruct (published d) as [p |] eqn:Hp.
  - wsimpl. rewrite H2. wsimpl. rewrite H3. wsimpl.
    rewrite (alter_published_then_draft sp sid d flowing rep nw Hd).
    rewrite <- !app_assoc. done.
  - wsimpl. rewrite H2. wsimpl.
    rewrite (alter_draft_only sp sid d flowing rep nw Hd Hp).
    rewrite <- !app_assoc. done.
Qed.

(** Once the spring is resolved, [afterCreate] is its guarded [try] block. *)
Lemma afterCreate_resolved (event : ReportAfterCreateEvent) (w w1 : World)
  (sid : string) :
  resolveSpring event w = (Ok (Some sid), w1) ->
  truthy (Some sid) = true ->
  afterCreate event w =
  try_catch
    (propagate (documentId (result event)) sid
       (is_flowing (result event)) (reported_at (result event)))
    (fun error =>
       strapi_log lvl_error (PropagationFailed (documentId (result event)) sid error))
    w1.
Proof.
  intros Hrun Htruthy. unfold afterCreate, mbind, M_bind. rewrite Hrun, Htruthy.
  reflexivity.
Qed.

(** [afterCreate] on a linked, existing spring when the store does not
    fail: it returns, and either skips or applies the report. *)
Lemma afterCreate_reliable (event : ReportAfterCreateEvent) (w : World)
  (sid : string) (d : SpringDoc) :
  reliable w -> linked event w sid -> springs w !! sid = Some d ->
  let r := afterCreate event w in
  let flowing := is_flowing (result event) in
  let rep := reported_at (result event) in
  r.1 = Ok ()
  /\ reports r.2 = reports w /\ now r.2 = now w
  /\ if notNewer rep (comparison_reference d)
     then springs r.2 = springs w /\ writes_since w r.2 = []
          /\ last (log r.2)
             = Some (lvl_info, NotNewer (documentId (result event)) rep
                                        (comparison_reference d))
     else springs r.2 = <[sid := propagated d flowing rep (now w)]> (springs w)
          /\ writes_since w r.2 = propagation_writes sid d flowing rep (now w).
Proof.
  intros Hrel [Hres Htruthy] Hd.
  destruct (resolveSpring_reliable event w Hrel)
    as (r0 & w1 & ops & Hrun & Hsp & Hrp & Hnow & Hlog & Hrel1 & Htr & Hops).
  rewrite Hrun in Hres. cbn [fst] in Hres. injection Hres as ->.
  cbv zeta. rewrite (afterCreate_resolved event w w1 sid Hrun Htruthy).
  unfold try_catch. rewrite <- Hsp in Hd.
  pose proof (propagate_reliable (documentId (result event)) sid
                (is_flowing (result event)) (reported_at (result event)) w1 d Hrel1 Hd)
    as (Hok & Hrp' & Hnow' & Hcase).
  destruct (propagate _ _ _ _ w1) as [res wf]. cbn [fst snd] in *. subst res.
  cbn [fst snd]. rewrite Hrp', Hnow', Hrp, Hnow. repeat split.
  destruct (notNewer _ _).
  - destruct Hcase as (Hs & Ht & Hl). rewrite Hs, Hsp. repeat split.
    + rewrite (writes_since_app w wf (ops ++ [FindSpring sid Draft; FindSpring sid Published])).
      * rewrite List.filter_app, Hops. reflexivity.
      * rewrite Ht, Htr. by rewrite <- app_assoc.
    + rewrite Hl.
      change (log w1 ++ [?a; ?b]) with (log w1 ++ [a] ++ [b]).
      by rewrite !app_assoc, last_snoc.
  - destruct Hcase as (Hs & Ht). rewrite Hnow in Hs. rewrite Hs, Hsp.
    split; [reflexivity |].
    rewrite (writes_since_app w wf
               (ops ++ [FindSpring sid Draft; FindSpring sid Published]
                    ++ propagation_writes sid d (is_flowing (result event))
                         (reported_at (result event)) (now w))).
    + rewrite !List.filter_app, Hops. cbn [List.filter is_write app].
      unfold propagation_writes. by destruct (published d).
    + rewrite Ht, Htr, Hnow. by rewrite <- !app_assoc.
Qed.

(** The newer-than test on well-formed dates. *)
Lemma notNewer_false_iff (rep : string) (reference : option string) (r : Z) :
  Date_parse rep = Some r ->
  valid_reference reference ->
  notNewer rep reference = false <->
  reference = None \/
  exists s t, reference = Some s /\ Date_parse s = Some t /\ (t < r)%Z.
Proof.
  intros Hr Hvalid. unfold notNewer. destruct reference as [s |].
  - destruct Hvalid as [t Ht]. destruct s as [| c s].
    { rewrite Date_parse_empty in Ht. discriminate Ht. }
    cbn [truthy from_option Datatypes.id]. rewrite Hr, Ht. cbn [date_le]. split.
    + intros Hlt%Z.leb_gt. right. by exists (String c s), t.
    + intros [Hnone | (s' & t' & [= <-] & Ht' & Hlt)]; [discriminate |].
      rewrite Ht in Ht'. injection Ht' as <-. by apply Z.leb_gt.
  - split; [by left | reflexivity].
Qed.

Lemma propagation_writes_nonempty (sid : string) (d : SpringDoc) (flowing : bool)
  (rep : string) (nw : Z) : propagation_writes sid d flowing rep nw <> [].
Proof. unfold propagation_writes. by destruct (published d). Qed.

(** C1.  For a report linked to an existing spring (timestamps being dates
    the engine reads, and the store answering), the propagator compares
    against the published representation's [status_updated_at] when a
    published representation exists and against the draft's otherwise; it
    writes the new status if and only if that reference is [null] or
    [reported_at] is strictly later; otherwise, and in particular when
    [reported_at] equals the reference, it writes nothing and the store of
    springs is unchanged. *)
Theorem newer_than_rule (event : ReportAfterCreateEvent) (w : World)
  (sid : string) (d : SpringDoc) (r : Z) :
  reliable w -> linked event w sid -> springs w !! sid = Some d ->
  Date_parse (reported_at (result event)) = Some r ->
  valid_reference (comparison_reference d) ->
  let w' := (afterCreate event w).2 in
  let newer :=
    comparison_reference d = None \/
    exists s t, comparison_reference d = Some s /\ Date_parse s = Some t /\ (t < r)%Z in
  (writes_since w w' <> [] <-> newer)
  /\ (newer ->
      springs w' = <[sid := propagated d (is_flowing (result event))
                             (reported_at (result event)) (now w)]> (springs w))
  /\ (~ newer -> writes_since w w' = [] /\ springs w' = springs w)
  /\ (forall s, comparison_reference d = Some s -> Date_parse s = Some r ->
      writes_since w w' = [] /\ springs w' = springs w).
Proof.
  intros Hrel Hlink Hd Hr Hvalid. cbv zeta.
  pose proof (afterCreate_reliable event w sid d Hrel Hlink Hd) as (_ & _ & _ & Hcase).
  pose proof (notNewer_false_iff _ _ r Hr Hvalid) as Hiff.
  cbv zeta in Hcase. destruct (notNewer _ _).
  - destruct Hcase as (Hs & Hw & _).
    assert (Hnot : ~ (comparison_reference d = None \/
               exists s t, comparison_reference d = Some s /\
                           Date_parse s = Some t /\ (t < r)%Z))
      by (intros Hn; by apply Hiff in Hn).
    split; [| split; [| split]].
    + split; [intros Hn; by rewrite Hw in Hn | intros Hn; by destruct Hnot].
    + intros Hn. by destruct Hnot.
    + done.
    + done.
  - destruct Hcase as (Hs & Hw).
    assert (Hnewer : comparison_reference d = None \/
               exists s t, comparison_reference d = Some s /\
                           Date_parse s = Some t /\ (t < r)%Z)
      by (by apply Hiff).
    split; [| split; [| split]].
    + split; [done |]. intros _. rewrite Hw. apply propagation_writes_nonempty.
    + done.
    + intros Hn. by destruct Hn.
    + intros s Hs' Ht. exfalso.
      destruct Hnewer as [Hnone | (s' & t' & Hs'' & Ht' & Hlt)]; [congruence |].
      rewrite Hs' in Hs''. injection Hs'' as <-. rewrite Ht in Ht'.
      injection Ht' as <-. lia.
Qed.

(** An applied propagation on a reliable store: the final document. *)
Lemma afterCreate_applied (event : ReportAfterCreateEvent) (w : World)
  (sid : string) (d : SpringDoc) :
  reliable w -> linked event w sid -> springs w !! sid = Some d ->
  writes_since w (afterCreate event w).2 <> [] ->
  let flowing := is_flowing (result event) in
  let rep := reported_at (result event) in
  notNewer rep (comparison_reference d) = false
  /\ springs (afterCreate event w).2
     = <[sid := propagated d flowing rep (now w)]> (springs w)
  /\ writes_since w (afterCreate event w).2
     = propagation_writes sid d flowing rep (now w)
  /\ reports (afterCreate event w).2 = reports w
  /\ now (afterCreate event w).2 = now w.
Proof.
  intros Hrel Hlink Hd Hwrites.
  pose proof (afterCreate_reliable event w sid d Hrel Hlink Hd)
    as (_ & Hrp & Hnow & Hcase).
  cbv zeta in *. destruct (notNewer _ _).
  - destruct Hcase as (_ & Hw & _). by destruct Hwrites.
  - destruct Hcase as (Hs & Hw). done.
Qed.

(** C2.  After a successful propagation (the store answers and the report
    is applied) on a spring that has a published representation, the draft
    and the published representation carry the same [current_status] and
    the same [status_updated_at]: the report's [reported_at], and
    [is_flowing] or [is_not_flowing] after the report's [is_flowing], never
    [unknown]. *)
Theorem draft_published_in_sync (event : ReportAfterCreateEvent) (w : World)
  (sid : string) (d : SpringDoc) (p : SpringRow) :
  reliable w -> linked event w sid -> springs w !! sid = Some d ->
  published d = Some p ->
  writes_since w (afterCreate event w).2 <> [] ->
  exists draft' published',
    springs (afterCreate event w).2 !! sid = Some (mkDoc draft' (Some published'))
    /\ current_status draft' = current_status published'
    /\ status_updated_at draft' = status_updated_at published'
    /\ status_updated_at published' = Some (reported_at (result event))
    /\ current_status published'
       = (if is_flowing (result event) then Store.is_flowing else Store.is_not_flowing)
    /\ current_status published' <> unknown.
Proof.
  intros Hrel Hlink Hd Hp Hwrites.
  pose proof (afterCreate_applied event w sid d Hrel Hlink Hd Hwrites)
    as (_ & Hs & _).
  cbv zeta in Hs. rewrite Hs, lookup_insert_eq. unfold propagated. rewrite Hp.
  cbn [fmap option_fmap option_map].
  eexists _, _. split; [reflexivity |]. cbn [current_status status_updated_at apply_update
    d_current_status d_status_updated_at].
  repeat split. unfold newStatus. by destruct (is_flowing (result event)).
Qed.

(** C9 (as amended).  When a published representation exists, an applied
    propagation makes exactly two writes, the published one first and the
    draft one second.  The draft write carries [current_status] and
    [status_updated_at] only; the published write carries these two and
    [updatedAt], set to the time of the write.  Every other field of either
    representation keeps its value (the published copy takes nothing from
    the draft), and no other spring changes. *)
Theorem two_independent_writes (event : ReportAfterCreateEvent) (w : World)
  (sid : string) (d : SpringDoc) (p : SpringRow) :
  reliable w -> linked event w sid -> springs w !! sid = Some d ->
  published d = Some p ->
  writes_since w (afterCreate event w).2 <> [] ->
  let w' := (afterCreate event w).2 in
  let st := newStatus (is_flowing (result event)) in
  let rep := reported_at (result event) in
  let written := Date_toISOString (now w) in
  writes_since w w'
  = [UpdateSpring Published sid (mkData st rep (Some written));
     UpdateSpring Draft sid (mkData st rep None)]
  /\ springs w' !! sid
     = Some (mkDoc
               (mkRow (lat (draft d)) (lng (draft d)) st (Some rep)
                      (updatedAt (draft d)) (fields (draft d)))
               (Some (mkRow (lat p) (lng p) st (Some rep) written (fields p))))
  /\ (forall sid', sid' <> sid -> springs w' !! sid' = springs w !! sid').
Proof.
  intros Hrel Hlink Hd Hp Hwrites.
  pose proof (afterCreate_applied event w sid d Hrel Hlink Hd Hwrites)
    as (_ & Hs & Hw & _).
  cbv zeta in *. rewrite Hs, Hw. unfold propagation_writes, propagated. rewrite Hp.
  split; [reflexivity |]. split.
  - by rewrite lookup_insert_eq.
  - intros sid' Hne. by rewrite lookup_insert_ne.
Qed.

(** The handler of [afterCreate] only logs: its [try] never throws. *)
Lemma try_catch_log (body : M unit) (f : Error -> Message) (w : World) :
  (try_catch body (fun error => strapi_log lvl_error (f error)) w).1 = Ok ().
Proof. unfold try_catch. by destruct (body w) as [[[] | e] w']. Qed.

(** [afterCreate] throws exactly when the event does not name the spring
    and the lookup of the stored report fails: that lookup (lines 87-96)
    stands before the [try]. *)
Lemma afterCreate_throws_iff (event : ReportAfterCreateEvent) (w : World) :
  (afterCreate event w).1 = Throw StoreError <->
  truthy (springFromEvent event) = false /\ hd false (faults w) = true.
Proof.
  unfold afterCreate, mbind, M_bind. rewrite resolveSpring_run.
  destruct (truthy (springFromEvent event)) eqn:Hev.
  - rewrite Hev. cbn [negb]. rewrite try_catch_log. split; [discriminate | by intros []].
  - cbv zeta. destruct (hd false (faults w)); [done |].
    split; [| by intros []].
    destruct (truthy (mjoin _)) eqn:Hst.
    + rewrite Hst. cbn [negb]. by rewrite try_catch_log.
    + rewrite Hev. discriminate.
Qed.

Lemma linked_resolution (event : ReportAfterCreateEvent) (w : World) (sid : string) :
  reliable w -> linked event w sid -> resolution event (reports w) = Some sid.
Proof.
  intros Hrel [Hres _]. rewrite resolveSpring_run in Hres. unfold resolution.
  destruct (truthy (springFromEvent event)).
  - by injection Hres.
  - cbv zeta in Hres. rewrite (reliable_hd w Hrel) in Hres. by injection Hres.
Qed.

(** A report that is not newer changes nothing, whatever the store does:
    no spring changes and no write is attempted. *)
Lemma afterCreate_not_newer (event : ReportAfterCreateEvent) (w : World)
  (sid : string) (d : SpringDoc) :
  resolution event (reports w) = Some sid ->
  truthy (Some sid) = true ->
  springs w !! sid = Some d ->
  notNewer (reported_at (result event)) (comparison_reference d) = true ->
  springs (afterCreate event w).2 = springs w
  /\ writes_since w (afterCreate event w).2 = [].
Proof.
  intros Hres Htruthy Hd Hnn.
  assert (Hgoal : exists ops, springs (afterCreate event w).2 = springs w
            /\ trace (afterCreate event w).2 = trace w ++ ops
            /\ List.filter is_write ops = []).
  { unfold afterCreate, mbind, M_bind. rewrite resolveSpring_run.
    unfold resolution in Hres. cbv zeta in Hres.
    destruct w as [sp rp sec nw fl tr lg]. cbn [springs reports faults trace] in *.
    assert (Hskip : forall fl' tr' lg',
      let w1 := mkWorld sp rp sec nw fl' tr' lg' in
      let r := try_catch
                 (propagate (documentId (result event)) sid
                    (is_flowing (result event)) (reported_at (result event)))
                 (fun error => strapi_log lvl_error
                    (PropagationFailed (documentId (result event)) sid error)) w1 in
      exists ops, springs r.2 = sp /\ trace r.2 = tr' ++ ops
                  /\ List.filter is_write ops = []).
    { intros fl' tr' lg'. cbv zeta. unfold propagate. wsimpl.
      destruct (hd false fl'); wsimpl.
      { by exists [FindSpring sid Draft]. }
      rewrite Hd. wsimpl. destruct (hd false (tail fl')); wsimpl.
      { exists [FindSpring sid Draft; FindSpring sid Published].
        by rewrite <- app_assoc. }
      rewrite Hd. wsimpl. rewrite referenceDoc_reference, Hnn. wsimpl.
      exists [FindSpring sid Draft; FindSpring sid Published].
      by rewrite <- app_assoc. }
    destruct (truthy (springFromEvent event)).
    - rewrite Hres, Htruthy. cbn [negb from_option Datatypes.id].
      destruct (Hskip fl tr lg) as (ops & ? & ? & ?). by exists ops.
    - cbv zeta.
      cbn [springs reports HMAC_SECRET now faults trace log with_faults with_trace].
      destruct (hd false fl).
      { by exists [FindReport (documentId (result event))]. }
      rewrite Hres, Htruthy. cbn [negb from_option Datatypes.id].
      destruct (Hskip (tail fl) (tr ++ [FindReport (documentId (result event))]) lg)
        as (ops & Hs & Ht & Hf).
      exists (FindReport (documentId (result event)) :: ops).
      split; [exact Hs |]. split; [| exact Hf].
      etransitivity; [exact Ht |]. by rewrite <- app_assoc. }
  destruct Hgoal as (ops & Hs & Ht & Hf). split; [exact Hs |].
  by rewrite (writes_since_app _ _ ops Ht).
Qed.

Lemma notNewer_same (rep : string) (r : Z) :
  Date_parse rep = Some r -> notNewer rep (Some rep) = true.
Proof.
  intros Hr. unfold notNewer. destruct rep as [| c rep].
  { rewrite Date_parse_empty in Hr. discriminate Hr. }
  cbn [truthy from_option Datatypes.id]. rewrite Hr. cbn [date_le]. apply Z.leb_refl.
Qed.

Lemma comparison_reference_propagated (d : SpringDoc) (flowing : bool)
  (rep : string) (nw : Z) :
  comparison_reference (propagated d flowing rep nw) = Some rep.
Proof. unfold comparison_reference, propagated. by destruct (published d). Qed.

(** C8.  Propagation is idempotent per report: once a report (with a
    [reported_at] the engine reads as a date) has been applied, running its
    propagation again on the resulting state, whatever the store does this
    time, attempts no write and leaves every spring unchanged; when the
    store answers, the second run ends on the "not newer" log entry, with
    [reported_at] itself as the reference. *)
Theorem propagation_idempotent (event : ReportAfterCreateEvent) (w : World)
  (sid : string) (d : SpringDoc) (r : Z) (fs : list bool) :
  reliable w -> linked event w sid -> springs w !! sid = Some d ->
  Date_parse (reported_at (result event)) = Some r ->
  writes_since w (afterCreate event w).2 <> [] ->
  let w1 := with_faults fs (afterCreate event w).2 in
  let w2 := (afterCreate event w1).2 in
  springs w2 = springs w1
  /\ writes_since w1 w2 = []
  /\ (reliable w1 ->
      last (log w2)
      = Some (lvl_info, NotNewer (documentId (result event))
                                 (reported_at (result event))
                                 (Some (reported_at (result event))))).
Proof.
  intros Hrel Hlink Hd Hr Hwrites.
  pose proof (afterCreate_applied event w sid d Hrel Hlink Hd Hwrites)
    as (_ & Hs & _ & Hrp & _).
  pose proof (linked_resolution event w sid Hrel Hlink) as Hres.
  cbv zeta in *.
  set (w1 := with_faults fs (afterCreate event w).2).
  set (d1 := propagated d (is_flowing (result event)) (reported_at (result event)) (now w)) in *.
  assert (Hd1 : springs w1 !! sid = Some d1)
    by (subst w1; cbn [springs with_faults]; by rewrite Hs, lookup_insert_eq).
  assert (Hres1 : resolution event (reports w1) = Some sid)
    by (subst w1; cbn [reports with_faults]; by rewrite Hrp).
  assert (Hnn : notNewer (reported_at (result event)) (comparison_reference d1) = true).
  { subst d1. rewrite comparison_reference_propagated. by apply (notNewer_same _ r). }
  destruct Hlink as [_ Htruthy].
  destruct (afterCreate_not_newer event w1 sid d1 Hres1 Htruthy Hd1 Hnn) as [Hs2 Hw2].
  split; [exact Hs2 |]. split; [exact Hw2 |].
  intros Hrel1.
  assert (Hlink1 : linked event w1 sid).
  { split; [| exact Htruthy]. rewrite resolveSpring_run.
    unfold resolution in Hres1. cbv zeta in Hres1.
    destruct (truthy (springFromEvent event)).
    - by rewrite Hres1.
    - cbv zeta. rewrite (reliable_hd w1 Hrel1). by rewrite Hres1. }
  pose proof (afterCreate_reliable event w1 sid d1 Hrel1 Hlink1 Hd1)
    as (_ & _ & _ & Hcase).
  cbv zeta in Hcase. rewrite Hnn in Hcase. destruct Hcase as (_ & _ & Hlast).
  subst d1. by rewrite comparison_reference_propagated in Hlast.
Qed.

End LifecycleFacts.

(** C3, the failing input: the event of a report created by the mobile
    client (the spring is neither in [result] nor an object in [params]),
    with a store whose next call fails.  The lookup of the report throws
    out of [afterCreate]. *)
Theorem fallback_lookup_failure_escapes :
  (Lifecycle.afterCreate (RT := RefRuntime.runtime)
     (Examples.event "r1" true "2024-01-15T10:00:00.000Z")
     (Store.with_faults [true] Examples.world_with_reports)).1
  = Store.Throw Store.StoreError.
Proof. vm_compute. reflexivity. Qed.

(** C9, the claim as stated fails: the published write also sets
    [updatedAt], so that field of the published representation does not
    keep its value. *)
Lemma published_updatedAt_is_written :
  ~ (forall (RT : Runtime) (event : Lifecycle.ReportAfterCreateEvent) (w : Store.World)
       (sid : string) (d : Store.SpringDoc) (p : Store.SpringRow),
       Spec.reliable w -> Spec.linked event w sid ->
       Store.springs w !! sid = Some d -> Store.published d = Some p ->
       Spec.writes_since w (Lifecycle.afterCreate event w).2 <> [] ->
       exists d',
         Store.springs (Lifecycle.afterCreate event w).2 !! sid = Some d'
         /\ Store.updatedAt <$> Store.published d' = Some (Store.updatedAt p)).
Proof.
  intros H.
  destruct (H RefRuntime.runtime
              (Examples.event "r1" true "2024-01-15T10:00:00.000Z")
              Examples.world_with_reports Examples.springId
              (Store.mkDoc Examples.draftRow (Some Examples.publishedRow))
              Examples.publishedRow)
    as (d' & Hd' & Hup).
  - constructor.
  - split; vm_compute; reflexivity.
  - vm_compute. reflexivity.
  - reflexivity.
  - vm_compute. discriminate.
  - vm_compute in Hd'. injection Hd' as <-. vm_compute in Hup. discriminate Hup.
Qed.

(* ===================================================================== *)
(** * The theorems at concrete inputs                                      *)
(* ===================================================================== *)

Lemma example_reaches_geofence (coordinates : option (float * float)) :
  Policy.reaches_geofence
    (Examples.request "1736622000" Examples.signature Examples.springId coordinates)
    Examples.world Examples.springId.
Proof.
  exists Examples.signature, "1736622000", 1736622000%Z, Examples.secret.
  repeat split; vm_compute; reflexivity.
Defined.

Lemma example_reaches_geofence_draftOnly (coordinates : option (float * float)) :
  Policy.reaches_geofence
    (Examples.request "1736622000" Examples.signature_draftOnly Examples.draftOnlyId
                      coordinates)
    Examples.world Examples.draftOnlyId.
Proof.
  exists Examples.signature_draftOnly, "1736622000", 1736622000%Z, Examples.secret.
  repeat split; vm_compute; reflexivity.
Defined.

(** A user about 75 metres from the spring is let through. *)
Lemma geofence_step_witness :
  (Policy.policy (RT := RefRuntime.runtime)
     (Examples.request "1736622000" Examples.signature Examples.springId
                       (Some (50.0880, 14.4220)%float))
     Examples.world).1 = Store.Ok true.
Proof.
  destruct (geofence_step (RT := RefRuntime.runtime) _ _ _
              (example_reaches_geofence (Some (50.0880, 14.4220)%float)))
    as [Hboth _].
  destruct (Hboth 50.0880%float 14.4220%float eq_refl eq_refl eq_refl) as [_ Hres].
  rewrite Hres. vm_compute. reflexivity.
Defined.

(** The header "abc" is rejected. *)
Lemma unparseable_timestamp_rejected_witness :
  (Policy.policy (RT := RefRuntime.runtime)
     (Examples.request "abc" Examples.signature Examples.springId None)
     Examples.world).1 = Store.Ok false.
Proof.
  exact (proj1 (unparseable_timestamp_rejected (RT := RefRuntime.runtime)
                  (Examples.request "abc" Examples.signature Examples.springId None)
                  Examples.world "abc" eq_refl eq_refl)).
Defined.

(** A spring that is only a draft: rejected with coordinates, accepted
    without. *)
Lemma geofence_reads_published_only_witness :
  (Policy.policy (RT := RefRuntime.runtime)
     (Examples.request "1736622000" Examples.signature_draftOnly Examples.draftOnlyId
                       (Some (50.0875, 14.4213)%float))
     Examples.world).1 = Store.Ok false
  /\ (Policy.policy (RT := RefRuntime.runtime)
        (Examples.request "1736622000" Examples.signature_draftOnly Examples.draftOnlyId
                          None)
        Examples.world).1 = Store.Ok true.
Proof.
  destruct (geofence_reads_published_only (RT := RefRuntime.runtime)
              (Examples.request "1736622000" Examples.signature_draftOnly
                                Examples.draftOnlyId (Some (50.0875, 14.4213)%float))
              Examples.world Examples.draftOnlyId
              (Store.mkDoc Examples.draftRow None) 50.0875%float 14.4213%float
              (example_reaches_geofence_draftOnly _)
              eq_refl eq_refl eq_refl eq_refl eq_refl)
    as (Hrej & _ & Hacc).
  split; [exact Hrej | exact Hacc].
Defined.

Lemma example_linked (flowing : bool) (rep : string) (w : Store.World) :
  hd false (Store.faults w) = false ->
  Store.reports w !! "r1" = Some (Some Examples.springId) ->
  Spec.linked (Examples.event "r1" flowing rep) w Examples.springId.
Proof.
  intros Hok Hrep. split; [| reflexivity].
  rewrite resolveSpring_run. cbn. rewrite Hok. cbn. rewrite Hrep. reflexivity.
Defined.

(** The scenario of a stale report: the spring's status dates from
    2024-01-16T08:00:00Z, the report from 2024-01-15T10:00:00Z; nothing is
    written and the springs are unchanged. *)
Lemma newer_than_rule_witness :
  let w := Examples.world_reported in
  let w' := (Lifecycle.afterCreate (RT := RefRuntime.runtime)
               (Examples.event "r1" false "2024-01-15T10:00:00Z") w).2 in
  Spec.writes_since w w' = [] /\ Store.springs w' = Store.springs w.
Proof.
  cbv zeta.
  destruct (newer_than_rule (RT := RefRuntime.runtime)
              (Examples.event "r1" false "2024-01-15T10:00:00Z")
              Examples.world_reported Examples.springId
              (Store.mkDoc Examples.reportedRow (Some Examples.reportedRow))
              1705312800000%Z)
    as (_ & _ & Hstale & _).
  - constructor.
  - apply example_linked; reflexivity.
  - vm_compute. reflexivity.
  - vm_compute. reflexivity.
  - exists 1705392000000%Z. vm_compute. reflexivity.
  - apply Hstale. intros [Hnone | (s & t & Hs & Ht & Hlt)].
    + discriminate Hnone.
    + injection Hs as <-. vm_compute in Ht. injection Ht as <-. lia.
Defined.

(** A first report on the published spring: both representations end with
    the report's status and time. *)
Lemma draft_published_in_sync_witness :
  exists draft' published',
    Store.springs
      (Lifecycle.afterCreate (RT := RefRuntime.runtime)
         (Examples.event "r1" true "2024-01-15T10:00:00.000Z")
         Examples.world_with_reports).2 !! Examples.springId
    = Some (Store.mkDoc draft' (Some published'))
    /\ Store.current_status draft' = Store.is_flowing
    /\ Store.current_status published' = Store.is_flowing
    /\ Store.status_updated_at draft' = Some "2024-01-15T10:00:00.000Z"
    /\ Store.status_updated_at published' = Some "2024-01-15T10:00:00.000Z".
Proof.
  destruct (draft_published_in_sync (RT := RefRuntime.runtime)
              (Examples.event "r1" true "2024-01-15T10:00:00.000Z")
              Examples.world_with_reports Examples.springId
              (Store.mkDoc Examples.draftRow (Some Examples.publishedRow))
              Examples.publishedRow)
    as (draft' & published' & Hdoc & Hst & Hat & Hrep & Hflow & _).
  - constructor.
  - apply example_linked; reflexivity.
  - vm_compute. reflexivity.
  - reflexivity.
  - vm_compute. discriminate.
  - exists draft', published'. cbn in Hflow, Hrep.
    rewrite Hst, Hat, Hflow, Hrep. repeat split. exact Hdoc.
Defined.

(** The two writes of that propagation, and the draft's unpublished rename
    staying out of the published copy. *)
Lemma two_independent_writes_witness :
  let w := Examples.world_with_reports in
  let w' := (Lifecycle.afterCreate (RT := RefRuntime.runtime)
               (Examples.event "r1" true "2024-01-15T10:00:00.000Z") w).2 in
  Spec.writes_since w w'
  = [Store.UpdateSpring Store.Published Examples.springId
       (Store.mkData Store.is_flowing "2024-01-15T10:00:00.000Z"
                     (Some "2025-01-11T19:01:40.000Z"));
     Store.UpdateSpring Store.Draft Examples.springId
       (Store.mkData Store.is_flowing "2024-01-15T10:00:00.000Z" None)]
  /\ (Store.springs w' !! Examples.springId ≫= Store.published)
       ≫= (fun p => Store.fields p !! "name")
     = Some "Studanka U Buku".
Proof.
  cbv zeta.
  destruct (two_independent_writes (RT := RefRuntime.runtime)
              (Examples.event "r1" true "2024-01-15T10:00:00.000Z")
              Examples.world_with_reports Examples.springId
              (Store.mkDoc Examples.draftRow (Some Examples.publishedRow))
              Examples.publishedRow)
    as (Hw & Hdoc & _).
  - constructor.
  - apply example_linked; reflexivity.
  - vm_compute. reflexivity.
  - reflexivity.
  - vm_compute. discriminate.
  - split; [exact Hw |]. cbv zeta in Hdoc. rewrite Hdoc. reflexivity.
Defined.

(** The same report propagated twice: the second run writes nothing. *)
Lemma propagation_idempotent_witness :
  let w1 := (Lifecycle.afterCreate (RT := RefRuntime.runtime)
               (Examples.event "r1" true "2024-01-15T10:00:00.000Z")
               Examples.world_with_reports).2 in
  let w2 := (Lifecycle.afterCreate (RT := RefRuntime.runtime)
               (Examples.event "r1" true "2024-01-15T10:00:00.000Z")
               (Store.with_faults [] w1)).2 in
  Store.springs w2 = Store.springs (Store.with_faults [] w1)
  /\ Spec.writes_since (Store.with_faults [] w1) w2 = [].
Proof.
  cbv zeta.
  destruct (propagation_idempotent (RT := RefRuntime.runtime)
              (Examples.event "r1" true "2024-01-15T10:00:00.000Z")
              Examples.world_with_reports Examples.springId
              (Store.mkDoc Examples.draftRow (Some Examples.publishedRow))
              1705312800000%Z [])
    as (Hs & Hw & _).
  - constructor.
  - apply example_linked; reflexivity.
  - vm_compute. reflexivity.
  - vm_compute. reflexivity.
  - vm_compute. discriminate.
  - split; [exact Hs | exact Hw].
Defined.

(* ===================================================================== *)
(** * Scenarios                                                            *)
(* ===================================================================== *)

(** The documented signature example, and a candidate with its last
    hexadecimal character changed. *)
Example scenario_signature :
  Policy.generateExpectedSignature "1736622000" "abc123xyz456" Examples.secret
  = Examples.signature
  /\ Policy.signatureMismatch
       "63cbde8649a05c9e30d39ca6204ff56fa747ea292a7af2d406daccb3f127004e"
       Examples.signature = Store.Ok true.
Proof. split; vm_compute; reflexivity. Qed.

(** A candidate that is one byte short is a mismatch, not an exception. *)
Example scenario_short_signature :
  Policy.signatureMismatch
    "63cbde8649a05c9e30d39ca6204ff56fa747ea292a7af2d406daccb3f12700"
    Examples.signature = Store.Ok true.
Proof. vm_compute. reflexivity. Qed.

(** What [parseInt] makes of some header values. *)
Example scenario_parseInt :
  JS.parseInt10 "1736622000" = Some 1736622000%Z
  /\ JS.parseInt10 "1736622000abc" = Some 1736622000%Z
  /\ JS.parseInt10 " -12.5" = Some (-12)%Z
  /\ JS.parseInt10 (Examples.NBSP +:+ "1736622000") = Some 1736622000%Z
  /\ JS.parseInt10 "abc" = None
  /\ JS.parseInt10 "-" = None.
Proof. repeat split. Qed.

(** A timestamp header that starts with a no-break space passes the whole
    policy when the client signs that header value. *)
Example scenario_nbsp_timestamp :
  (Policy.policy (RT := RefRuntime.runtime)
     (Examples.request (Examples.NBSP +:+ "1736622000") MoreExamples.signature_nbsp
                       Examples.springId None)
     Examples.world).1 = Store.Ok true.
Proof. vm_compute. reflexivity. Qed.

(** Node's hexadecimal decoder keeps the low byte of each code unit: the
    signature with 0x100 added to each of its code units decodes to the
    same bytes and is accepted, and two code units U+0130 after a
    signature decode to one more byte and make it a mismatch. *)
Example scenario_wide_signature :
  JS.Buffer_from_hex (MoreExamples.widen Examples.signature)
  = JS.Buffer_from_hex Examples.signature
  /\ (Policy.policy (RT := RefRuntime.runtime)
        (Examples.request "1736622000" (MoreExamples.widen Examples.signature)
                          Examples.springId None)
        Examples.world).1 = Store.Ok true
  /\ (Policy.policy (RT := RefRuntime.runtime)
        (Examples.request "1736622000"
           (Examples.signature +:+ MoreExamples.widen "00")
           Examples.springId None)
        Examples.world).1 = Store.Ok false.
Proof. split; [| split]; vm_compute; reflexivity. Qed.

(** The header "1736622000abc" passes the whole policy when the client
    signs that very header value. *)
Example scenario_lenient_timestamp :
  (Policy.policy (RT := RefRuntime.runtime)
     (Examples.request "1736622000abc" Examples.signature_lenient
                       Examples.springId None)
     Examples.world).1 = Store.Ok true.
Proof. vm_compute. reflexivity. Qed.

(** A user about 610 metres away is turned down. *)
Example scenario_too_far :
  (Policy.policy (RT := RefRuntime.runtime)
     (Examples.request "1736622000" Examples.signature Examples.springId
                       (Some (50.0930, 14.4213)%float))
     Examples.world).1 = Store.Ok false.
Proof. vm_compute. reflexivity. Qed.

(** The draft write failing after the published write went through: the
    two representations differ, and the failure is in the log. *)
Example scenario_draft_write_fails :
  let w' := (Lifecycle.afterCreate (RT := RefRuntime.runtime)
               (Examples.event "r1" true "2024-01-15T10:00:00.000Z")
               (Store.with_faults [false; false; false; false; true]
                  Examples.world_with_reports)).2 in
  Spec.status_in w' Examples.springId Store.Draft = Some Store.unknown
  /\ Spec.status_in w' Examples.springId Store.Published = Some Store.is_flowing
  /\ last (Store.log w')
     = Some (Store.lvl_error,
             Store.PropagationFailed "r1" Examples.springId Store.StoreError).
Proof. repeat split; vm_compute; reflexivity. Qed.

(* ===================================================================== *)
(** * More on the report authenticator                                     *)
(* ===================================================================== *)

From Stdlib Require FloatAxioms SpecFloat FloatOps.

(** A comparison with NaN on the right is false. *)
Lemma ltb_nan (x d : float) : PrimFloat.is_nan d = true -> PrimFloat.ltb x d = false.
Proof.
  unfold PrimFloat.is_nan.
  rewrite FloatAxioms.ltb_spec, FloatAxioms.eqb_spec.
  unfold SpecFloat.SFltb, SpecFloat.SFeqb.
  destruct (FloatOps.Prim2SF d) as [s | s | | s m e]; cbn.
  - destruct s; discriminate.
  - destruct s; discriminate.
  - intros _. destruct (FloatOps.Prim2SF x); reflexivity.
  - destruct s; rewrite ?Z.compare_refl, ?Pos.compare_cont_refl, ?Pos.compare_refl; cbn;
      try discriminate.
    all: rewrite ?Pos.compare_cont_refl; cbn; try discriminate.
Qed.

Section PolicyCoverage.
Import JS Store Policy.
Context {RT : Runtime}.
Local Open Scope Z_scope.

(** Every run of the policy either stops at one of the checks of sections
    1-4 with a single log entry and no store access, or is the geo-fence. *)
Lemma policy_cases (req : Request) (w : World) :
  (exists sid, reaches_geofence req w sid
               /\ policy req w = geoFence (body_data req) sid w)
  \/ (exists lvl msg,
        policy req w = (Ok false, with_log (log w ++ [(lvl, msg)]) w)
        /\ (lvl = lvl_warn \/ lvl = lvl_error)).
Proof.
  destruct (truthy (header req !! "x-app-signature")) eqn:Tsg.
  2:{ right. exists lvl_warn, MissingSignatureHeader. unfold policy. rewrite Tsg.
      split; [reflexivity | by left]. }
  destruct (truthy (header req !! "x-timestamp")) eqn:Tth.
  2:{ right. exists lvl_warn, MissingTimestampHeader. unfold policy. rewrite Tsg, Tth.
      split; [reflexivity | by left]. }
  destruct (header req !! "x-app-signature") as [sg |] eqn:Hsg; [| discriminate Tsg].
  destruct (header req !! "x-timestamp") as [th |] eqn:Hth; [| discriminate Tth].
  destruct (parseInt10 th) as [ts |] eqn:Hts.
  2:{ right. exists lvl_warn, InvalidTimestampFormat. unfold policy.
      rewrite Hsg, Hth, Tsg, Tth. cbn [negb from_option Datatypes.id]. rewrite Hts.
      split; [reflexivity | by left]. }
  destruct (isTimestampValid (now w) ts) eqn:Hval.
  2:{ right. exists lvl_warn, (TimestampExpired (now w / 1000 - ts)). unfold policy.
      rewrite Hsg, Hth, Tsg, Tth. cbn [negb from_option Datatypes.id]. rewrite Hts.
      msimpl. rewrite Hval. split; [reflexivity | by left]. }
  destruct (truthy (body_data req ≫= spring)) eqn:Tsid.
  2:{ right. exists lvl_warn, MissingSpringDocumentId. unfold policy.
      rewrite Hsg, Hth, Tsg, Tth. cbn [negb from_option Datatypes.id]. rewrite Hts, Tsid.
      msimpl. rewrite Hval. split; [reflexivity | by left]. }
  destruct (body_data req ≫= spring) as [sid |] eqn:Hsid; [| discriminate Tsid].
  destruct (truthy (HMAC_SECRET w)) eqn:Tsec.
  2:{ right. exists lvl_error, SecretNotConfigured. unfold policy.
      rewrite Hsg, Hth, Tsg, Tth. cbn [negb from_option Datatypes.id].
      rewrite Hts, Hsid, Tsid. msimpl. rewrite Hval. msimpl. rewrite Tsec.
      split; [reflexivity | by right]. }
  destruct (HMAC_SECRET w) as [sec |] eqn:Hsec; [| discriminate Tsec].
  destruct (bool_decide (Buffer_from_hex sg
              = Buffer_from_hex (generateExpectedSignature th sid sec))) eqn:Hmatch.
  - left. exists sid.
    assert (Hreach : reaches_geofence req w sid).
    { exists sg, th, ts, sec. repeat split; try assumption.
      by rewrite signatureMismatch_total, Hmatch. }
    split; [exact Hreach | by apply policy_reaches_geofence].
  - right. exists lvl_warn, (InvalidSignature sid). unfold policy.
    rewrite Hsg, Hth, Tsg, Tth. cbn [negb from_option Datatypes.id].
    rewrite Hts, Hsid, Tsid. msimpl. rewrite Hval. msimpl. rewrite Hsec, Tsec. msimpl.
    rewrite signatureMismatch_total, Hmatch. split; [reflexivity | by left].
Qed.

(** The outcomes of the geo-fence, whatever the store does. *)
Lemma geoFence_cases (body : option ReportData) (sid : string) (w : World) :
  let w1 := with_faults (tl (faults w))
              (with_trace (trace w ++ [FindSpring sid Published]) w) in
  match body ≫= user_lat, body ≫= user_lng with
  | Some userLat, Some userLng =>
      if hd false (faults w) then geoFence body sid w = (Throw StoreError, w1)
      else
        match springs w !! sid ≫= published with
        | None =>
            geoFence body sid w
            = (Ok false, with_log (log w ++ [(lvl_warn, SpringNotFound sid)]) w1)
        | Some s =>
            let distance := Geo.haversineDistance userLat userLng (lat s) (lng s) in
            if PrimFloat.ltb MAX_DISTANCE_METERS distance
            then geoFence body sid w
                 = (Ok false, with_log (log w ++ [(lvl_warn, TooFar distance)]) w1)
            else geoFence body sid w
                 = (Ok true,
                    with_log ((log w ++ [(lvl_debug, GeoValidationPassed distance sid)])
                              ++ [(lvl_info, Authenticated sid)]) w1)
        end
  | _, _ =>
      geoFence body sid w
      = (Ok true,
         with_log ((log w ++ [(lvl_debug, GeoValidationSkipped sid)])
                   ++ [(lvl_info, Authenticated sid)]) w)
  end.
Proof.
  cbv zeta. unfold geoFence.
  destruct (body ≫= user_lat) as [la |]; [| reflexivity].
  destruct (body ≫= user_lng) as [lo |]; [| reflexivity].
  unfold documents_spring_findOne, store_call. msimpl.
  destruct (hd false (faults w)); [reflexivity |].
  cbn [row_of springs with_faults with_trace].
  destruct (springs w !! sid) as [d |]; cbn [option_bind row_of]; [| reflexivity].
  destruct (published d) as [s |]; [| reflexivity].
  destruct (PrimFloat.ltb _ _); reflexivity.
Qed.

Lemma isTimestampValid_true_iff (now_ms timestamp : Z) :
  isTimestampValid now_ms timestamp = true <-> 0 <= now_ms / 1000 - timestamp <= 300.
Proof.
  unfold isTimestampValid, TIMESTAMP_MAX_AGE_SECONDS.
  rewrite andb_true_iff, !Z.leb_le. lia.
Qed.

(** X1.  The policy lets a request through only if all of this holds: both
    headers are present, the timestamp header starts with an integer whose
    age is between 0 and 300 seconds, the body names a spring, the secret
    is configured, the signature header decodes to the very bytes of the
    HMAC-SHA256 digest of "timestamp:spring", and, when both coordinates are
    given, the published spring exists and is not farther than 500 m. *)
Theorem policy_accepts_only_authentic (req : Request) (w : World) :
  (policy req w).1 = Ok true ->
  exists signature timestampHeader timestamp sid secret,
    header req !! "x-app-signature" = Some signature
    /\ header req !! "x-timestamp" = Some timestampHeader
    /\ parseInt10 timestampHeader = Some timestamp
    /\ 0 <= now w / 1000 - timestamp <= 300
    /\ body_data req ≫= spring = Some sid /\ sid <> EmptyString
    /\ HMAC_SECRET w = Some secret /\ secret <> EmptyString
    /\ Buffer_from_hex signature = digest timestampHeader sid secret
    /\ (forall userLat userLng,
          body_data req ≫= user_lat = Some userLat ->
          body_data req ≫= user_lng = Some userLng ->
          exists s, springs w !! sid ≫= published = Some s
                    /\ PrimFloat.ltb MAX_DISTANCE_METERS
                         (Geo.haversineDistance userLat userLng (lat s) (lng s))
                       = false).
Proof.
  intros Hacc. destruct (policy_cases req w) as [(sid & Hreach & Hrun) | (l & m & Hrun & _)].
  2:{ rewrite Hrun in Hacc. discriminate Hacc. }
  destruct Hreach as (sg & th & ts & sec & Hsg & Hth & Tsg & Tth & Hts & Hval & Hsid
                      & Tsid & Hsec & Tsec & Hmm).
  exists sg, th, ts, sid, sec.
  apply isTimestampValid_true_iff in Hval.
  rewrite signatureMismatch_total in Hmm. injection Hmm as Hmm.
  apply negb_false_iff, bool_decide_eq_true_1 in Hmm.
  rewrite expected_signature_decodes in Hmm.
  repeat (split; [first [assumption | by intros ->] |]).
  intros la lo Hla Hlo. rewrite Hrun in Hacc.
  pose proof (geoFence_cases (body_data req) sid w) as Hgeo. cbv zeta in Hgeo.
  rewrite Hla, Hlo in Hgeo.
  destruct (hd false (faults w)); [rewrite Hgeo in Hacc; discriminate Hacc |].
  destruct (springs w !! sid ≫= published) as [s |];
    [| rewrite Hgeo in Hacc; discriminate Hacc].
  exists s. split; [reflexivity |].
  destruct (PrimFloat.ltb _ _); [rewrite Hgeo in Hacc; discriminate Hacc | reflexivity].
Qed.

(** X2.  Without a configured secret (the variable unset or empty), every
    request is rejected, with no store access and no exception. *)
Theorem policy_without_secret_rejects (req : Request) (w : World) :
  truthy (HMAC_SECRET w) = false ->
  (policy req w).1 = Ok false
  /\ trace (policy req w).2 = trace w
  /\ springs (policy req w).2 = springs w.
Proof.
  intros Hsec. destruct (policy_cases req w) as [(sid & Hreach & _) | (l & m & Hrun & _)].
  - destruct Hreach as (sg & th & ts & sec & _ & _ & _ & _ & _ & _ & _ & _ & Hs & Ts & _).
    rewrite Hs, Ts in Hsec. discriminate Hsec.
  - by rewrite Hrun.
Qed.

(** X3.  The policy is a gate: whatever the request and whatever the store
    does, it changes no spring and no report, and it makes at most one
    store call, a read of the published representation of a spring. *)
Theorem policy_is_a_gate (req : Request) (w : World) :
  springs (policy req w).2 = springs w
  /\ reports (policy req w).2 = reports w
  /\ (trace (policy req w).2 = trace w
      \/ exists sid, trace (policy req w).2 = trace w ++ [FindSpring sid Published]).
Proof.
  destruct (policy_cases req w) as [(sid & _ & Hrun) | (l & m & Hrun & _)].
  2:{ rewrite Hrun. repeat split. by left. }
  rewrite Hrun. pose proof (geoFence_cases (body_data req) sid w) as Hgeo.
  cbv zeta in Hgeo.
  destruct (body_data req ≫= user_lat) as [la |];
    [| rewrite Hgeo; repeat split; by left].
  destruct (body_data req ≫= user_lng) as [lo |];
    [| rewrite Hgeo; repeat split; by left].
  destruct (hd false (faults w));
    [rewrite Hgeo; repeat split; right; by exists sid |].
  destruct (springs w !! sid ≫= published) as [s |];
    [| rewrite Hgeo; repeat split; right; by exists sid].
  destruct (PrimFloat.ltb _ _); rewrite Hgeo; repeat split; right; by exists sid.
Qed.

(** X4.  The policy has no [try]: it throws exactly when a request that
    passed the header, timestamp and signature checks carries both
    coordinates and the lookup of the spring fails; the exception is the
    store's. *)
Theorem policy_throws_iff (req : Request) (w : World) (e : Error) :
  (policy req w).1 = Throw e <->
  e = StoreError
  /\ hd false (faults w) = true
  /\ exists sid userLat userLng,
       reaches_geofence req w sid
       /\ body_data req ≫= user_lat = Some userLat
       /\ body_data req ≫= user_lng = Some userLng.
Proof.
  split.
  - intros Hthrow.
    destruct (policy_cases req w) as [(sid & Hreach & Hrun) | (l & m & Hrun & _)].
    2:{ rewrite Hrun in Hthrow. discriminate Hthrow. }
    rewrite Hrun in Hthrow.
    pose proof (geoFence_cases (body_data req) sid w) as Hgeo. cbv zeta in Hgeo.
    destruct (body_data req ≫= user_lat) as [la |];
      [| rewrite Hgeo in Hthrow; discriminate Hthrow].
    destruct (body_data req ≫= user_lng) as [lo |];
      [| rewrite Hgeo in Hthrow; discriminate Hthrow].
    destruct (hd false (faults w)).
    + rewrite Hgeo in Hthrow. injection Hthrow as <-.
      repeat split. by exists sid, la, lo.
    + destruct (springs w !! sid ≫= published) as [s |];
        [| rewrite Hgeo in Hthrow; discriminate Hthrow].
      destruct (PrimFloat.ltb _ _); rewrite Hgeo in Hthrow; discriminate Hthrow.
  - intros (-> & Hfail & sid & la & lo & Hreach & Hla & Hlo).
    rewrite (policy_reaches_geofence req w sid Hreach).
    pose proof (geoFence_cases (body_data req) sid w) as Hgeo. cbv zeta in Hgeo.
    rewrite Hla, Hlo, Hfail in Hgeo. by rewrite Hgeo.
Qed.

(** X5.  No decision is silent: a rejection adds exactly one log entry, at
    level warn or error; an acceptance ends on the info entry "Report
    authenticated successfully". *)
Theorem policy_outcome_is_logged (req : Request) (w : World) :
  ((policy req w).1 = Ok false ->
   exists lvl msg,
     log (policy req w).2 = log w ++ [(lvl, msg)]
     /\ (lvl = lvl_warn \/ lvl = lvl_error))
  /\ ((policy req w).1 = Ok true ->
      exists sid, last (log (policy req w).2) = Some (lvl_info, Authenticated sid)).
Proof.
  destruct (policy_cases req w) as [(sid & _ & Hrun) | (l & m & Hrun & Hl)].
  2:{ rewrite Hrun. split; [| discriminate]. intros _. by exists l, m. }
  rewrite Hrun. pose proof (geoFence_cases (body_data req) sid w) as Hgeo.
  cbv zeta in Hgeo.
  destruct (body_data req ≫= user_lat) as [la |].
  2:{ rewrite Hgeo. split; [discriminate |]. intros _. exists sid.
      cbn [snd log with_log]. apply last_snoc. }
  destruct (body_data req ≫= user_lng) as [lo |].
  2:{ rewrite Hgeo. split; [discriminate |]. intros _. exists sid.
      cbn [snd log with_log]. apply last_snoc. }
  destruct (hd false (faults w)); [rewrite Hgeo; split; discriminate |].
  destruct (springs w !! sid ≫= published) as [s |].
  2:{ rewrite Hgeo. split; [| discriminate]. intros _.
      exists lvl_warn, (SpringNotFound sid). split; [reflexivity | by left]. }
  destruct (PrimFloat.ltb _ _); rewrite Hgeo.
  - split; [| discriminate]. intros _. eexists lvl_warn, _.
    split; [reflexivity | by left].
  - split; [discriminate |]. intros _. exists sid.
    cbn [snd log with_log]. apply last_snoc.
Qed.

(** X6.  On the millisecond clock, a timestamp of [t] seconds is accepted
    from the instant [1000 t] up to, and not including, [1000 t + 301000]:
    a signed request stops being accepted 301 seconds after the time it
    names, and is not accepted before it. *)
Theorem replay_window_in_milliseconds (now_ms timestamp : Z) :
  isTimestampValid now_ms timestamp = true <->
  1000 * timestamp <= now_ms < 1000 * timestamp + 301000.
Proof.
  rewrite isTimestampValid_true_iff.
  pose proof (Z.div_mod now_ms 1000 ltac:(lia)).
  pose proof (Z.mod_pos_bound now_ms 1000 ltac:(lia)). lia.
Qed.

Lemma compress_length (h block : list Z) :
  length h = 8%nat -> length (Crypto.compress h block) = 8%nat.
Proof.
  intros Hh. unfold Crypto.compress.
  rewrite length_map, length_combine, Hh. reflexivity.
Qed.

Lemma sha256_length (msg : list Z) : length (Crypto.sha256 msg) = 32%nat.
Proof.
  unfold Crypto.sha256.
  assert (Hfold : forall bs h, length h = 8%nat ->
            length (fold_left Crypto.compress bs h) = 8%nat).
  { induction bs as [| b bs IH]; intros h Hh; [exact Hh |].
    cbn [fold_left]. apply IH. by apply compress_length. }
  specialize (Hfold (Crypto.blocks
                       (length (Crypto.words_of_bytes (Crypto.pad msg)) / 16)
                       (Crypto.words_of_bytes (Crypto.pad msg)))
                    Crypto.H256 eq_refl).
  destruct (fold_left _ _ _) as [| a [| b [| c [| d [| e [| f [| g [| h [| ? ?]]]]]]]]];
    try discriminate Hfold.
  reflexivity.
Qed.

Lemma hex_of_bytes_length (bs : list Z) :
  Forall is_byte bs -> length (code_units (hex_of_bytes bs)) = (2 * length bs)%nat.
Proof.
  induction 1 as [| b bs Hb _ IH]; [reflexivity |].
  rewrite <- (string_app_empty (hex_of_bytes (b :: bs))).
  rewrite code_units_hex_of_bytes_cons by exact Hb.
  rewrite string_app_empty. cbn [length]. rewrite IH. lia.
Qed.

(** X7.  The expected signature is always 64 hexadecimal characters (code
    units), the encoding of 32 bytes; so a signature header that Node's
    hexadecimal decoder does not turn into exactly 32 bytes is a mismatch
    for every timestamp, spring and secret. *)
Theorem expected_signature_size (signature t sid k : string) :
  length (code_units (generateExpectedSignature t sid k)) = 64%nat
  /\ length (Buffer_from_hex (generateExpectedSignature t sid k)) = 32%nat
  /\ (length (Buffer_from_hex signature) <> 32%nat ->
      signatureMismatch signature (generateExpectedSignature t sid k) = Ok true).
Proof.
  assert (Hlen : length (digest t sid k) = 32%nat) by apply sha256_length.
  split; [| split].
  - unfold generateExpectedSignature.
    rewrite hex_of_bytes_length by apply hmac_bytes. by rewrite Hlen.
  - by rewrite expected_signature_decodes.
  - intros Hne. rewrite signatureMismatch_total, expected_signature_decodes.
    rewrite bool_decide_eq_false_2; [reflexivity |].
    intros Heq. by rewrite Heq in Hne.
Qed.

(** X8.  Characters after a valid signature are not looked at unless they
    start with two more hexadecimal digits: the expected signature followed
    by [tail] verifies exactly when Node's decoder reads no byte from
    [tail] (it is empty, a single code unit, or starts with a pair of code
    units whose low bytes are not both hexadecimal digits). *)
Theorem signature_trailing_characters (t sid k tail : string) :
  signatureMismatch (generateExpectedSignature t sid k +:+ tail)
                    (generateExpectedSignature t sid k)
  = Ok (negb (bool_decide (Buffer_from_hex tail = []))).
Proof.
  rewrite signatureMismatch_total, expected_signature_decodes.
  unfold generateExpectedSignature.
  rewrite Buffer_from_hex_app by apply hmac_bytes.
  do 2 f_equal. apply bool_decide_ext. split.
  - intros Heq. apply (app_inv_head (digest t sid k)). by rewrite app_nil_r.
  - intros ->. by rewrite app_nil_r.
Qed.

(** X9.  The geo-fence turns down only a distance that compares greater
    than 500: when the computed distance is not a number (as it is for
    coordinates that are not finite), a request that passed the earlier
    checks is accepted. *)
Theorem geofence_accepts_nan_distance (req : Request) (w : World) (sid : string)
  (s : SpringRow) (userLat userLng : float) :
  reaches_geofence req w sid ->
  body_data req ≫= user_lat = Some userLat ->
  body_data req ≫= user_lng = Some userLng ->
  springs w !! sid ≫= published = Some s ->
  hd false (faults w) = false ->
  PrimFloat.is_nan (Geo.haversineDistance userLat userLng (lat s) (lng s)) = true ->
  (policy req w).1 = Ok true.
Proof.
  intros Hreach Hla Hlo Hs Hok Hnan.
  rewrite (policy_reaches_geofence req w sid Hreach).
  pose proof (geoFence_cases (body_data req) sid w) as Hgeo. cbv zeta in Hgeo.
  rewrite Hla, Hlo, Hok, Hs in Hgeo.
  rewrite (ltb_nan _ _ Hnan) in Hgeo. by rewrite Hgeo.
Qed.

(** C6 (code bug).  For a user nearly opposite the spring on the globe,
    rounding makes the quantity [a] of the haversine formula exceed 1, the
    square root of [1 - a] is not a number, and neither is the distance:
    the test [distance > 500] is false, and the request, sent from about
    20 000 km away, is accepted.  The user is at (-50.0875001, -165.5787),
    the spring at (50.0875, 14.4213); the values of the sine and the
    cosine are those of the engine at the four arguments the formula
    reaches. *)
Theorem geofence_accepts_antipodal_user (req : Request) (w : World) (sid : string)
  (s : SpringRow) :
  reaches_geofence req w sid ->
  body_data req ≫= user_lat = Some (-50.0875001)%float ->
  body_data req ≫= user_lng = Some (-165.5787)%float ->
  springs w !! sid ≫= published = Some s ->
  lat s = 50.0875%float -> lng s = 14.4213%float ->
  hd false (faults w) = false ->
  Math_sin 0.8741917899653245 = 0.7670251915184417%float ->
  Math_sin 1.5707963267948966 = 1%float ->
  Math_cos (-0.874191790837989) = 0.6416169844363209%float ->
  Math_cos 0.8741917890926598 = 0.6416169857750323%float ->
  (forall y, Math_atan2 y PrimFloat.nan = PrimFloat.nan) ->
  PrimFloat.is_nan
    (Geo.haversineDistance (-50.0875001) (-165.5787) 50.0875 14.4213) = true
  /\ (policy req w).1 = Ok true
  /\ last (log (policy req w).2) = Some (lvl_info, Authenticated sid).
Proof.
  intros Hreach Hlat Hlng Hs Hslat Hslng Hok Hsin1 Hsin2 Hcos1 Hcos2 Hatan.
  assert (Hnan : PrimFloat.is_nan
            (Geo.haversineDistance (-50.0875001) (-165.5787) 50.0875 14.4213) = true).
  { cbv beta zeta delta [Geo.haversineDistance].
    replace (Geo.toRadians (50.0875 - -50.0875001) / 2)%float
      with 0.8741917899653245%float by (vm_compute; reflexivity).
    replace (Geo.toRadians (14.4213 - -165.5787) / 2)%float
      with 1.5707963267948966%float by (vm_compute; reflexivity).
    replace (Geo.toRadians (-50.0875001)) with (-0.874191790837989)%float
      by (vm_compute; reflexivity).
    replace (Geo.toRadians 50.0875) with 0.8741917890926598%float
      by (vm_compute; reflexivity).
    rewrite Hsin1, Hsin2, Hcos1, Hcos2.
    replace (PrimFloat.sqrt
               (1 - (0.7670251915184417 * 0.7670251915184417
                     + 0.6416169844363209 * 0.6416169857750323 * 1 * 1)))%float
      with PrimFloat.nan by (vm_compute; reflexivity).
    rewrite Hatan. vm_compute. reflexivity. }
  split; [exact Hnan |].
  rewrite (policy_reaches_geofence req w sid Hreach).
  pose proof (geoFence_cases (body_data req) sid w) as Hgeo. cbv zeta in Hgeo.
  rewrite Hlat, Hlng, Hok, Hs, Hslat, Hslng in Hgeo.
  rewrite ltb_nan in Hgeo by exact Hnan. rewrite Hgeo.
  split; [reflexivity |]. cbn [snd log with_log]. apply last_snoc.
Qed.

End PolicyCoverage.

(** A request 75 m from the spring is accepted, so its timestamp is in the
    window. *)
Lemma policy_accepts_only_authentic_witness :
  exists timestamp,
    JS.parseInt10 "1736622000" = Some timestamp
    /\ (0 <= Store.now Examples.world / 1000 - timestamp <= 300)%Z.
Proof.
  destruct (policy_accepts_only_authentic (RT := RefRuntime.runtime)
              (Examples.request "1736622000" Examples.signature Examples.springId
                                (Some (50.0880, 14.4220)%float))
              Examples.world)
    as (sg & th & ts & sid & sec & _ & Hth & Hts & Hage & _).
  - vm_compute. reflexivity.
  - vm_compute in Hth. injection Hth as <-. by exists ts.
Defined.

(** With the secret unset, a correctly signed request is rejected. *)
Lemma policy_without_secret_rejects_witness :
  (Policy.policy (RT := RefRuntime.runtime)
     (Examples.request "1736622000" Examples.signature Examples.springId None)
     MoreExamples.world_no_secret).1 = Store.Ok false.
Proof.
  exact (proj1 (policy_without_secret_rejects (RT := RefRuntime.runtime)
                  (Examples.request "1736622000" Examples.signature
                                    Examples.springId None)
                  MoreExamples.world_no_secret eq_refl)).
Defined.

(** A latitude that is not finite (JSON [1e999] reads as [Infinity]) gives
    a distance that is not a number, and the request is accepted. *)
Lemma geofence_accepts_nan_distance_witness :
  (Policy.policy (RT := NanRuntime.runtime)
     (Examples.request "1736622000" Examples.signature Examples.springId
                       (Some (PrimFloat.infinity, 14.4213%float)))
     Examples.world).1 = Store.Ok true.
Proof.
  apply (geofence_accepts_nan_distance (RT := NanRuntime.runtime) _ _
           Examples.springId Examples.publishedRow PrimFloat.infinity 14.4213%float).
  - apply example_reaches_geofence.
  - reflexivity.
  - reflexivity.
  - vm_compute. reflexivity.
  - reflexivity.
  - vm_compute. reflexivity.
Defined.

(** The antipodal user against the spring of the examples. *)
Lemma geofence_accepts_antipodal_user_witness :
  (Policy.policy (RT := LibmRuntime.runtime)
     (Examples.request "1736622000" Examples.signature Examples.springId
                       (Some (-50.0875001, -165.5787)%float))
     Examples.world).1 = Store.Ok true.
Proof.
  destruct (geofence_accepts_antipodal_user (RT := LibmRuntime.runtime)
              (Examples.request "1736622000" Examples.signature Examples.springId
                                (Some (-50.0875001, -165.5787)%float))
              Examples.world Examples.springId Examples.publishedRow)
    as (_ & Hacc & _).
  - apply (example_reaches_geofence (Some (-50.0875001, -165.5787)%float)).
  - reflexivity.
  - reflexivity.
  - reflexivity.
  - reflexivity.
  - reflexivity.
  - reflexivity.
  - vm_compute. reflexivity.
  - vm_compute. reflexivity.
  - vm_compute. reflexivity.
  - vm_compute. reflexivity.
  - intros y. unfold Math_atan2, LibmRuntime.runtime, NanRuntime.atan2.
    by rewrite orb_true_r.
  - exact Hacc.
Defined.

(* ===================================================================== *)
(** * More on the status propagator                                        *)
(* ===================================================================== *)

Section LifecycleCoverage.
Import JS Store Lifecycle Spec Cover.
Context {RT : Runtime}.

Lemma alter_published_only (sp : gmap string SpringDoc) (sid : string) (d : SpringDoc)
  (flowing : bool) (rep : string) (nw : Z) :
  sp !! sid = Some d ->
  alter (fun d0 => mkDoc (draft d0)
                     (apply_update
                        (mkData (newStatus flowing) rep (Some (Date_toISOString nw)))
                        <$> published d0)) sid sp
  = <[sid := published_only d flowing rep nw]> sp.
Proof.
  intros Hd. apply map_eq. intros k. destruct (decide (k = sid)) as [-> | Hne].
  - by rewrite lookup_alter_eq, lookup_insert_eq, Hd.
  - by rewrite lookup_alter_ne, lookup_insert_ne.
Qed.

(** Every way the guarded [try] block can end, whatever the store does. *)
Lemma propagate_outcomes (rid sid : string) (flowing : bool) (rep : string)
  (w : World) :
  let r := try_catch (propagate rid sid flowing rep)
             (fun error => strapi_log lvl_error (PropagationFailed rid sid error)) w in
  r.1 = Ok () /\ reports r.2 = reports w /\ now r.2 = now w
  /\ (springs r.2 = springs w
      \/ exists d, springs w !! sid = Some d
           /\ notNewer rep (comparison_reference d) = false
           /\ ((is_Some (published d)
                /\ springs r.2
                   = <[sid := published_only d flowing rep (now w)]> (springs w))
               \/ springs r.2
                  = <[sid := propagated d flowing rep (now w)]> (springs w))).
Proof.
  cbv zeta. split; [apply try_catch_log |].
  destruct w as [sp rp sec nw fl tr lg]. unfold propagate. wsimpl.
  destruct (hd false fl); wsimpl; [by repeat split; left |].
  destruct (sp !! sid) as [d |] eqn:Hd; wsimpl; [| by repeat split; left].
  destruct (hd false (tail fl)); wsimpl; [by repeat split; left |].
  rewrite Hd. wsimpl. rewrite referenceDoc_reference.
  destruct (notNewer rep (comparison_reference d)) eqn:Hnn; wsimpl;
    [by repeat split; left |].
  destruct (published d) as [p |] eqn:Hp; wsimpl.
  - destruct (hd false (tail (tail fl))); wsimpl; [by repeat split; left |].
    destruct (hd false (tail (tail (tail fl)))); wsimpl.
    + repeat split. right. exists d. repeat split; try done. left.
      split; [by rewrite Hp |]. by apply alter_published_only.
    + repeat split. right. exists d. repeat split; try done. right.
      by apply alter_published_then_draft.
  - destruct (hd false (tail (tail fl))); wsimpl; [by repeat split; left |].
    repeat split. right. exists d. repeat split; try done. right.
    by apply alter_draft_only.
Qed.

(** Every way [afterCreate] can end, whatever the store does. *)
Lemma afterCreate_outcomes (event : ReportAfterCreateEvent) (w : World) :
  let w' := (afterCreate event w).2 in
  let flowing := is_flowing (result event) in
  let rep := reported_at (result event) in
  reports w' = reports w /\ now w' = now w
  /\ (springs w' = springs w
      \/ exists sid d,
           resolution event (reports w) = Some sid
           /\ springs w !! sid = Some d
           /\ notNewer rep (comparison_reference d) = false
           /\ ((is_Some (published d)
                /\ springs w' = <[sid := published_only d flowing rep (now w)]> (springs w))
               \/ springs w' = <[sid := propagated d flowing rep (now w)]> (springs w))).
Proof.
  cbv zeta. unfold afterCreate, mbind, M_bind. rewrite resolveSpring_run.
  unfold resolution. cbv zeta.
  destruct (truthy (springFromEvent event)) eqn:Hev.
  - rewrite Hev. cbn [negb].
    destruct (springFromEvent event) as [sid |] eqn:Hsid; [| discriminate Hev].
    cbn [from_option Datatypes.id].
    pose proof (propagate_outcomes (documentId (result event)) sid
                  (is_flowing (result event)) (reported_at (result event)) w)
      as (_ & Hrp & Hnow & Hcase).
    cbv zeta in *. split; [exact Hrp |]. split; [exact Hnow |].
    destruct Hcase as [Hsame | (d & Hd & Hnn & Hw)]; [by left |].
    right. by exists sid, d.
  - cbv zeta. destruct (hd false (faults w)); [by repeat split; left |].
    destruct (truthy (mjoin (reports w !! documentId (result event)))) eqn:Hst.
    2:{ rewrite Hev. cbn [negb]. by repeat split; left. }
    rewrite Hst. cbn [negb].
    destruct (mjoin (reports w !! documentId (result event))) as [sid |] eqn:Hsid;
      [| discriminate Hst].
    cbn [from_option Datatypes.id].
    set (w1 := with_faults _ _).
    pose proof (propagate_outcomes (documentId (result event)) sid
                  (is_flowing (result event)) (reported_at (result event)) w1)
      as (_ & Hrp & Hnow & Hcase).
    cbv zeta in *. split; [exact Hrp |]. split; [exact Hnow |].
    destruct Hcase as [Hsame | (d & Hd & Hnn & Hw)]; [by left |].
    right. by exists sid, d.
Qed.

Lemma same_frame_refl (d : SpringDoc) : same_frame d d.
Proof. unfold same_frame, same_row. by destruct (published d). Qed.

Lemma same_frame_published_only (d : SpringDoc) (flowing : bool) (rep : string) (nw : Z) :
  same_frame d (published_only d flowing rep nw).
Proof. unfold same_frame, same_row, published_only. by destruct (published d). Qed.

Lemma same_frame_propagated (d : SpringDoc) (flowing : bool) (rep : string) (nw : Z) :
  same_frame d (propagated d flowing rep nw).
Proof. unfold same_frame, same_row, propagated. by destruct (published d). Qed.

(** X10.  Whatever the event and whichever store calls fail, [afterCreate]
    creates no spring, deletes none, publishes none and unpublishes none,
    and leaves the reports alone; in a document it changes at most
    [current_status] and [status_updated_at] (and [updatedAt] of the
    published copy): coordinates and all other attributes keep their
    values. *)
Theorem propagation_frame (event : ReportAfterCreateEvent) (w : World) (k : string) :
  reports (afterCreate event w).2 = reports w
  /\ match springs w !! k, springs (afterCreate event w).2 !! k with
     | Some d, Some d' => same_frame d d'
     | None, None => True
     | _, _ => False
     end.
Proof.
  pose proof (afterCreate_outcomes event w) as (Hrp & _ & Hcase). cbv zeta in *.
  split; [exact Hrp |].
  destruct Hcase as [-> | (sid & d & _ & Hd & _ & [[_ ->] | ->])].
  - destruct (springs w !! k); [apply same_frame_refl | done].
  - destruct (decide (sid = k)) as [<- | Hne].
    + rewrite lookup_insert_eq, Hd. apply same_frame_published_only.
    + rewrite lookup_insert_ne by done.
      destruct (springs w !! k); [apply same_frame_refl | done].
  - destruct (decide (sid = k)) as [<- | Hne].
    + rewrite lookup_insert_eq, Hd. apply same_frame_propagated.
    + rewrite lookup_insert_ne by done.
      destruct (springs w !! k); [apply same_frame_refl | done].
Qed.

(** X11.  [afterCreate] changes no spring but the one the resolution gives
    (the spring named by the event, else the one of the stored report),
    whatever the store does. *)
Theorem propagation_targets_resolved_spring
  (event : ReportAfterCreateEvent) (w : World) (k : string) :
  resolution event (reports w) <> Some k ->
  springs (afterCreate event w).2 !! k = springs w !! k.
Proof.
  intros Hk. pose proof (afterCreate_outcomes event w) as (_ & _ & Hcase).
  cbv zeta in *.
  destruct Hcase as [-> | (sid & d & Hres & _ & _ & [[_ ->] | ->])]; [done | |];
    rewrite lookup_insert_ne; congruence.
Qed.

Lemma reference_time_newer (d : SpringDoc) (rep : string) (r t : Z) :
  Date_parse rep = Some r ->
  reference_time d = Some t ->
  notNewer rep (comparison_reference d) = false ->
  (t < r)%Z.
Proof.
  unfold reference_time, notNewer. intros Hr Ht.
  destruct (comparison_reference d) as [s |]; [| discriminate Ht].
  cbn [mbind option_bind] in Ht. destruct s as [| c s].
  { rewrite Date_parse_empty in Ht. discriminate Ht. }
  cbn [truthy from_option Datatypes.id]. rewrite Hr, Ht. cbn [date_le].
  by intros Hlt%Z.leb_gt.
Qed.

(** X12.  The status time never moves backwards: if the comparison
    reference of a spring stands at time [t] and the report carries a date
    the engine reads, then after [afterCreate], whatever the store does, the
    spring is still there and its comparison reference stands at [t] or
    later. *)
Theorem reference_never_goes_back (event : ReportAfterCreateEvent) (w : World)
  (k : string) (d : SpringDoc) (t r : Z) :
  Date_parse (reported_at (result event)) = Some r ->
  springs w !! k = Some d ->
  reference_time d = Some t ->
  exists d' t',
    springs (afterCreate event w).2 !! k = Some d'
    /\ reference_time d' = Some t' /\ (t <= t')%Z.
Proof.
  intros Hr Hk Ht. pose proof (afterCreate_outcomes event w) as (_ & _ & Hcase).
  cbv zeta in *.
  destruct Hcase as [-> | (sid & d0 & _ & Hd & Hnn & Hw)].
  { exists d, t. by repeat split. }
  destruct (decide (sid = k)) as [-> | Hne].
  2:{ exists d, t. destruct Hw as [[_ ->] | ->]; by rewrite lookup_insert_ne. }
  rewrite Hk in Hd. injection Hd as <-.
  pose proof (reference_time_newer d _ r t Hr Ht Hnn) as Hlt.
  destruct Hw as [[[p Hp] ->] | ->].
  - eexists _, r. rewrite lookup_insert_eq. split; [reflexivity |].
    split; [| lia]. unfold reference_time, comparison_reference, published_only.
    rewrite Hp. exact Hr.
  - eexists _, r. rewrite lookup_insert_eq. split; [reflexivity |].
    split; [| lia]. unfold reference_time.
    rewrite comparison_reference_propagated. exact Hr.
Qed.

(** X13.  On a spring that was never published, an applied propagation
    makes exactly one write, of [current_status] and [status_updated_at]
    to the draft; the spring stays unpublished and its other draft fields
    keep their values. *)
Theorem draft_only_single_write (event : ReportAfterCreateEvent) (w : World)
  (sid : string) (d : SpringDoc) :
  reliable w -> linked event w sid -> springs w !! sid = Some d ->
  published d = None ->
  writes_since w (afterCreate event w).2 <> [] ->
  let w' := (afterCreate event w).2 in
  let st := newStatus (is_flowing (result event)) in
  let rep := reported_at (result event) in
  writes_since w w' = [UpdateSpring Draft sid (mkData st rep None)]
  /\ springs w' !! sid
     = Some (mkDoc
               (mkRow (lat (draft d)) (lng (draft d)) st (Some rep)
                      (updatedAt (draft d)) (fields (draft d)))
               None).
Proof.
  intros Hrel Hlink Hd Hp Hwrites.
  pose proof (afterCreate_applied event w sid d Hrel Hlink Hd Hwrites)
    as (_ & Hs & Hw & _).
  cbv zeta in *. rewrite Hs, Hw. unfold propagation_writes, propagated. rewrite Hp.
  split; [reflexivity |]. by rewrite lookup_insert_eq.
Qed.

(** X14.  A report that no source links to a spring (nothing truthy in the
    event, nothing in the stored report) is skipped: when the lookup of the
    report answers, [afterCreate] returns normally, makes that one lookup
    and no other store call, changes no spring, and logs "No spring
    linked" at debug level. *)
Theorem unlinked_report_is_skipped (event : ReportAfterCreateEvent) (w : World) :
  truthy (resolution event (reports w)) = false ->
  hd false (faults w) = false ->
  let r := afterCreate event w in
  r.1 = Ok ()
  /\ springs r.2 = springs w
  /\ calls_since w r.2 = [FindReport (documentId (result event))]
  /\ log r.2 = log w ++ [(lvl_debug, NoSpringLinked (documentId (result event)))].
Proof.
  intros Hres Hok. cbv zeta. unfold afterCreate, mbind, M_bind.
  rewrite resolveSpring_run. unfold resolution in Hres. cbv zeta in Hres.
  destruct (truthy (springFromEvent event)) eqn:Hev.
  { rewrite Hev in Hres. discriminate Hres. }
  cbv zeta. rewrite Hok.
  destruct (truthy (mjoin (reports w !! documentId (result event)))) eqn:Hst.
  { rewrite Hst in Hres. discriminate Hres. }
  rewrite Hev. cbn [negb]. unfold strapi_log, modify. cbn [fst snd].
  repeat split. unfold calls_since. cbn [trace with_log with_faults with_trace].
  by rewrite drop_app_length.
Qed.

(** X15.  A report linked to a spring that is not (or no longer) in the
    store is skipped: with the store answering, [afterCreate] returns
    normally, writes nothing, changes no spring, and ends on the warning
    "draft not found". *)
Theorem missing_spring_is_skipped (event : ReportAfterCreateEvent) (w : World)
  (sid : string) :
  reliable w -> linked event w sid -> springs w !! sid = None ->
  let r := afterCreate event w in
  r.1 = Ok ()
  /\ springs r.2 = springs w
  /\ writes_since w r.2 = []
  /\ last (log r.2)
     = Some (lvl_warn, DraftNotFound (documentId (result event)) sid).
Proof.
  intros Hrel [Hres Htruthy] Hnone.
  destruct (resolveSpring_reliable event w Hrel)
    as (r0 & w1 & ops & Hrun & Hsp & _ & _ & _ & Hrel1 & Htr & Hops).
  rewrite Hrun in Hres. cbn [fst] in Hres. injection Hres as ->.
  cbv zeta. rewrite (afterCreate_resolved event w w1 sid Hrun Htruthy).
  rewrite <- Hsp in Hnone. rewrite <- Hsp.
  pose proof (reliable_hd _ Hrel1) as Hok.
  destruct w1 as [sp rp sec nw fl tr lg]. cbn [springs trace faults] in *.
  unfold propagate. wsimpl. rewrite Hok. wsimpl.
  rewrite Hnone. wsimpl. repeat split.
  - rewrite (writes_since_app w _ (ops ++ [FindSpring sid Draft])).
    + rewrite List.filter_app, Hops. reflexivity.
    + cbn [snd trace with_log with_faults with_trace]. by rewrite Htr, <- app_assoc.
  - cbn [snd log with_log]. apply last_snoc.
Qed.

(** X16.  The only exception [afterCreate] lets out is the one of the
    report lookup of lines 87-96, which is made when the event names no
    spring: every failure of a spring lookup or a spring write is caught
    and logged. *)
Theorem afterCreate_raises_only_from_report_lookup
  (event : ReportAfterCreateEvent) (w : World) (e : Error) :
  (afterCreate event w).1 = Throw e <->
  e = StoreError
  /\ truthy (springFromEvent event) = false
  /\ hd false (faults w) = true.
Proof.
  unfold afterCreate, mbind, M_bind. rewrite resolveSpring_run.
  destruct (truthy (springFromEvent event)) eqn:Hev.
  - rewrite Hev. cbn [negb]. rewrite try_catch_log.
    split; [discriminate | by intros (_ & ? & _)].
  - cbv zeta. destruct (hd false (faults w)).
    + split; [by intros [= <-] | by intros (-> & _)].
    + split; [| by intros (_ & _ & ?)].
      destruct (truthy (mjoin _)) eqn:Hst.
      * rewrite Hst. cbn [negb]. by rewrite try_catch_log.
      * rewrite Hev. discriminate.
Qed.

Lemma afterCreate_reliable_step (event : ReportAfterCreateEvent) (w : World)
  (sid : string) (d : SpringDoc) :
  reliable w -> linked event w sid -> springs w !! sid = Some d ->
  springs (afterCreate event w).2
  = <[sid := apply_report d (is_flowing (result event))
               (reported_at (result event)) (now w)]> (springs w)
  /\ reports (afterCreate event w).2 = reports w
  /\ now (afterCreate event w).2 = now w.
Proof.
  intros Hrel Hlink Hd.
  pose proof (afterCreate_reliable event w sid d Hrel Hlink Hd)
    as (_ & Hrp & Hnow & Hcase).
  cbv zeta in *. unfold apply_report. split; [| by split].
  destruct (notNewer _ _).
  - destruct Hcase as (-> & _). by rewrite insert_id.
  - by destruct Hcase as (-> & _).
Qed.

Lemma linked_transfer (event : ReportAfterCreateEvent) (w w1 : World) (sid : string) :
  reliable w -> linked event w sid ->
  reports w1 = reports w -> reliable w1 ->
  linked event w1 sid.
Proof.
  intros Hrel Hlink Hrp Hrel1.
  pose proof (linked_resolution event w sid Hrel Hlink) as Hres.
  destruct Hlink as [_ Htruthy]. split; [| exact Htruthy].
  rewrite resolveSpring_run. unfold resolution in Hres. cbv zeta in Hres.
  rewrite <- Hrp in Hres.
  destruct (truthy (springFromEvent event)).
  - by rewrite Hres.
  - cbv zeta. rewrite (reliable_hd w1 Hrel1). by rewrite Hres.
Qed.

Lemma notNewer_parsed (rep s : string) (r t : Z) :
  Date_parse rep = Some r -> Date_parse s = Some t ->
  notNewer rep (Some s) = (r <=? t)%Z.
Proof.
  intros Hr Ht. unfold notNewer. destruct s as [| c s].
  { rewrite Date_parse_empty in Ht. discriminate Ht. }
  cbn [truthy from_option Datatypes.id]. by rewrite Hr, Ht.
Qed.

Lemma propagated_twice (d : SpringDoc) (f1 f2 : bool) (rep1 rep2 : string)
  (nw1 nw2 : Z) :
  propagated (propagated d f1 rep1 nw1) f2 rep2 nw2 = propagated d f2 rep2 nw2.
Proof. unfold propagated. by destruct (published d). Qed.

Lemma forget_propagated (d : SpringDoc) (f : bool) (rep : string) (nw nw' : Z) :
  forget_updatedAt (propagated d f rep nw) = forget_updatedAt (propagated d f rep nw').
Proof. unfold forget_updatedAt, propagated. by destruct (published d). Qed.

(** The order of two reports with different measurement times does not
    matter to what becomes of a document, the [updatedAt] stamps apart. *)
Lemma apply_report_commute (d : SpringDoc) (f1 f2 : bool) (rep1 rep2 : string)
  (r1 r2 ta tb tc td : Z) :
  Date_parse rep1 = Some r1 -> Date_parse rep2 = Some r2 -> r1 <> r2 ->
  valid_reference (comparison_reference d) ->
  forget_updatedAt (apply_report (apply_report d f1 rep1 ta) f2 rep2 tb)
  = forget_updatedAt (apply_report (apply_report d f2 rep2 tc) f1 rep1 td).
Proof.
  intros H1 H2 Hne Hvalid. unfold apply_report.
  assert (Hafter : forall f rep nw,
            comparison_reference (propagated d f rep nw) = Some rep)
    by (intros; apply comparison_reference_propagated).
  assert (Hnull : forall rep, notNewer rep None = false) by reflexivity.
  pose proof (notNewer_parsed rep1 rep2 r1 r2 H1 H2) as H12.
  pose proof (notNewer_parsed rep2 rep1 r2 r1 H2 H1) as H21.
  destruct (comparison_reference d) as [s |] eqn:Href.
  - destruct Hvalid as [t Ht].
    pose proof (notNewer_parsed rep1 s r1 t H1 Ht) as H1s.
    pose proof (notNewer_parsed rep2 s r2 t H2 Ht) as H2s.
    repeat first
      [ rewrite Href | rewrite Hafter | rewrite propagated_twice
      | rewrite H1s | rewrite H2s | rewrite H12 | rewrite H21
      | match goal with
        | |- context [Z.leb ?a ?b] => destruct (Z.leb_spec a b)
        end ];
      first [reflexivity | lia | apply forget_propagated].
  - repeat first
      [ rewrite Href | rewrite Hafter | rewrite propagated_twice | rewrite Hnull
      | rewrite H12 | rewrite H21
      | match goal with
        | |- context [Z.leb ?a ?b] => destruct (Z.leb_spec a b)
        end ];
      first [reflexivity | lia | apply forget_propagated].
Qed.

(** X17.  Arrival order does not matter to the status: for two reports on
    the same spring whose measurement times differ (dates the engine
    reads, the store answering), handling one then the other, at any
    times of the clock, leaves the same springs as handling them the other
    way round, the [updatedAt] stamps apart (the published copy is stamped
    with the time of its last write, which depends on the order). *)
Theorem reports_commute (event1 event2 : ReportAfterCreateEvent) (w : World)
  (sid : string) (d : SpringDoc) (r1 r2 t1 t2 t3 t4 : Z) :
  reliable w -> linked event1 w sid -> linked event2 w sid ->
  springs w !! sid = Some d ->
  valid_reference (comparison_reference d) ->
  Date_parse (reported_at (result event1)) = Some r1 ->
  Date_parse (reported_at (result event2)) = Some r2 ->
  r1 <> r2 ->
  let after t event w0 := with_faults [] (afterCreate event (with_now t w0)).2 in
  forget_updatedAt <$> springs (after t2 event2 (after t1 event1 w))
  = forget_updatedAt <$> springs (after t4 event1 (after t3 event2 w)).
Proof.
  intros Hrel Hl1 Hl2 Hd Hvalid H1 H2 Hne. cbv zeta. cbn [springs with_faults].
  assert (Hstep : forall ea eb ta tb, linked ea w sid -> linked eb w sid ->
    springs (afterCreate eb (with_now tb (with_faults [] (afterCreate ea (with_now ta w)).2))).2
    = <[sid := apply_report
                 (apply_report d (is_flowing (result ea)) (reported_at (result ea)) ta)
                 (is_flowing (result eb)) (reported_at (result eb)) tb]> (springs w)).
  { intros ea eb ta tb Hla Hlb.
    assert (Hrel0 : reliable (with_now ta w)) by exact Hrel.
    assert (Hla0 : linked ea (with_now ta w) sid)
      by (by apply (linked_transfer ea w (with_now ta w) sid)).
    destruct (afterCreate_reliable_step ea (with_now ta w) sid d Hrel0 Hla0 Hd)
      as (Hs & Hrp & _).
    set (wa := with_now tb (with_faults [] (afterCreate ea (with_now ta w)).2)).
    assert (Hrela : reliable wa) by constructor.
    assert (Hlinka : linked eb wa sid) by (by apply (linked_transfer eb w wa sid)).
    assert (Hda : springs wa !! sid
                  = Some (apply_report d (is_flowing (result ea))
                            (reported_at (result ea)) ta))
      by (subst wa; cbn [springs with_now with_faults]; by rewrite Hs, lookup_insert_eq).
    destruct (afterCreate_reliable_step eb wa sid _ Hrela Hlinka Hda) as (Hs' & _ & _).
    rewrite Hs'. subst wa. cbn [springs now with_now with_faults].
    by rewrite Hs, insert_insert_eq. }
  rewrite (Hstep event1 event2 t1 t2 Hl1 Hl2), (Hstep event2 event1 t3 t4 Hl2 Hl1).
  rewrite !fmap_insert. f_equal.
  by apply (apply_report_commute d _ _ _ _ r1 r2).
Qed.

(** X18.  A failure of the draft write after the published write went
    through leaves the two representations apart: [afterCreate] still
    returns normally, the published copy has the report's status, the
    draft has not, and the failure is the last log entry.  Running the same
    report again does not repair it: the published copy now holds
    [reported_at], so every later run, whatever the store does, is skipped
    as "not newer". *)
Theorem draft_write_failure_is_not_repaired (event : ReportAfterCreateEvent)
  (w : World) (sid : string) (d : SpringDoc) (p : SpringRow) (r : Z)
  (fs fs' : list bool) :
  springFromEvent event = Some sid -> truthy (Some sid) = true ->
  springs w !! sid = Some d -> published d = Some p ->
  Date_parse (reported_at (result event)) = Some r ->
  notNewer (reported_at (result event)) (comparison_reference d) = false ->
  faults w = [false; false; false; true] ++ fs ->
  let w1 := (afterCreate event w).2 in
  let st := newStatus (is_flowing (result event)) in
  let rep := reported_at (result event) in
  (afterCreate event w).1 = Ok ()
  /\ springs w1 !! sid
     = Some (mkDoc (draft d)
               (Some (mkRow (lat p) (lng p) st (Some rep)
                            (Date_toISOString (now w)) (fields p))))
  /\ last (log w1)
     = Some (lvl_error, PropagationFailed (documentId (result event)) sid StoreError)
  /\ springs (afterCreate event (with_faults fs' w1)).2 = springs w1.
Proof.
  intros Hev Htruthy Hd Hp Hr Hnn Hfl. cbv zeta.
  assert (Hrun : afterCreate event w
    = (Ok (),
       mkWorld (<[sid := published_only d (is_flowing (result event))
                          (reported_at (result event)) (now w)]> (springs w))
         (reports w) (HMAC_SECRET w) (now w) fs
         (trace w ++ [FindSpring sid Draft; FindSpring sid Published;
                      UpdateSpring Published sid
                        (mkData (newStatus (is_flowing (result event)))
                           (reported_at (result event))
                           (Some (Date_toISOString (now w))));
                      UpdateSpring Draft sid
                        (mkData (newStatus (is_flowing (result event)))
                           (reported_at (result event)) None)])
         (log w ++ [(lvl_info, Propagating (documentId (result event)) sid);
                    (lvl_info, UpdatedPublished (documentId (result event)) sid
                                 (newStatus (is_flowing (result event))));
                    (lvl_error, PropagationFailed (documentId (result event)) sid
                                  StoreError)]))).
  { unfold afterCreate, mbind, M_bind. rewrite resolveSpring_run, Hev, Htruthy.
    cbn beta iota. rewrite Htruthy. cbn [negb from_option Datatypes.id].
    destruct w as [sp rp sec nw fl tr lg]. cbn [springs faults] in *. subst fl.
    unfold propagate. wsimpl. cbn [hd tl app]. wsimpl. rewrite Hd. wsimpl.
    cbn [hd tl app]. wsimpl. rewrite Hd. wsimpl.
    rewrite referenceDoc_reference, Hnn, Hp.
    wsimpl. cbn [hd tl app]. wsimpl. cbn [hd tl app]. wsimpl.
    rewrite (alter_published_only sp sid d _ _ nw Hd).
    rewrite <- !app_assoc. reflexivity. }
  rewrite Hrun. cbn [fst snd springs log]. split; [reflexivity |]. split.
  { rewrite lookup_insert_eq. unfold published_only. by rewrite Hp. }
  split.
  { change (log w ++ [?a; ?b; ?c]) with (log w ++ [a; b] ++ [c]).
    by rewrite app_assoc, last_snoc. }
  set (d1 := published_only d (is_flowing (result event))
               (reported_at (result event)) (now w)).
  set (w1 := with_faults fs' _).
  assert (Hres : resolution event (reports w1) = Some sid).
  { unfold resolution. cbv zeta. by rewrite Hev, Htruthy. }
  assert (Hd1 : springs w1 !! sid = Some d1)
    by (subst w1; cbn [springs with_faults]; by rewrite lookup_insert_eq).
  assert (Hnn1 : notNewer (reported_at (result event)) (comparison_reference d1) = true).
  { subst d1. unfold comparison_reference, published_only. rewrite Hp.
    cbn [fmap option_fmap option_map published status_updated_at apply_update
         d_status_updated_at].
    by apply (notNewer_same _ r). }
  by destruct (afterCreate_not_newer event w1 sid d1 Hres Htruthy Hd1 Hnn1).
Qed.

End LifecycleCoverage.

(** The report "r1" is on the published spring: the draft-only spring is
    not touched. *)
Lemma propagation_targets_resolved_spring_witness :
  Store.springs
    (Lifecycle.afterCreate (RT := RefRuntime.runtime)
       (Examples.event "r1" true "2024-01-15T10:00:00.000Z")
       Examples.world_with_reports).2 !! Examples.draftOnlyId
  = Store.springs Examples.world_with_reports !! Examples.draftOnlyId.
Proof.
  apply (propagation_targets_resolved_spring (RT := RefRuntime.runtime)).
  intros H. vm_compute in H. discriminate H.
Defined.

(** A spring whose status dates from 2024-01-16T08:00:00Z, and a report
    from February: the reference does not go back. *)
Lemma reference_never_goes_back_witness :
  exists d' t',
    Store.springs
      (Lifecycle.afterCreate (RT := RefRuntime.runtime)
         (Examples.event "r1" false "2024-02-01T00:00:00Z")
         Examples.world_reported).2 !! Examples.springId = Some d'
    /\ Cover.reference_time (RT := RefRuntime.runtime) d' = Some t'
    /\ (1705392000000 <= t')%Z.
Proof.
  apply (reference_never_goes_back (RT := RefRuntime.runtime)
           (Examples.event "r1" false "2024-02-01T00:00:00Z")
           Examples.world_reported Examples.springId
           (Store.mkDoc Examples.reportedRow (Some Examples.reportedRow))
           1705392000000%Z 1706745600000%Z).
  - vm_compute. reflexivity.
  - vm_compute. reflexivity.
  - vm_compute. reflexivity.
Defined.

(** The report "r2" on the spring that is only a draft. *)
Lemma draft_only_single_write_witness :
  Spec.writes_since Examples.world_with_reports
    (Lifecycle.afterCreate (RT := RefRuntime.runtime)
       (Examples.event "r2" false "2024-01-15T10:00:00.000Z")
       Examples.world_with_reports).2
  = [Store.UpdateSpring Store.Draft Examples.draftOnlyId
       (Store.mkData Store.is_not_flowing "2024-01-15T10:00:00.000Z" None)].
Proof.
  destruct (draft_only_single_write (RT := RefRuntime.runtime)
              (Examples.event "r2" false "2024-01-15T10:00:00.000Z")
              Examples.world_with_reports Examples.draftOnlyId
              (Store.mkDoc Examples.draftRow None))
    as (Hw & _).
  - constructor.
  - split; vm_compute; reflexivity.
  - vm_compute. reflexivity.
  - reflexivity.
  - vm_compute. discriminate.
  - exact Hw.
Defined.

(** A report "r9" that the store does not know and the event does not link. *)
Lemma unlinked_report_is_skipped_witness :
  Store.springs
    (Lifecycle.afterCreate (RT := RefRuntime.runtime)
       (Examples.event "r9" true "2024-01-15T10:00:00.000Z")
       Examples.world_with_reports).2
  = Store.springs Examples.world_with_reports.
Proof.
  destruct (unlinked_report_is_skipped (RT := RefRuntime.runtime)
              (Examples.event "r9" true "2024-01-15T10:00:00.000Z")
              Examples.world_with_reports)
    as (_ & Hs & _).
  - vm_compute. reflexivity.
  - reflexivity.
  - exact Hs.
Defined.

(** The report "r3" points at the spring "gone". *)
Lemma missing_spring_is_skipped_witness :
  last (Store.log
          (Lifecycle.afterCreate (RT := RefRuntime.runtime)
             (Examples.event "r3" true "2024-01-15T10:00:00.000Z")
             MoreExamples.world_dangling).2)
  = Some (Store.lvl_warn, Store.DraftNotFound "r3" "gone").
Proof.
  destruct (missing_spring_is_skipped (RT := RefRuntime.runtime)
              (Examples.event "r3" true "2024-01-15T10:00:00.000Z")
              MoreExamples.world_dangling "gone")
    as (_ & _ & _ & Hl).
  - constructor.
  - split; vm_compute; reflexivity.
  - vm_compute. reflexivity.
  - exact Hl.
Defined.

(** The reports of 15 and 14 January, in both orders, a second apart. *)
Lemma reports_commute_witness :
  let after t event w0 :=
    Store.with_faults []
      (Lifecycle.afterCreate (RT := RefRuntime.runtime) event (Cover.with_now t w0)).2 in
  Cover.forget_updatedAt
    <$> Store.springs (after 1736622101000%Z MoreExamples.event_b
                         (after 1736622100000%Z MoreExamples.event_a Examples.world))
  = Cover.forget_updatedAt
      <$> Store.springs (after 1736622103000%Z MoreExamples.event_a
                           (after 1736622102000%Z MoreExamples.event_b Examples.world)).
Proof.
  refine (reports_commute (RT := RefRuntime.runtime)
            MoreExamples.event_a MoreExamples.event_b Examples.world Examples.springId
            (Store.mkDoc Examples.draftRow (Some Examples.publishedRow))
            1705312800000%Z 1705226400000%Z
            1736622100000%Z 1736622101000%Z 1736622102000%Z 1736622103000%Z
            _ _ _ _ _ _ _ _).
  - constructor.
  - split; vm_compute; reflexivity.
  - split; vm_compute; reflexivity.
  - vm_compute. reflexivity.
  - exact I.
  - vm_compute. reflexivity.
  - vm_compute. reflexivity.
  - lia.
Defined.

(** The draft write of the first report fails: the published copy flows,
    the draft does not know. *)
Lemma draft_write_failure_is_not_repaired_witness :
  let w1 := (Lifecycle.afterCreate (RT := RefRuntime.runtime) MoreExamples.event_a
               (Store.with_faults [false; false; false; true] Examples.world)).2 in
  Spec.status_in w1 Examples.springId Store.Published = Some Store.is_flowing
  /\ Spec.status_in w1 Examples.springId Store.Draft = Some Store.unknown
  /\ Store.springs
       (Lifecycle.afterCreate (RT := RefRuntime.runtime) MoreExamples.event_a
          (Store.with_faults [] w1)).2
     = Store.springs w1.
Proof.
  cbv zeta.
  destruct (draft_write_failure_is_not_repaired (RT := RefRuntime.runtime)
              MoreExamples.event_a
              (Store.with_faults [false; false; false; true] Examples.world)
              Examples.springId
              (Store.mkDoc Examples.draftRow (Some Examples.publishedRow))
              Examples.publishedRow 1705312800000%Z [] [])
    as (_ & Hdoc & _ & Hretry).
  - reflexivity.
  - reflexivity.
  - vm_compute. reflexivity.
  - reflexivity.
  - vm_compute. reflexivity.
  - vm_compute. reflexivity.
  - reflexivity.
  - cbv zeta in Hdoc. unfold Spec.status_in. rewrite Hdoc.
    split; [reflexivity |]. split; [reflexivity | exact Hretry].
Defined.

(* ===================================================================== *)
(** * The QR code hook of the spring content type                          *)
(* ===================================================================== *)

Section SpringLifecycleFacts.
Import JS SpringLifecycle.
Variable qr_png : string -> list Z.
Variable path_join : string -> string -> string.

Ltac qsimpl :=
  unfold afterCreate, mbind, mret, M_bind, M_ret, try_catch_finally, try_ignore,
    strapi_log, set_tempFilePath, gets, modify, QRCode_toBuffer, fs_writeFileSync,
    fs_existsSync, fs_unlinkSync, upload;
  cbn [files media tmpdir qr_faults write_faults upload_faults unlink_faults log
       tempFilePath fst snd negb from_option Datatypes.id].

Lemma truthy_nonempty (s : string) : s <> EmptyString -> truthy (Some s) = true.
Proof. by destruct s. Qed.

Ltac qrun :=
  qsimpl;
  repeat first
    [ match goal with
      | H : truthy (Some ?p) = _ |- context [truthy (Some ?p)] => rewrite H
      end
    | match goal with
      | H : hd false ?l = _ |- context [hd false ?l] => rewrite H
      end
    | match goal with
      | |- context [hd false ?l] => is_var l; destruct (hd false l) eqn:?
      end
    | match goal with
      | |- context [truthy (Some ?p)] => destruct (truthy (Some p)) eqn:?
      end
    | progress qsimpl
    | case_bool_decide ].

(** X19.  The QR hook never throws: a failure of the QR encoder, of the
    file write, of the upload or of the removal of the temporary file is
    caught, so the creation of the spring goes through. *)
Theorem qr_hook_never_throws (result : Result) (w : State) :
  (afterCreate qr_png path_join result w).1 = Ok ().
Proof.
  destruct w as [fs md tmp qf wf uf nf lg tp]. qsimpl.
  destruct (qr_code result); [reflexivity |].
  qrun; reflexivity.
Qed.

(** X20.  When the spring already has a QR code, the hook does nothing but
    log: no service is called (no failure schedule moves), no file is
    written and nothing is uploaded.  This is the guard against the loop
    that an upload triggering the hook again would make. *)
Theorem qr_hook_skips_existing_code (result : Result) (w : State) :
  qr_code result = true ->
  let w' := (afterCreate qr_png path_join result w).2 in
  files w' = files w /\ media w' = media w
  /\ qr_faults w' = qr_faults w /\ write_faults w' = write_faults w
  /\ upload_faults w' = upload_faults w /\ unlink_faults w' = unlink_faults w
  /\ log w' = log w ++ [(Store.lvl_debug, QrAlreadyExists (documentId result))].
Proof. intros Hqr. cbv zeta. unfold afterCreate. rewrite Hqr. by repeat split. Qed.

(** X21.  The temporary file is cleaned up on every path.  The file is at
    the path [path.join] makes of the temporary directory and
    "spring-qr-<documentId>.png", whatever that path is once normalised
    (it is never the empty string).  If removing a file does not fail,
    then after the hook (for a spring without QR code) no file is left at
    that path, whether the write or the upload failed or not, and every
    file at another path is as before; if the QR encoder itself fails, the
    file system is not touched at all. *)
Theorem qr_hook_removes_temp_file (result : Result) (w : State) :
  qr_code result = false ->
  temp_path path_join w (documentId result) <> EmptyString ->
  hd false (unlink_faults w) = false ->
  files (afterCreate qr_png path_join result w).2
  = if hd false (qr_faults w) then files w
    else delete (temp_path path_join w (documentId result)) (files w).
Proof.
  intros Hqr Hpath%truthy_nonempty Hok. destruct w as [fs md tmp qf wf uf nf lg tp].
  cbn [unlink_faults qr_faults files] in *. unfold temp_path in *. cbn [tmpdir] in *.
  unfold afterCreate. rewrite Hqr.
  qrun; try reflexivity.
  all: try (symmetry; apply delete_id; by apply eq_None_not_Some).
  all: try apply delete_insert_eq.
  all: match goal with
       | H : ~ is_Some _ |- _ => exfalso; apply H; rewrite lookup_insert_eq; by eexists
       end.
Qed.

(** X22.  The upload is made exactly when the encoder, the file write and
    the upload service all succeed, and then once: it links the file to
    the new spring ([refId] its [id], [ref] the spring content type,
    [field] "qr_code"), under the name "spring-qr-<documentId>.png", at
    the path [path.join] makes of the temporary directory and that name,
    and what the service reads at that path is the QR image of the
    [documentId], of the announced size.  On any failure nothing is
    uploaded. *)
Theorem qr_hook_upload (result : Result) (w : State) :
  qr_code result = false ->
  media (afterCreate qr_png path_join result w).2
  = if hd false (qr_faults w) || hd false (write_faults w) || hd false (upload_faults w)
    then media w
    else media w ++
         [(mkUpload (id result) "api::spring.spring" "qr_code"
             (temp_path path_join w (documentId result))
             (fileName (documentId result))
             "image/png" (length (qr_png (documentId result))),
           Some (qr_png (documentId result)))].
Proof.
  intros Hqr. destruct w as [fs md tmp qf wf uf nf lg tp].
  cbn [qr_faults write_faults upload_faults media] in *. unfold temp_path. cbn [tmpdir].
  unfold afterCreate. rewrite Hqr.
  qrun; cbn [orb filepath]; rewrite ?lookup_insert_eq; reflexivity.
Qed.

End SpringLifecycleFacts.

(** A spring that has its QR code. *)
Lemma qr_hook_skips_existing_code_witness :
  SpringLifecycle.media
    (SpringLifecycle.afterCreate MoreExamples.fake_png MoreExamples.join_plain
       (SpringLifecycle.mkResult 7 Examples.springId true)
       MoreExamples.services_up).2 = [].
Proof.
  destruct (qr_hook_skips_existing_code MoreExamples.fake_png MoreExamples.join_plain
              (SpringLifecycle.mkResult 7 Examples.springId true)
              MoreExamples.services_up eq_refl)
    as (_ & Hm & _).
  exact Hm.
Defined.

(** The upload fails: the temporary file is gone all the same. *)
Lemma qr_hook_removes_temp_file_witness :
  SpringLifecycle.files
    (SpringLifecycle.afterCreate MoreExamples.fake_png MoreExamples.join_plain
       (SpringLifecycle.mkResult 7 Examples.springId false)
       MoreExamples.upload_down).2 !! "/tmp/spring-qr-abc123xyz456.png"
  = None.
Proof.
  rewrite (qr_hook_removes_temp_file MoreExamples.fake_png MoreExamples.join_plain
             (SpringLifecycle.mkResult 7 Examples.springId false)
             MoreExamples.upload_down eq_refl).
  - reflexivity.
  - discriminate.
  - reflexivity.
Defined.

(** All services answer: one upload, of the image of the identifier. *)
Lemma qr_hook_upload_witness :
  snd <$> SpringLifecycle.media
            (SpringLifecycle.afterCreate MoreExamples.fake_png MoreExamples.join_plain
               (SpringLifecycle.mkResult 7 Examples.springId false)
               MoreExamples.services_up).2
  = [Some (MoreExamples.fake_png Examples.springId)].
Proof.
  rewrite (qr_hook_upload MoreExamples.fake_png MoreExamples.join_plain
             (SpringLifecycle.mkResult 7 Examples.springId false)
             MoreExamples.services_up eq_refl).
  reflexivity.
Defined.

(* ===================================================================== *)
(** * The Document Service middleware                                      *)
(* ===================================================================== *)

Section RegisterFacts.
Import Register.

Lemma includes_In (l : list string) (x : string) : includes l x = true <-> In x l.
Proof.
  unfold includes. rewrite existsb_exists. split.
  - intros (y & Hy & Heq). apply String.eqb_eq in Heq. by subst.
  - intros Hx. exists x. split; [exact Hx | apply String.eqb_refl].
Qed.

Lemma middleware_restricted {A} (user : AdminUser) (context : Context)
  (next : Context -> A) :
  restricts user context ->
  middleware (Some user) context next
  = ([(id user, action context)],
     next (mkContext (uid context) (action context)
             (Some (<["managers" := IdEq (id user)]> (default ∅ (filters context)))))).
Proof.
  intros (Huid & Hact & Hsuper). unfold middleware.
  rewrite Huid, String.eqb_refl. cbn [negb].
  rewrite (proj2 (includes_In _ _) Hact), Hsuper. reflexivity.
Qed.

(** X23.  An admin who is not a super admin cannot widen the set of
    springs by sending a [managers] filter: on a restricted call, the
    filters the rest of the chain sees have [managers] set to the user's
    own id whatever the caller put there, and every other filter of the
    caller as it was.  So two calls that differ only in their [managers]
    filter are passed on as the same call. *)
Theorem manager_filter_cannot_be_overridden
  (user : AdminUser) (context context' : Context) :
  restricts user context ->
  uid context' = uid context -> action context' = action context ->
  delete "managers" (default ∅ (filters context'))
  = delete "managers" (default ∅ (filters context)) ->
  let seen := (middleware (Some user) context (fun c => c)).2 in
  (default ∅ (filters seen)) !! "managers" = Some (IdEq (id user))
  /\ (forall k, k <> "managers" ->
        (default ∅ (filters seen)) !! k = (default ∅ (filters context)) !! k)
  /\ (middleware (Some user) context' (fun c => c)).2 = seen.
Proof.
  intros Hr Huid Hact Hfilters.
  assert (Hr' : restricts user context').
  { destruct Hr as (H1 & H2 & H3). unfold restricts. by rewrite Huid, Hact. }
  cbv zeta. rewrite !middleware_restricted by assumption. cbn [snd filters].
  cbn [from_option Datatypes.id]. split; [apply lookup_insert_eq |]. split.
  - intros k Hk. by rewrite lookup_insert_ne.
  - rewrite Huid, Hact. do 2 f_equal.
    rewrite <- (insert_delete_eq (default ∅ (filters context'))),
            <- (insert_delete_eq (default ∅ (filters context))).
    by rewrite Hfilters.
Qed.

(** X24.  The middleware is idempotent: a call that has been through it
    (as the calls a hook makes inside a request are, once more) is passed
    on unchanged by a second pass, for every user and every call. *)
Theorem middleware_idempotent (user : option AdminUser) (context : Context) :
  let once := (middleware user context (fun c => c)).2 in
  (middleware user once (fun c => c)).2 = once.
Proof.
  cbv zeta. unfold middleware.
  destruct (String.eqb (uid context) SPRING_UID) eqn:Huid; cbn [negb snd].
  2:{ by rewrite Huid. }
  destruct (includes restrictedActions (action context)) eqn:Hact; cbn [negb snd].
  2:{ by rewrite Huid, Hact. }
  destruct user as [u |]; cbn [snd].
  2:{ by rewrite Huid, Hact. }
  destruct (isSuperAdmin u) eqn:Hsuper; cbn [snd uid action filters].
  { by rewrite Huid, Hact. }
  rewrite Huid, Hact. cbn [negb snd from_option Datatypes.id].
  by rewrite insert_insert_eq.
Qed.


End RegisterFacts.

(** The editor asks for the springs of manager 1 and is given his own. *)
Lemma manager_filter_cannot_be_overridden_witness :
  default ∅ (Register.filters
               (Register.middleware (Some MoreExamples.editor)
                  MoreExamples.findMany_of_manager_1 (fun c => c)).2)
    !! "managers"
  = Some (Register.IdEq 42).
Proof.
  destruct (manager_filter_cannot_be_overridden MoreExamples.editor
              MoreExamples.findMany_of_manager_1 MoreExamples.findMany_of_manager_1)
    as (Hm & _).
  - split; [reflexivity |]. split; [| reflexivity]. cbn. auto.
  - reflexivity.
  - reflexivity.
  - reflexivity.
  - exact Hm.
Defined.
